(** * Stream Factory: the publish-task orchestrator and its operator pages

    A shallow embedding of the parts of the repository that the orchestrator
    specification talks about:

    - [OpsPage]: the operations console (status filter, selection, bulk
      actions, watchdog trigger);
    - [PlanPage]: the publish-plan page (plan request, plan apply, the
      priority column of the slot table);
    - [TaskPage]: the task detail page (operator status override);
    - [OpsView], [PlanView], [TaskView], [TaskLog]: what these pages render
      from their state (count chips, checkboxes, totals, error line, log
      view);
    - [QueuePage]: the queue page with its row buttons;
    - [Machine], [Dispatcher], [Watchdog]: the server side of the
      orchestrator.  The repository snapshot holds the frontend only, so
      these three are modelled from the specification and say so.

    React state is an explicit record, an event handler is a state
    transformer in a small monad that also logs every [fetch] it issues, and
    the network is an oracle that answers a request from the history of the
    requests sent so far.  The pages decode an answer without a check of its
    shape, so a cell that stores an answer as it came holds a body of any of
    the shapes the page declares.  A session ([run]) takes the events one
    after the other, every handler having settled before the next event
    comes; [TaskPage.fetchData_overlapping] is a case of two calls in flight
    at once. *)

From Stdlib Require Import ZArith QArith Ascii String Lia.
From stdpp Require Import base decidable option list strings pretty gmap
  sets fin_maps sorting.

Set Warnings "-register-all,-clear-no-such-hyp".

#[local] Open Scope string_scope.
#[local] Open Scope Z_scope.
#[local] Open Scope list_scope.

(* ===================================================================== *)
(** ** JavaScript values shared by the pages                              *)
(* ===================================================================== *)

Module Js.

(** JSON trees as [JSON.stringify] receives them.  Integral numbers only:
    every number the pages serialise is a task id, a count or a priority. *)
Inductive Json :=
| JNull
| JBool (b : bool)
| JNum (z : Z)
| JStr (s : string)
| JArr (xs : list Json)
| JObj (fields : list (string * Json)).

(** The own keys of an object literal, in source order. *)
Definition keys (j : Json) : list string :=
  match j with
  | JObj fields => fst <$> fields
  | _ => []
  end.

Inductive Method := GET | POST | PATCH | DELETE.

#[global] Instance Method_eq_dec : EqDecision Method.
Proof. solve_decision. Defined.

(** What [fetch(url, init)] is called with.  [req_body] is the value handed
    to [JSON.stringify]. *)
Record Request := mkRequest {
  req_method : Method;
  req_url : string;
  req_headers : list (string * string);
  req_body : option Json
}.

Definition json_headers : list (string * string) :=
  [("Content-Type", "application/json")].

(** [fetch(url)] *)
Definition get (url : string) : Request := mkRequest GET url [] None.
(** [fetch(url, { method: "POST" })] *)
Definition post (url : string) : Request := mkRequest POST url [] None.
(** [fetch(url, { method, headers: {"Content-Type": ...}, body: JSON.stringify(b) })] *)
Definition send_json (m : Method) (url : string) (b : Json) : Request :=
  mkRequest m url json_headers (Some b).

(** A settled [fetch]: [r.ok], [r.status], [await r.text()] and
    [await r.json()].  [B] collects the shapes that the types of a page
    declare for its answers; the JSON of an answer is one of them, whichever
    request it answers, and [None] is a body for which [r.json()] throws. *)
Record Response (B : Type) := mkResponse {
  resp_ok : bool;
  resp_status : Z;
  resp_text : string;
  resp_json : option B
}.
Arguments mkResponse {B} _ _ _ _.
Arguments resp_ok {B} _.
Arguments resp_status {B} _.
Arguments resp_text {B} _.
Arguments resp_json {B} _.

(** The network: the answer to a request, given the requests sent before
    it.  [None] is a rejected promise (the [catch] branch). *)
Definition Net (B : Type) := list Request → Request → option (Response B).

(** The page as the handlers see it: component state and the log of the
    requests issued so far. *)
Record World (S : Type) := mkWorld { page : S; sent : list Request }.
Arguments mkWorld {S} _ _.
Arguments page {S} _.
Arguments sent {S} _.

Definition Act (S A : Type) := World S → A * World S.

#[global] Instance act_ret {S} : MRet (Act S) := λ A a w, (a, w).
#[global] Instance act_bind {S} : MBind (Act S) :=
  λ A B k m w, let (a, w') := m w in k a w'.
(** [setX(...)] with a functional update *)
Definition update {S} (f : S → S) : Act S unit :=
  λ w, (tt, mkWorld (f (page w)) (sent w)).
Definition read {S} : Act S S := λ w, (page w, w).
Definition fetch {S B} (net : Net B) (r : Request) : Act S (option (Response B)) :=
  λ w, (net (sent w) r, mkWorld (page w) (sent w ++ [r])).
Definition exec {S A} (m : Act S A) (w : World S) : World S := (m w).2.

(** [hoare P m Q]: from a world satisfying [P], the handler [m] returns a
    value and a world satisfying [Q]. *)
Definition hoare {S A} (P : World S → Prop) (m : Act S A)
    (Q : A → World S → Prop) : Prop :=
  ∀ w, P w → Q (m w).1 (m w).2.

(** Invariants of the usual kind: a property of the component state and a
    property of every request in the log. *)
Definition steady {S} (ψ : S → Prop) (φ : Request → Prop) (w : World S)
  : Prop :=
  ψ (page w) ∧ Forall φ (sent w).

Definition keeps {S A} (ψ : S → Prop) (φ : Request → Prop) (m : Act S A)
  : Prop :=
  hoare (steady ψ φ) m (λ _ w, steady ψ φ w).

(** Template-literal rendering of a boolean and of an integral number. *)
Definition show_bool (b : bool) : string := if b then "true" else "false".
Definition show_int (z : Z) : string := pretty z.

(** [v > 0 ? `+${v}` : v], the way both pages print a priority. *)
Definition show_signed (v : Z) : string :=
  if decide (0 < v) then "+" +:+ show_int v else show_int v.

(** [env || fallback] on strings: undefined and the empty string are falsy. *)
Definition or_default (env : option string) (fallback : string) : string :=
  match env with
  | Some s => if decide (s = "") then fallback else s
  | None => fallback
  end.

(** An id read from the route with [Number(params?.id)]: [NaN] when the
    segment is not numeric.  Route ids are integral task or project ids. *)
Inductive RouteId := NaN | Id (z : Z).

(** [!id] is false exactly for a non-zero number. *)
Definition truthy (i : RouteId) : bool :=
  match i with
  | NaN => false
  | Id z => bool_decide (z ≠ 0)
  end.

Definition show_id (i : RouteId) : string :=
  match i with
  | NaN => "NaN"
  | Id z => show_int z
  end.

(** A [Set<number>]: its members in insertion order, without duplicates. *)
Abbreviation NumSet := (list Z).

Definition set_has (s : NumSet) (x : Z) : bool := bool_decide (x ∈ s).
Definition set_add (s : NumSet) (x : Z) : NumSet :=
  if set_has s x then s else s ++ [x].
Definition set_delete (s : NumSet) (x : Z) : NumSet :=
  filter (λ y, y ≠ x) s.
(** [new Set(iterable)] keeps the first occurrence of every member. *)
Definition set_of (xs : list Z) : NumSet := foldl set_add [] xs.
Definition set_size (s : NumSet) : nat := length s.
(** The members as a mathematical set. *)
Definition members (s : NumSet) : gset Z := list_to_set s.

(** *** [Date]: the UTC calendar date of a time value

    [new Date(ms).toISOString().slice(0, 10)] for a time value in
    milliseconds since the epoch.  The calendar is the proleptic Gregorian
    one; a year outside 0..9999 is printed in the expanded six-digit form, of
    which the slice keeps the first ten characters. *)
Definition ms_per_day : Z := 86400000.

(** The day number of a time value: [floor(ms / msPerDay)]. *)
Definition day_number (ms : Z) : Z := ms / ms_per_day.

(** Year, month and day of a day number (days since 1970-01-01).  Eras are
    the 400-year cycles of the calendar, counted from 0000-03-01; within an
    era, years start on the first of March. *)
Definition year_of_era (doe : Z) : Z :=
  (doe - doe / 1460 + doe / 36524 - doe / 146096) / 365.

(** The first day of a year of the era, in days of the era. *)
Definition year_start (yoe : Z) : Z := 365 * yoe + yoe / 4 - yoe / 100.

(** The month of a day of the year, March being month 0, and the first day
    of a month, in days of the year. *)
Definition month_index (doy : Z) : Z := (5 * doy + 2) / 153.
Definition month_start (mp : Z) : Z := (153 * mp + 2) / 5.

(** The date of day [doy] of year [yoe] of era [era]. *)
Definition date_in_year (era yoe doy : Z) : Z * Z * Z :=
  let mp := month_index doy in
  let d := doy - month_start mp + 1 in
  let m := if decide (mp < 10) then mp + 3 else mp - 9 in
  (yoe + era * 400 + (if decide (m ≤ 2) then 1 else 0), m, d).

Definition civil_from_days (n : Z) : Z * Z * Z :=
  let z := n + 719468 in
  let era := z / 146097 in
  let doe := z - era * 146097 in
  date_in_year era (year_of_era doe) (doe - year_start (year_of_era doe)).

Definition digit (d : Z) : ascii :=
  match d with
  | 0 => "0" | 1 => "1" | 2 => "2" | 3 => "3" | 4 => "4"
  | 5 => "5" | 6 => "6" | 7 => "7" | 8 => "8" | _ => "9"
  end%char.

Definition pad2 (n : Z) : string :=
  String (digit (n / 10 mod 10)) (String (digit (n mod 10)) "").
Definition pad4 (n : Z) : string :=
  String (digit (n / 1000 mod 10)) (String (digit (n / 100 mod 10)) (pad2 n)).
Definition pad6 (n : Z) : string :=
  String (digit (n / 100000 mod 10))
    (String (digit (n / 10000 mod 10)) (pad4 n)).

Definition year_text (y : Z) : string :=
  if decide (0 ≤ y ≤ 9999)%Z then pad4 y
  else if decide (y < 0)%Z then String "-" (pad6 (- y))
  else String "+" (pad6 y).

Definition date_text (ymd : Z * Z * Z) : string :=
  let '(y, m, d) := ymd in
  year_text y +:+ "-" +:+ pad2 m +:+ "-" +:+ pad2 d.

Definition utc_date (ms : Z) : string :=
  substring 0 10 (date_text (civil_from_days (day_number ms))).

(** The calendar by its rules: leap years, month lengths, the day after. *)
Definition leap_year (y : Z) : bool :=
  bool_decide (y mod 4 = 0) &&
  (bool_decide (y mod 100 ≠ 0) || bool_decide (y mod 400 = 0)).

Definition days_in_month (y m : Z) : Z :=
  if decide (m = 2) then (if leap_year y then 29 else 28)
  else if decide (m = 4 ∨ m = 6 ∨ m = 9 ∨ m = 11) then 30
  else 31.

Definition next_day (ymd : Z * Z * Z) : Z * Z * Z :=
  let '(y, m, d) := ymd in
  if decide (d < days_in_month y m)%Z then (y, m, d + 1)
  else if decide (m < 12)%Z then (y, m + 1, 1)
  else (y + 1, 1, 1).

(** A year of the era that ends with the 29th of February. *)
Definition long_year (yoe : Z) : Prop :=
  yoe mod 4 = 3 ∧ (yoe mod 100 ≠ 99 ∨ yoe mod 400 = 399).

(** The shape YYYY-MM-DD: ten characters, digits around two dashes. *)
Definition is_digit (c : ascii) : bool :=
  bool_decide (c ∈ ["0"; "1"; "2"; "3"; "4"; "5"; "6"; "7"; "8"; "9"]%char).

Definition is_date_shape (s : string) : bool :=
  match s with
  | String y1 (String y2 (String y3 (String y4 (String dash1
      (String m1 (String m2 (String dash2 (String d1 (String d2 ""))))))))) =>
      forallb is_digit [y1; y2; y3; y4; m1; m2; d1; d2]
      && bool_decide (dash1 = "-"%char) && bool_decide (dash2 = "-"%char)
  | _ => false
  end.

(** *** The property order of a parsed object

    [JSON.parse] defines the members of an object text one after the other:
    a key that comes again keeps its place and takes the new value.
    [Object.entries] then lists the keys that are array indices (the
    canonical decimal strings of the integers below 2^32 - 1) in ascending
    order, and after them the other keys in the order of their definition. *)
Fixpoint decimal (acc : N) (s : string) : option N :=
  match s with
  | "" => Some acc
  | String c rest =>
      if is_digit c
      then decimal (10 * acc + (N.of_nat (nat_of_ascii c) - 48))%N rest
      else None
  end.

Definition array_index (k : string) : option N :=
  n ← decimal 0 k;
  if decide (k = pretty n ∧ (n < 4294967295)%N) then Some n else None.

Fixpoint define_property {A} (k : string) (v : A) (obj : list (string * A))
  : list (string * A) :=
  match obj with
  | [] => [(k, v)]
  | (k', v') :: rest =>
      if decide (k' = k) then (k, v) :: rest
      else (k', v') :: define_property k v rest
  end.

Definition parsed_object {A} (members : list (string * A))
  : list (string * A) :=
  foldl (λ obj kv, define_property kv.1 kv.2 obj) [] members.

Definition index_order {A} (a b : string * A) : Prop :=
  (default 0 (array_index a.1) ≤ default 0 (array_index b.1))%N.

#[global] Instance index_order_dec {A} : RelDecision (@index_order A).
Proof. intros a b. unfold index_order. apply _. Defined.

(** [Object.entries(obj)] for the object written with [members]. *)
Definition entries {A} (members : list (string * A)) : list (string * A) :=
  let own := parsed_object members in
  merge_sort index_order (filter (λ e, is_Some (array_index e.1)) own)
  ++ filter (λ e, ¬ is_Some (array_index e.1)) own.

End Js.

Import Js.


(* ===================================================================== *)
(** ** Wire types                                                         *)
(* ===================================================================== *)

(** The response shapes the pages declare ([type HealthData], [type
    WatchdogReport], [type OpsTask], [type BulkResult], [type Plan], [type
    ApplyResult]).  Timestamps travel as ISO strings; scores are fractional
    and kept as rationals. *)
Module Api.

Record Stuck := mkStuck { processing : Z; publishing : Z }.

Record Decision := mkDecision { decision_action : string; decision_at : option string }.

(** [counts] holds the members of the [counts] object as the body writes
    them; [Js.entries] gives them in the order [Object.entries] does. *)
Record HealthData := mkHealthData {
  counts : list (string * Z);
  stuck : Stuck;
  scheduler_enabled : bool;
  watchdog_enabled : bool;
  celery_enabled : option bool;
  last_decisions : list Decision
}.

Record WatchdogItem := mkWatchdogItem {
  task_id : Z;
  item_project_id : Z;
  old_status : string;
  age_minutes : Z;
  action : string;
  error_message : string
}.

Record WatchdogSettings := mkWatchdogSettings {
  stuck_processing_minutes : Z;
  stuck_publishing_minutes : Z;
  auto_requeue : bool
}.

Record WatchdogReport := mkWatchdogReport {
  stuck_count : Z;
  stuck_processing : Z;
  stuck_publishing : Z;
  items : list WatchdogItem;
  dry_run : bool;
  run_at : string;
  settings : WatchdogSettings
}.

Record OpsTask := mkOpsTask {
  id : Z;
  status : string;
  project_id : Z;
  platform : string;
  destination_social_account_id : Z;
  candidate_id : option Z;
  virality_score : option Q;
  priority : Z;
  created_at : option string;
  updated_at : option string;
  pause_requested_at : option string;
  paused_at : option string;
  cancel_requested_at : option string;
  canceled_at : option string;
  celery_task_id : option string
}.

Record BulkFailure := mkBulkFailure { failure_id : Z; failure_reason : string }.

Record BulkResult := mkBulkResult { ok : list Z; failed : list BulkFailure }.

Record Slot := mkSlot {
  at_ : string;
  slot_task_id : Z;
  slot_candidate_id : option Z;
  score : Q;
  effective_score : Q;
  slot_priority : Z;
  reason : string
}.

Record SkippedItem := mkSkippedItem { skipped_task_id : Z; skipped_reason : string }.

Record DestPlan := mkDestPlan {
  destination_id : Z;
  social_account_id : Z;
  dest_platform : string;
  already_published_today : Z;
  daily_limit : Z;
  total_slots : Z;
  slots : list Slot;
  skipped : list SkippedItem
}.

Record Plan := mkPlan {
  plan_project_id : Z;
  timezone : string;
  date : string;
  day : string;
  windows : list (list string);
  min_gap_minutes : Z;
  destinations : list DestPlan;
  error : option string
}.

Record ApplyOk := mkApplyOk {
  applied_task_id : Z;
  applied_priority : Z;
  enqueued : option bool;
  applied_celery_task_id : option string
}.

Record ApplyFailure := mkApplyFailure { unapplied_task_id : Z; unapplied_reason : string }.

Record PlanSummary := mkPlanSummary {
  summary_date : string;
  summary_timezone : string;
  summary_destinations : Z
}.

Record ApplyResult := mkApplyResult {
  apply_ok : list ApplyOk;
  apply_failed : list ApplyFailure;
  plan_summary : option PlanSummary
}.

End Api.

(* ===================================================================== *)
(** ** The task state machine (specification section 4.1)                 *)
(* ===================================================================== *)

(** The transition function lives in the backend, which is not part of the
    source tree at hand; everything in this module follows sections 3 and 4.1
    of the specification. *)
Module Machine.

(** Modelled from the spec: the status enumeration of section 3 (the backend
    enumeration itself is missing). *)
Inductive Status :=
| queued | processing | ready_for_review | done | ready_for_publish
| publishing | published | error | paused | canceled.

#[global] Instance Status_eq_dec : EqDecision Status.
Proof. solve_decision. Defined.

(** Modelled from the spec: the ten statuses of section 3, in its order. *)
Definition all_statuses : list Status :=
  [queued; processing; ready_for_review; done; ready_for_publish;
   publishing; published; error; paused; canceled].

(** Modelled from the spec: the name of a status as sections 3 and 6 spell
    it. *)
Definition status_name (s : Status) : string :=
  match s with
  | queued => "queued" | processing => "processing"
  | ready_for_review => "ready_for_review" | done => "done"
  | ready_for_publish => "ready_for_publish" | publishing => "publishing"
  | published => "published" | error => "error"
  | paused => "paused" | canceled => "canceled"
  end.

(** Modelled from the spec: "initial queued; terminal published, canceled"
    (section 4.1). *)
Definition terminal (s : Status) : bool :=
  match s with
  | published | canceled => true
  | _ => false
  end.

(** Modelled from the spec: the transient states of section 4.3, in which
    the Step Executor is at work on the task. *)
Definition executing (s : Status) : bool :=
  match s with
  | processing | publishing => true
  | _ => false
  end.

(** Modelled from the spec: the PublishTask record of section 3, in the
    groups the section lists (the backend model is missing).  Timestamps are
    minutes on the server clock.  [started_at] and [error_message] are the
    "start time" and the "message" that the edges of section 4.1 record;
    [paused_from] remembers the "previous-executing state" that resume
    returns to. *)
Record Identity := mkIdentity {
  id : Z;
  project_id : Z;
  platform : string;
  destination_account_id : Z
}.

Record Scheduling := mkScheduling {
  priority : Z;
  scheduled_at : option Z;
  candidate_id : option Z;
  virality_score : option Q
}.

Record Control := mkControl {
  pause_requested_at : option Z;
  paused_at : option Z;
  cancel_requested_at : option Z;
  canceled_at : option Z
}.

Record Execution := mkExecution {
  executor_handle : option string;
  updated_at : Z;
  started_at : option Z;
  error_message : option string;
  paused_from : option Status
}.

Record PublishResult := mkPublishResult {
  published_url : option string;
  published_external_id : option string;
  publish_error : option string
}.

Record PublishTask := mkTask {
  identity : Identity;
  status : Status;
  scheduling : Scheduling;
  control : Control;
  execution : Execution;
  result : PublishResult
}.

(** Modelled from the spec: a write to one group of fields of the record of
    section 3, the others unchanged. *)
Definition with_status (s : Status) (t : PublishTask) : PublishTask :=
  mkTask (identity t) s (scheduling t) (control t) (execution t) (result t).
Definition with_scheduling (x : Scheduling) (t : PublishTask) : PublishTask :=
  mkTask (identity t) (status t) x (control t) (execution t) (result t).
Definition with_control (x : Control) (t : PublishTask) : PublishTask :=
  mkTask (identity t) (status t) (scheduling t) x (execution t) (result t).
Definition with_execution (x : Execution) (t : PublishTask) : PublishTask :=
  mkTask (identity t) (status t) (scheduling t) (control t) x (result t).
Definition with_result (x : PublishResult) (t : PublishTask) : PublishTask :=
  mkTask (identity t) (status t) (scheduling t) (control t) (execution t) x.

(** Modelled from the spec: one line of the readiness checklist,
    [{check, ok, detail}]. *)
Record Check := mkCheck { check : string; check_ok : bool; detail : string }.

(** Modelled from the spec: who asks for the transition, one constructor per
    bullet of section 4.1. *)
Inductive Trigger :=
| Process          (* "process" / "enqueue" *)
| StepFinished     (* Step Executor completion signal *)
| Moderation       (* approval or rejection in the moderation UI *)
| MarkReady        (* "mark ready for publish" *)
| Dispatch         (* scheduler dispatch at scheduled_at *)
| RetryPublish     (* manual "retry publish" *)
| PublishFinished  (* the publish attempt ends *)
| Pause            (* the safe checkpoint after a pause request *)
| Resume
| Cancel
| Override.        (* operator forces done or error *)

(** Modelled from the spec: all triggers of section 4.1. *)
Definition all_triggers : list Trigger :=
  [Process; StepFinished; Moderation; MarkReady; Dispatch; RetryPublish;
   PublishFinished; Pause; Resume; Cancel; Override].

(** Modelled from the spec: the edges of section 4.1, bullet by bullet (the
    backend transition table is missing).  A forced retry re-attempts a
    published task, which is the one way out of [published]. *)
Definition edge (v : Trigger) (from to : Status) : bool :=
  match v, from, to with
  | Process, queued, processing => true
  | StepFinished, processing, (ready_for_review | done | error) => true
  | Moderation, ready_for_review, (done | error) => true
  | MarkReady, done, ready_for_publish => true
  | Dispatch, ready_for_publish, publishing => true
  | RetryPublish, (ready_for_publish | published), publishing => true
  | PublishFinished, publishing, (published | error) => true
  | Pause, s, paused => negb (terminal s) && bool_decide (s ≠ paused)
  | Resume, paused, s => negb (terminal s) && bool_decide (s ≠ paused)
  | Cancel, s, canceled => negb (terminal s)
  | Override, s, (done | error) => negb (terminal s)
  | _, _, _ => false
  end.

(** Modelled from the spec: a pair of statuses is an edge of section 4.1
    when some bullet lists it. *)
Definition listed (from to : Status) : bool :=
  existsb (λ v, edge v from to) all_triggers.

(** Modelled from the spec: a transition request, that is the trigger, the
    status asked for and what the trigger brings along (error message,
    checklist, force flag, publish result). *)
Record Request := mkRequest {
  via : Trigger;
  target : Status;
  now : Z;
  message : option string;
  checks : list Check;
  force : bool;
  result_url : option string;
  result_external_id : option string
}.

(** Modelled from the spec: the ways a transition fails (sections 4.1 and
    7): [PreconditionFailed] "identifying the offending status", the
    readiness checklist "returning the full checklist", the "conflict
    signal" of a retry without force, and an id that no task has. *)
Inductive TransitionError :=
| PreconditionFailed (current : Status)
| ChecklistFailed (report : list Check)
| Conflict (current : Status)
| NotFound.

(** Modelled from the spec: the result of a transition, the new row or the
    structured error. *)
Inductive Outcome (A : Type) :=
| Done (a : A)
| Failed (e : TransitionError).
Arguments Done {A} _.
Arguments Failed {A} _.

(** Modelled from the spec: the field writes of each edge of section 4.1,
    apart from [status] and [updated_at]. *)
Definition side_effects (r : Request) (t : PublishTask) : PublishTask :=
  let c := control t in
  let e := execution t in
  let p := result t in
  match via r with
  | Process =>
      (* "clear prior error, record start time" *)
      with_execution
        (mkExecution (executor_handle e) (updated_at e) (Some (now r)) None
           (paused_from e)) t
  | StepFinished | Moderation | Override =>
      (* "error carries a message" *)
      with_execution
        (mkExecution (executor_handle e) (updated_at e) (started_at e)
           (if decide (target r = error) then message r else None)
           (paused_from e)) t
  | PublishFinished =>
      (* the publish result fields; a forced retry overwrites them *)
      with_result
        (if decide (target r = published)
         then mkPublishResult (result_url r) (result_external_id r) None
         else mkPublishResult (published_url p) (published_external_id p)
                (message r)) t
  | Pause =>
      (* "recorded as paused_at" *)
      with_execution
        (mkExecution (executor_handle e) (updated_at e) (started_at e)
           (error_message e) (Some (status t)))
        (with_control
           (mkControl (pause_requested_at c) (Some (now r))
              (cancel_requested_at c) (canceled_at c)) t)
  | Resume =>
      (* "clears both pause fields" *)
      with_execution
        (mkExecution (executor_handle e) (updated_at e) (started_at e)
           (error_message e) None)
        (with_control
           (mkControl None None (cancel_requested_at c) (canceled_at c)) t)
  | Cancel =>
      (* "sets cancel_requested_at immediately, canceled_at once the Step
         Executor acknowledges stop (or immediately if the task was not
         actively executing)" *)
      with_control
        (mkControl (pause_requested_at c) (paused_at c) (Some (now r))
           (if executing (status t) then None else Some (now r))) t
  | MarkReady | Dispatch | RetryPublish => t
  end.

(** Modelled from the spec: [updated_at], "used by the watchdog to measure
    staleness", is stamped by every transition. *)
Definition touch (time : Z) (t : PublishTask) : PublishTask :=
  let e := execution t in
  with_execution
    (mkExecution (executor_handle e) time (started_at e) (error_message e)
       (paused_from e)) t.

(** Modelled from the spec: taking an edge writes its side effects, the
    time stamp and the new status. *)
Definition commit (r : Request) (t : PublishTask) : PublishTask :=
  with_status (target r) (touch (now r) (side_effects r t)).

(** Modelled from the spec: the guard of an edge that has one, namely the
    readiness checklist, the force flag of a retry on a published task, the
    pause request before a pause, the remembered state of a resume. *)
Definition guard (r : Request) (t : PublishTask) : option TransitionError :=
  match via r with
  | MarkReady =>
      if forallb check_ok (checks r) then None
      else Some (ChecklistFailed (checks r))
  | RetryPublish =>
      if decide (status t = published) then
        if force r then None else Some (Conflict (status t))
      else None
  | Pause =>
      match pause_requested_at (control t) with
      | Some _ => None
      | None => Some (PreconditionFailed (status t))
      end
  | Resume =>
      if decide (paused_from (execution t) = Some (target r)) then None
      else Some (PreconditionFailed (status t))
  | _ => None
  end.

(** Modelled from the spec: the transition function of section 4.1, "the
    single authority for legal status transitions and their side effects"
    (the backend function is missing).  An edge that is not listed fails with
    [PreconditionFailed] and the offending status; a listed edge whose guard
    fails is refused with the guard's error; otherwise the edge is taken. *)
Definition transition (t : PublishTask) (r : Request) : Outcome PublishTask :=
  if edge (via r) (status t) (target r) then
    match guard r t with
    | Some e => Failed e
    | None => Done (commit r t)
    end
  else Failed (PreconditionFailed (status t)).

(** The Task Store: task rows by numeric id. *)
Abbreviation Store := (gmap Z PublishTask).

(** Modelled from the spec: the transition operation on the store, which
    reads the row, decides and writes it back. *)
Definition request_transition (σ : Store) (i : Z) (r : Request)
  : Outcome PublishTask * Store :=
  match σ !! i with
  | None => (Failed NotFound, σ)
  | Some t =>
      match transition t r with
      | Done t' => (Done t', <[i := t']> σ)
      | Failed e => (Failed e, σ)
      end
  end.

(** Modelled from the spec: a plain request for status [to] through trigger
    [v] at time [time]. *)
Definition ask (v : Trigger) (to : Status) (time : Z) : Request :=
  mkRequest v to time None [] false None None.

End Machine.

(* ===================================================================== *)
(** ** The bulk dispatcher (specification section 4.4)                    *)
(* ===================================================================== *)

Module Dispatcher.

Import Machine.

(** Modelled from the spec: "pause / resume / cancel / set-priority /
    enqueue" (section 4.4). *)
Inductive Operation :=
| BulkPause
| BulkResume
| BulkCancel
| BulkSetPriority (p : Z)
| BulkEnqueue.

(** Modelled from the spec: "Any non-terminal state -> paused: only after
    pause_requested_at is set".  The request itself is a field write on a
    task that can still be paused. *)
Definition request_pause (time : Z) (t : PublishTask) : Outcome PublishTask :=
  if terminal (status t) || bool_decide (status t = paused)
  then Failed (PreconditionFailed (status t))
  else
    let c := control t in
    Done (with_control
            (mkControl (Some (default time (pause_requested_at c)))
               (paused_at c) (cancel_requested_at c) (canceled_at c)) t).

(** Modelled from the spec: pause.  The request is recorded; a task the
    executor is working on is paused by the executor at its next checkpoint
    ("never mid-step-execution"), any other task is at a safe checkpoint
    already. *)
Definition pause_item (time : Z) (t : PublishTask) : Outcome PublishTask :=
  match request_pause time t with
  | Failed e => Failed e
  | Done t1 =>
      if executing (status t1) then Done t1
      else transition t1 (ask Pause paused time)
  end.

(** Modelled from the spec: resume, "paused -> previous-executing state". *)
Definition resume_item (time : Z) (t : PublishTask) : Outcome PublishTask :=
  transition t (ask Resume (default queued (paused_from (execution t))) time).

(** Modelled from the spec: cancel, "any non-terminal state -> canceled". *)
Definition cancel_item (time : Z) (t : PublishTask) : Outcome PublishTask :=
  transition t (ask Cancel canceled time).

(** Modelled from the spec: "priority is not a status field, so it is a
    direct field update permitted on non-terminal tasks only". *)
Definition set_priority_item (p : Z) (t : PublishTask) : Outcome PublishTask :=
  if terminal (status t) then Failed (PreconditionFailed (status t))
  else
    let s := scheduling t in
    Done (with_scheduling
            (mkScheduling p (scheduled_at s) (candidate_id s)
               (virality_score s)) t).

(** Modelled from the spec: enqueue, the trigger of "queued -> processing". *)
Definition enqueue_item (time : Z) (t : PublishTask) : Outcome PublishTask :=
  transition t (ask Process processing time).

(** Modelled from the spec: what an operation does to one task. *)
Definition item (op : Operation) (time : Z) (t : PublishTask)
  : Outcome PublishTask :=
  match op with
  | BulkPause => pause_item time t
  | BulkResume => resume_item time t
  | BulkCancel => cancel_item time t
  | BulkSetPriority p => set_priority_item p t
  | BulkEnqueue => enqueue_item time t
  end.

(** Modelled from the spec: the reason reported for a failed item ("illegal
    transition, not found"); the wording is the model's. *)
Definition reason_of (e : TransitionError) : string :=
  match e with
  | PreconditionFailed s => "precondition failed: task is " +:+ status_name s
  | ChecklistFailed _ => "readiness checklist failed"
  | Conflict s => "conflict: task is " +:+ status_name s
  | NotFound => "not found"
  end.

(** Modelled from the spec: one id of the batch, [None] on success and the
    reason otherwise. *)
Definition perform (op : Operation) (time : Z) (σ : Store) (i : Z)
  : option string * Store :=
  match σ !! i with
  | None => (Some (reason_of NotFound), σ)
  | Some t =>
      match item op time t with
      | Done t' => (None, <[i := t']> σ)
      | Failed e => (Some (reason_of e), σ)
      end
  end.

(** Modelled from the spec: the id goes to [ok], or to [failed] with its
    reason: "{ok: [...], failed: [{id, reason}]}". *)
Definition record_item (i : Z) (o : option string) (res : Api.BulkResult)
  : Api.BulkResult :=
  match o with
  | None => Api.mkBulkResult (i :: Api.ok res) (Api.failed res)
  | Some why =>
      Api.mkBulkResult (Api.ok res) (Api.mkBulkFailure i why :: Api.failed res)
  end.

(** Modelled from the spec: the bulk dispatcher of section 4.4 (the backend
    routes are missing).  "Each task is processed independently through
    section 4.1's transition function; a failure on one id never aborts
    processing of the remaining ids." *)
Fixpoint bulk (op : Operation) (time : Z) (σ : Store) (ids : list Z)
  : Api.BulkResult * Store :=
  match ids with
  | [] => (Api.mkBulkResult [] [], σ)
  | i :: rest =>
      let (o, σ1) := perform op time σ i in
      let (res, σ2) := bulk op time σ1 rest in
      (record_item i o res, σ2)
  end.

End Dispatcher.

(* ===================================================================== *)
(** ** The watchdog (specification section 4.3)                           *)
(* ===================================================================== *)

Module Watchdog.

Import Machine.

(** Modelled from the spec: "age_minutes = now - updated_at". *)
Definition age (time : Z) (t : PublishTask) : Z :=
  time - updated_at (execution t).

(** Modelled from the spec: the threshold of each transient status; the
    watchdog looks at no other status. *)
Definition threshold (cfg : Api.WatchdogSettings) (s : Status) : option Z :=
  match s with
  | processing => Some (Api.stuck_processing_minutes cfg)
  | publishing => Some (Api.stuck_publishing_minutes cfg)
  | _ => None
  end.

(** Modelled from the spec: "if age_minutes > threshold_processing (or
    threshold_publishing), classify as stuck". *)
Definition stuck (cfg : Api.WatchdogSettings) (time : Z) (t : PublishTask)
  : bool :=
  match threshold cfg (status t) with
  | Some limit => bool_decide (limit < age time t)
  | None => false
  end.

(** Modelled from the spec: the two recovery actions of section 4.3. *)
Inductive Action := Requeue | MarkError.

(** Modelled from the spec: "requeue if auto_requeue is enabled, or
    mark_error otherwise". *)
Definition policy (cfg : Api.WatchdogSettings) : Action :=
  if Api.auto_requeue cfg then Requeue else MarkError.

(** Modelled from the spec: the action as the report spells it,
    "would_<action>" in a dry run and "requeued" for a requeue that took
    place; "marked_error" follows that pattern. *)
Definition action_name (dry : bool) (a : Action) : string :=
  match dry, a with
  | true, Requeue => "would_requeue"
  | true, MarkError => "would_mark_error"
  | false, Requeue => "requeued"
  | false, MarkError => "marked_error"
  end.

(** Modelled from the spec: "watchdog: stuck in <status> for <age>m". *)
Definition synthetic_message (time : Z) (t : PublishTask) : string :=
  "watchdog: stuck in " +:+ status_name (status t) +:+ " for "
  +:+ show_int (age time t) +:+ "m".

(** Modelled from the spec: the WatchdogDecision of a stuck task,
    "{task_id, old_status, age_minutes, action, error_message}", in the shape
    the console declares for a report item. *)
Definition decision (dry : bool) (cfg : Api.WatchdogSettings) (time : Z)
    (t : PublishTask) : Api.WatchdogItem :=
  Api.mkWatchdogItem (id (identity t)) (project_id (identity t))
    (status_name (status t)) (age time t) (action_name dry (policy cfg))
    (synthetic_message time t).

(** Modelled from the spec: "requeue (transition back to queued, clearing
    executor linkage)".  Section 4.1 lists no edge back to [queued]; this
    recovery step is the watchdog's own. *)
Definition requeue (time : Z) (t : PublishTask) : PublishTask :=
  let e := execution t in
  with_status queued
    (with_execution
       (mkExecution None time (started_at e) (error_message e)
          (paused_from e)) t).

(** Modelled from the spec: "mark_error (transition to error with a
    synthetic message)", through the transition function, along the
    executor's edge out of [processing] or the publish attempt's edge out of
    [publishing]. *)
Definition mark_error (time : Z) (t : PublishTask) : PublishTask :=
  let v := if decide (status t = publishing) then PublishFinished
           else StepFinished in
  match transition t
          (mkRequest v error time (Some (synthetic_message time t)) [] false
             None None) with
  | Done t' => t'
  | Failed _ => t
  end.

(** Modelled from the spec: what a real run does to a task, which is
    nothing unless the task is stuck. *)
Definition recover (cfg : Api.WatchdogSettings) (time : Z) (t : PublishTask)
  : PublishTask :=
  if stuck cfg time t then
    match policy cfg with
    | Requeue => requeue time t
    | MarkError => mark_error time t
    end
  else t.

(** Modelled from the spec: the scan, that is the stuck tasks of the store. *)
Definition stuck_tasks (cfg : Api.WatchdogSettings) (time : Z) (σ : Store)
  : list PublishTask :=
  filter (λ t, stuck cfg time t = true) (snd <$> map_to_list σ).

(** Modelled from the spec: how many of the stuck tasks are in a status. *)
Definition count_in (s : Status) (ts : list PublishTask) : Z :=
  Z.of_nat (length (filter (λ t, status t = s) ts)).

(** Modelled from the spec: one watchdog pass of section 4.3, answering
    [POST /ops/watchdog?dry_run=bool] with a report (the backend job is
    missing).  [stamp] is the server's rendering of the time of the run. *)
Definition run (dry : bool) (cfg : Api.WatchdogSettings) (time : Z)
    (stamp : string) (σ : Store) : Api.WatchdogReport * Store :=
  let found := stuck_tasks cfg time σ in
  (Api.mkWatchdogReport (Z.of_nat (length found))
     (count_in processing found) (count_in publishing found)
     (decision dry cfg time <$> found) dry stamp cfg,
   if dry then σ else recover cfg time <$> σ).

End Watchdog.

(* ===================================================================== *)
(** ** The operations console (src/unnamed/part_009, first page)          *)
(* ===================================================================== *)

(** The console with the task table and the bulk actions.  The file holds a
    second, earlier console after it, without the table; its [runWatchdog]
    is the same. *)
Module OpsPage.

Import Api.

(** [const STATUS_COLORS: Record<string, string>], in source order. *)
Definition STATUS_COLORS : list (string * string) :=
  [("queued", "#3b82f6"); ("processing", "#f59e0b");
   ("ready_for_review", "#a855f7");
   ("done", "#22c55e"); ("publishing", "#8b5cf6"); ("published", "#10b981");
   ("error", "#ef4444"); ("canceled", "#6b7280"); ("paused", "#eab308")].

(** [const STATUSES] *)
Definition STATUSES : list string :=
  [""; "queued"; "processing"; "ready_for_review"; "done"; "publishing";
   "published"; "error"; "canceled"; "paused"].

(** [STATUS_COLORS[st] || "#6b7280"] *)
Definition status_color (st : string) : string :=
  match list_find (λ kv, kv.1 = st) STATUS_COLORS with
  | Some (_, (_, colour)) => colour
  | None => "#6b7280"
  end.

(** The label of a filter option: [s || "all"]. *)
Definition filter_label (s : string) : string :=
  if decide (s = "") then "all" else s.

(** The statuses the console names: the filter entries other than the empty
    "all" entry, and the keys of the colour map. *)
Definition filter_statuses : list string :=
  filter (λ s, s ≠ "") STATUSES.
Definition coloured_statuses : list string := fst <$> STATUS_COLORS.

(** The bodies the console decodes: [HealthData], [{tasks?: OpsTask[]}],
    [WatchdogReport], [BulkResult].  Nothing checks at run time that an
    answer has the shape its request expects, so a handler can meet any of
    them. *)
Inductive Body :=
| BHealth (h : HealthData)
| BTasks (ts : option (list OpsTask))
| BReport (r : WatchdogReport)
| BBulk (b : BulkResult).

(** The [useState] cells of [OpsPage].  [health] and [report] hold the
    decoded body that was stored, whatever its shape. *)
Record State := mkState {
  health : option Body;
  report : option Body;
  loading : bool;
  wdLoading : bool;
  tasks : list OpsTask;
  statusFilter : string;
  selected : NumSet;
  bulkMsg : option string;
  bulkPriority : Z;
  tasksLoading : bool
}.

Definition initial : State :=
  mkState None None false false [] "" [] None 0 false.

Definition setHealth (v : option Body) (s : State) : State :=
  mkState v (report s) (loading s) (wdLoading s) (tasks s) (statusFilter s)
    (selected s) (bulkMsg s) (bulkPriority s) (tasksLoading s).
Definition setReport (v : option Body) (s : State) : State :=
  mkState (health s) v (loading s) (wdLoading s) (tasks s) (statusFilter s)
    (selected s) (bulkMsg s) (bulkPriority s) (tasksLoading s).
Definition setLoading (v : bool) (s : State) : State :=
  mkState (health s) (report s) v (wdLoading s) (tasks s) (statusFilter s)
    (selected s) (bulkMsg s) (bulkPriority s) (tasksLoading s).
Definition setWdLoading (v : bool) (s : State) : State :=
  mkState (health s) (report s) (loading s) v (tasks s) (statusFilter s)
    (selected s) (bulkMsg s) (bulkPriority s) (tasksLoading s).
Definition setTasks (v : list OpsTask) (s : State) : State :=
  mkState (health s) (report s) (loading s) (wdLoading s) v (statusFilter s)
    (selected s) (bulkMsg s) (bulkPriority s) (tasksLoading s).
Definition setStatusFilter (v : string) (s : State) : State :=
  mkState (health s) (report s) (loading s) (wdLoading s) (tasks s) v
    (selected s) (bulkMsg s) (bulkPriority s) (tasksLoading s).
Definition setSelected (f : NumSet → NumSet) (s : State) : State :=
  mkState (health s) (report s) (loading s) (wdLoading s) (tasks s)
    (statusFilter s) (f (selected s)) (bulkMsg s) (bulkPriority s)
    (tasksLoading s).
Definition setBulkMsg (v : option string) (s : State) : State :=
  mkState (health s) (report s) (loading s) (wdLoading s) (tasks s)
    (statusFilter s) (selected s) v (bulkPriority s) (tasksLoading s).
Definition setBulkPriority (v : Z) (s : State) : State :=
  mkState (health s) (report s) (loading s) (wdLoading s) (tasks s)
    (statusFilter s) (selected s) (bulkMsg s) v (tasksLoading s).
Definition setTasksLoading (v : bool) (s : State) : State :=
  mkState (health s) (report s) (loading s) (wdLoading s) (tasks s)
    (statusFilter s) (selected s) (bulkMsg s) (bulkPriority s) v.

(** [prev => { const s = new Set(prev); s.has(id) ? s.delete(id) : s.add(id);
    return s; }] *)
Definition toggle (i : Z) (prev : NumSet) : NumSet :=
  let s := prev in
  if set_has s i then set_delete s i else set_add s i.

(** [prev => prev.size === tasks.length ? new Set() : new Set(tasks.map(t => t.id))] *)
Definition toggle_all (ts : list OpsTask) (prev : NumSet) : NumSet :=
  if decide (set_size prev = length ts) then [] else set_of (id <$> ts).

(** [const selectedIds = Array.from(selected)] *)
Definition selectedIds (s : State) : list Z := selected s.

Definition ids_json (ids : list Z) : Json := JArr (JNum <$> ids).

(** The option values of both priority selects:
    [Array.from({ length: 21 }, (_, i) => i - 10).reverse()]. *)
Definition priority_options : list Z :=
  reverse ((λ i : nat, Z.of_nat i - 10) <$> seq 0 21).

(** The message of a settled bulk call:
    [`✓ ${j.ok.length} ok` + (j.failed.length ? `, ${j.failed.length} failed` : "")] *)
Definition bulk_message (j : BulkResult) : string :=
  "✓ " +:+ pretty (length (ok j)) +:+ " ok"
  +:+ (if decide (length (failed j) = 0%nat) then ""
       else ", " +:+ pretty (length (failed j)) +:+ " failed").

Inductive BulkButton := Enqueue | PauseAll | ResumeAll | CancelAll | SetPriority.

Definition endpoint (b : BulkButton) : string :=
  match b with
  | Enqueue => "bulk-enqueue"
  | PauseAll => "bulk-pause"
  | ResumeAll => "bulk-resume"
  | CancelAll => "bulk-cancel"
  | SetPriority => "bulk-set-priority"
  end.

(** The object literal each bulk button passes to [bulkAction]. *)
Definition bulk_body (b : BulkButton) (s : State) : Json :=
  match b with
  | SetPriority =>
      JObj [("ids", ids_json (selectedIds s));
            ("priority", JNum (bulkPriority s))]
  | _ => JObj [("ids", ids_json (selectedIds s))]
  end.

Section Handlers.

(** [process.env.NEXT_PUBLIC_API_URL] and the network. *)
Variable NEXT_PUBLIC_API_URL : option string.
Variable net : Net Body.

Definition API : string := or_default NEXT_PUBLIC_API_URL "http://localhost:8000".

Definition loadHealth : Act State unit :=
  update (setLoading true);;
  r ← fetch net (get (API +:+ "/api/ops/health"));
  match r with
  | Some resp =>
      if resp_ok resp then
        match resp_json resp with
        | Some body => update (setHealth (Some body))
        | None => mret tt
        end
      else mret tt
  | None => mret tt
  end;;
  update (setLoading false).

Definition tasks_query (statusFilter : string) : string :=
  if decide (statusFilter = "") then "?limit=200"
  else "?status=" +:+ statusFilter +:+ "&limit=200".

(** [j.tasks || []]: of the bodies, only [{tasks}] has the property. *)
Definition tasks_of (j : Body) : list OpsTask :=
  match j with
  | BTasks ts => default [] ts
  | _ => []
  end.

Definition loadTasks : Act State unit :=
  update (setTasksLoading true);;
  s ← read;
  r ← fetch net (get (API +:+ "/api/ops/tasks" +:+ tasks_query (statusFilter s)));
  match r with
  | Some resp =>
      if resp_ok resp then
        match resp_json resp with
        | Some j => update (setTasks (tasks_of j))
        | None => mret tt
        end
      else mret tt
  | None => mret tt
  end;;
  update (setTasksLoading false).

Definition watchdog_url (dryRun : bool) : string :=
  API +:+ "/api/ops/watchdog?dry_run=" +:+ show_bool dryRun.

Definition runWatchdog (dryRun : bool) : Act State unit :=
  update (setWdLoading true);;
  r ← fetch net (post (watchdog_url dryRun));
  match r with
  | Some resp =>
      if resp_ok resp then
        match resp_json resp with
        | Some body => update (setReport (Some body));; loadHealth
        | None => mret tt
        end
      else mret tt
  | None => mret tt
  end;;
  update (setWdLoading false).

Definition toggleSelect (i : Z) : Act State unit :=
  update (setSelected (toggle i)).

Definition toggleAll : Act State unit :=
  s ← read;
  update (setSelected (toggle_all (tasks s))).

Definition bulkAction (endpoint : string) (body : Json) : Act State unit :=
  update (setBulkMsg None);;
  r ← fetch net (send_json POST (API +:+ "/api/ops/tasks/" +:+ endpoint) body);
  match r with
  | Some resp =>
      if resp_ok resp then
        match resp_json resp with
        | Some (BBulk j) =>
            update (setBulkMsg (Some (bulk_message j)));;
            update (setSelected (λ _, []));;
            loadTasks;;
            loadHealth
        | _ =>
            (* [j.ok.length] throws on a body without [ok], as [r.json()]
               does on a body that is not JSON *)
            update (setBulkMsg (Some "✕ Network error"))
        end
      else update (setBulkMsg (Some ("✕ Error: " +:+ resp_text resp)))
  | None => update (setBulkMsg (Some "✕ Network error"))
  end.

(** What the operator can do on the page. *)
Inductive Event :=
| Mount
| ClickRefresh
| ClickCount (st : string)
| ChooseStatus (option_index : nat)
| ClickWatchdog (dryRun : bool)
| ClickRow (i : Z)
| ClickSelectAll
| ClickBulk (b : BulkButton)
| ChoosePriority (option_index : nat).

(** [useEffect(() => { loadHealth(); loadTasks(); }, [loadHealth, loadTasks])]:
    the effect runs again when [statusFilter] has changed. *)
Definition effect_after (before : string) : Act State unit :=
  s ← read;
  if decide (statusFilter s = before) then mret tt
  else loadHealth;; loadTasks.

Definition filter_to (st : string) : Act State unit :=
  s ← read;
  update (setStatusFilter st);;
  update (setSelected (λ _, []));;
  effect_after (statusFilter s).

Definition handle (ev : Event) : Act State unit :=
  match ev with
  | Mount => loadHealth;; loadTasks
  | ClickRefresh => loadHealth;; loadTasks
  | ClickCount st => filter_to st
  | ChooseStatus k =>
      match STATUSES !! k with
      | Some st => filter_to st
      | None => mret tt
      end
  | ClickWatchdog dryRun => runWatchdog dryRun
  | ClickRow i => toggleSelect i
  | ClickSelectAll => toggleAll
  | ClickBulk b => s ← read; bulkAction (endpoint b) (bulk_body b s)
  | ChoosePriority k =>
      match priority_options !! k with
      | Some v => update (setBulkPriority v)
      | None => mret tt
      end
  end.

(** A session in which every handler has settled when the next event
    comes. *)
Fixpoint run (evs : list Event) : Act State unit :=
  match evs with
  | [] => mret tt
  | ev :: rest => handle ev;; run rest
  end.

End Handlers.

End OpsPage.

(* ===================================================================== *)
(** ** The publish-plan page (app/projects/[id]/plan/page.tsx)           *)
(* ===================================================================== *)

Module PlanPage.

Import Api.

Inductive ToastType := success | failure.

Record Toast := mkToast { toast_message : string; toast_type : ToastType }.

Inductive DateChoice := today_choice | tomorrow_choice.

(** The bodies the page decodes: [Plan] and [ApplyResult].  Nothing checks
    at run time which of the two an answer is. *)
Inductive Body :=
| BPlan (p : Plan)
| BApply (r : ApplyResult).

(** The [useState] cells of [PlanPage].  [plan] and [applyResult] hold the
    decoded body that was stored, whatever its shape. *)
Record State := mkState {
  plan : option Body;
  loading : bool;
  applying : bool;
  toast : option Toast;
  applyResult : option Body;
  dateChoice : DateChoice;
  basePriority : Z
}.

Definition initial : State :=
  mkState None false false None None today_choice 10.

Definition setPlan (v : option Body) (s : State) : State :=
  mkState v (loading s) (applying s) (toast s) (applyResult s) (dateChoice s)
    (basePriority s).
Definition setLoading (v : bool) (s : State) : State :=
  mkState (plan s) v (applying s) (toast s) (applyResult s) (dateChoice s)
    (basePriority s).
Definition setApplying (v : bool) (s : State) : State :=
  mkState (plan s) (loading s) v (toast s) (applyResult s) (dateChoice s)
    (basePriority s).
Definition setToast (v : option Toast) (s : State) : State :=
  mkState (plan s) (loading s) (applying s) v (applyResult s) (dateChoice s)
    (basePriority s).
Definition setApplyResult (v : option Body) (s : State) : State :=
  mkState (plan s) (loading s) (applying s) (toast s) v (dateChoice s)
    (basePriority s).
Definition setDateChoice (v : DateChoice) (s : State) : State :=
  mkState (plan s) (loading s) (applying s) (toast s) (applyResult s) v
    (basePriority s).
Definition setBasePriority (v : Z) (s : State) : State :=
  mkState (plan s) (loading s) (applying s) (toast s) (applyResult s)
    (dateChoice s) v.

(** The two clock readings of a render: [new Date()] for [today] and
    [Date.now()] for [tomorrow]. *)
Record Clock := mkClock { read_for_today : Z; read_for_tomorrow : Z }.

(** [new Date().toISOString().slice(0, 10)] *)
Definition today (c : Clock) : string := utc_date (read_for_today c).
(** [new Date(Date.now() + 86400000).toISOString().slice(0, 10)] *)
Definition tomorrow (c : Clock) : string :=
  utc_date (read_for_tomorrow c + 86400000).

(** [dateChoice === "today" ? today : tomorrow] *)
Definition selectedDate (c : Clock) (s : State) : string :=
  match dateChoice s with
  | today_choice => today c
  | tomorrow_choice => tomorrow c
  end.

(** The options of the base-priority select. *)
Definition priority_options : list Z :=
  reverse ((λ i : nat, Z.of_nat i - 10) <$> seq 0 21).

(** The priority cell of slot row [i]:
    [basePriority - i > 0 ? `+${basePriority - i}` : basePriority - i],
    in green when positive and in red otherwise. *)
Definition shown_priority (basePriority : Z) (i : nat) : Z :=
  basePriority - Z.of_nat i.

Record Row := mkRow {
  row_number : Z;
  row_at : string;
  row_task_id : Z;
  row_candidate : string;
  row_score : Q;
  row_effective_score : Q;
  row_priority_colour : string;
  row_priority_text : string
}.

Definition slot_row (basePriority : Z) (i : nat) (slot : Slot) : Row :=
  mkRow (Z.of_nat i + 1) (at_ slot) (slot_task_id slot)
    (match slot_candidate_id slot with
     | Some c => if decide (c = 0) then "—" else "#" +:+ show_int c
     | None => "—"
     end)
    (score slot) (effective_score slot)
    (if decide (0 < shown_priority basePriority i)%Z then "#059669"
     else "#dc2626")
    (show_signed (shown_priority basePriority i)).

(** [dest.slots.map((slot, i) => <tr>...</tr>)] *)
Definition slot_rows (basePriority : Z) (dest : DestPlan) : list Row :=
  imap (slot_row basePriority) (slots dest).

(** The slot tables of a rendered plan, one per destination. *)
Definition slot_tables (s : State) : list (list Row) :=
  match plan s with
  | Some (BPlan p) => slot_rows (basePriority s) <$> destinations p
  | _ => []
  end.

(** The render reads [plan.destinations] of a stored plan and
    [applyResult.ok] of a stored result; it throws, and draws nothing, when
    the stored body is of the other shape. *)
Definition renders (s : State) : bool :=
  match plan s with
  | Some (BApply _) => false
  | _ => true
  end
  && match applyResult s with
     | Some (BPlan _) => false
     | _ => true
     end.

(** [data.error]: of the bodies, only a plan can have the property. *)
Definition error_of (data : Body) : option string :=
  match data with
  | BPlan p => error p
  | BApply _ => None
  end.

Section Handlers.

(** [process.env.NEXT_PUBLIC_API_URL], the route parameter and the network. *)
Variable NEXT_PUBLIC_API_URL : option string.
Variable projectId : RouteId.
Variable net : Net Body.

Definition API : string := or_default NEXT_PUBLIC_API_URL "".

(** [showToast]; the timer that clears the toast is the [ToastTimeout]
    event below. *)
Definition showToast (message : string) (type : ToastType) : Act State unit :=
  update (setToast (Some (mkToast message type))).

Definition plan_url (selectedDate : string) : string :=
  API +:+ "/api/projects/" +:+ show_id projectId +:+ "/publish-plan?date="
  +:+ selectedDate.

Definition loadPlan (c : Clock) : Act State unit :=
  if negb (truthy projectId) then mret tt
  else
    update (setLoading true);;
    update (setPlan None);;
    update (setApplyResult None);;
    s ← read;
    r ← fetch net (get (plan_url (selectedDate c s)));
    match r with
    | Some resp =>
        if resp_ok resp then
          match resp_json resp with
          | Some data =>
              match error_of data with
              | Some msg =>
                  if decide (msg = "") then update (setPlan (Some data))
                  else showToast msg failure
              | None => update (setPlan (Some data))
              end
          | None => showToast "Сетевая ошибка" failure
          end
        else showToast "Ошибка загрузки плана" failure
    | None => showToast "Сетевая ошибка" failure
    end;;
    update (setLoading false).

Definition apply_url : string :=
  API +:+ "/api/projects/" +:+ show_id projectId +:+ "/publish-plan/apply".

(** [{ date: selectedDate, base_priority: basePriority, enqueue }] *)
Definition apply_body (c : Clock) (s : State) (enqueue : bool) : Json :=
  JObj [("date", JStr (selectedDate c s));
        ("base_priority", JNum (basePriority s));
        ("enqueue", JBool enqueue)].

Definition applied_message (data : ApplyResult) : string :=
  "Применено: " +:+ pretty (length (apply_ok data)) +:+ " задач, "
  +:+ pretty (length (apply_failed data)) +:+ " пропущено".

Definition applyPlan (c : Clock) (enqueue : bool) : Act State unit :=
  if negb (truthy projectId) then mret tt
  else
    update (setApplying true);;
    s ← read;
    r ← fetch net (send_json POST apply_url (apply_body c s enqueue));
    match r with
    | Some resp =>
        if resp_ok resp then
          match resp_json resp with
          | Some data =>
              update (setApplyResult (Some data));;
              match data with
              | BApply result => showToast (applied_message result) success
              | BPlan _ =>
                  (* [data.ok.length] throws *)
                  showToast "Сетевая ошибка" failure
              end
          | None => showToast "Сетевая ошибка" failure
          end
        else showToast "Ошибка применения" failure
    | None => showToast "Сетевая ошибка" failure
    end;;
    update (setApplying false).

(** What the operator can do on the page. *)
Inductive Event :=
| ClickToday
| ClickTomorrow
| ChoosePriority (option_index : nat)
| ClickBuild
| ClickApply (enqueue : bool)
| ToastTimeout.

(** Whether the control behind an event is on the page and enabled:
    [if (!projectId) return <div>...</div>] renders no control at all, nor
    does a render that throws; the two apply buttons exist under
    [{plan && ...}] and are disabled while [applying], the build button is
    disabled while [loading]. *)
Definition offered (ev : Event) (s : State) : bool :=
  truthy projectId && renders s &&
  match ev with
  | ClickToday | ClickTomorrow => true
  | ChoosePriority k => bool_decide (is_Some (priority_options !! k))
  | ClickBuild => negb (loading s)
  | ClickApply _ => bool_decide (is_Some (plan s)) && negb (applying s)
  | ToastTimeout => true
  end.

(** The handlers, each run with the clock readings of the render whose
    closures it uses. *)
Definition handle (c : Clock) (ev : Event) : Act State unit :=
  match ev with
  | ClickToday => update (setDateChoice today_choice)
  | ClickTomorrow => update (setDateChoice tomorrow_choice)
  | ChoosePriority k =>
      match priority_options !! k with
      | Some v => update (setBasePriority v)
      | None => mret tt
      end
  | ClickBuild => loadPlan c
  | ClickApply enqueue => applyPlan c enqueue
  | ToastTimeout => update (setToast None)
  end.

(** A session in which every handler has settled when the next event
    comes. *)
Fixpoint run (evs : list (Clock * Event)) : Act State unit :=
  match evs with
  | [] => mret tt
  | (c, ev) :: rest => handle c ev;; run rest
  end.

End Handlers.

End PlanPage.

(* ===================================================================== *)
(** ** The task detail page (src/unnamed/part_005, first page)            *)
(* ===================================================================== *)

(** The page of one task.  A later version of the page, with more actions
    (src/frontend/src/types/instagram.ts, second part), has the same
    [handleStatusUpdate] and the same two buttons calling it. *)
Module TaskPage.

(** [type UiTask], [type UiActions] and the part of [type UiResponse] that
    the handlers read; the result, pipeline and files blocks are only
    displayed. *)
Record UiTask := mkUiTask {
  id : Z;
  status : string;
  status_label : string;
  project_id : Z;
  project_name : option string;
  platform : string;
  platform_label : option string;
  preset_id : option Z;
  preset_name : option string;
  external_id : option string;
  permalink : option string;
  created_at : option string;
  updated_at : option string
}.

Record UiActions := mkUiActions {
  can_process : bool;
  can_mark_done : bool;
  can_mark_error : bool
}.

Record UiResponse := mkUiResponse { task : UiTask; actions : option UiActions }.

(** The bodies the page decodes: [UiResponse] and [{tail?: string}].
    Nothing checks at run time which of the two an answer is. *)
Inductive Body :=
| BUi (d : UiResponse)
| BLog (tail : option string).

(** The [useState] cells the handlers write; the filters of the log view
    ([hideFfmpeg], [searchLog], [onlyErrors], [showTechnical]) reach no
    handler.  [data] holds the decoded body that was stored, whatever its
    shape. *)
Record State := mkState {
  data : option Body;
  loading : bool;
  error : option string;
  errorStatus : option Z;
  actionError : option string;
  logTail : string;
  tailSize : Z
}.

Definition initial : State := mkState None false None None None "" 200.

Definition setData (v : option Body) (s : State) : State :=
  mkState v (loading s) (error s) (errorStatus s) (actionError s) (logTail s)
    (tailSize s).
Definition setLoading (v : bool) (s : State) : State :=
  mkState (data s) v (error s) (errorStatus s) (actionError s) (logTail s)
    (tailSize s).
Definition setError (v : option string) (s : State) : State :=
  mkState (data s) (loading s) v (errorStatus s) (actionError s) (logTail s)
    (tailSize s).
Definition setErrorStatus (v : option Z) (s : State) : State :=
  mkState (data s) (loading s) (error s) v (actionError s) (logTail s)
    (tailSize s).
Definition setActionError (v : option string) (s : State) : State :=
  mkState (data s) (loading s) (error s) (errorStatus s) v (logTail s)
    (tailSize s).
Definition setLogTail (v : string) (s : State) : State :=
  mkState (data s) (loading s) (error s) (errorStatus s) (actionError s) v
    (tailSize s).
Definition setTailSize (v : Z) (s : State) : State :=
  mkState (data s) (loading s) (error s) (errorStatus s) (actionError s)
    (logTail s) v.

(** [const API_BASE = ""] *)
Definition API_BASE : string := "".

(** [reason ?? null] *)
Definition or_null (reason : option string) : Json :=
  match reason with
  | Some text => JStr text
  | None => JNull
  end.

(** [{ status, error_text: reason ?? null }] *)
Definition status_body (status : string) (reason : option string) : Json :=
  JObj [("status", JStr status); ("error_text", or_null reason)].

Definition tail_options : list Z := [200; 500; 2000].

Section Handlers.

(** The route parameter, the network, and the messages of the errors that
    the browser raises for a failed [fetch] and for a body that is not JSON. *)
Variable taskId : RouteId.
Variable net : Net Body.
Variable fetch_failure : string.
Variable json_failure : string.

Definition task_url : string :=
  API_BASE +:+ "/api/publish-tasks/" +:+ show_id taskId.

(** [fetchData] in two parts: up to its [await fetch(...)], and from the
    answer on. *)
Definition fetchData_begin : Act State unit :=
  update (setLoading true);;
  update (setError None);;
  update (setErrorStatus None).

Definition fetchData_settle (r : option (Response Body)) : Act State unit :=
  match r with
  | Some resp =>
      if resp_ok resp then
        match resp_json resp with
        | Some json => update (setData (Some json))
        | None => update (setError (Some json_failure));; update (setData None)
        end
      else
        update (setErrorStatus (Some (resp_status resp)));;
        update (setError (Some
          (if decide (resp_status resp = 404) then "Задача не найдена"
           else "Ошибка " +:+ show_int (resp_status resp) +:+ ": "
                +:+ (if decide (resp_text resp = "") then "Неизвестно"
                     else resp_text resp))));;
        update (setData None)
  | None => update (setError (Some fetch_failure));; update (setData None)
  end;;
  update (setLoading false).

Definition fetchData : Act State unit :=
  if negb (truthy taskId) then mret tt
  else
    fetchData_begin;;
    r ← fetch net (get (task_url +:+ "/ui"));
    fetchData_settle r.

(** Two calls of [fetchData] in flight at once: the second begins while the
    first awaits its answer (the mount effect and a click, or two clicks; no
    button is disabled while loading), and the answers come in the order of
    the requests. *)
Definition fetchData_overlapping : Act State unit :=
  if negb (truthy taskId) then mret tt
  else
    fetchData_begin;;
    first ← fetch net (get (task_url +:+ "/ui"));
    fetchData_begin;;
    second ← fetch net (get (task_url +:+ "/ui"));
    fetchData_settle first;;
    fetchData_settle second.

(** [json.tail || ""]: of the bodies, only [{tail}] has the property. *)
Definition tail_of (json : Body) : string :=
  match json with
  | BLog t => default "" t
  | BUi _ => ""
  end.

Definition loadLog (tail : Z) : Act State unit :=
  if negb (truthy taskId) then mret tt
  else
    r ← fetch net (get (task_url +:+ "/log?tail=" +:+ show_int tail));
    match r with
    | Some resp =>
        if resp_ok resp then
          match resp_json resp with
          | Some json => update (setLogTail (tail_of json))
          | None => update (setLogTail "")
          end
        else update (setLogTail "")
    | None => update (setLogTail "")
    end.

Definition handleProcess : Act State unit :=
  if negb (truthy taskId) then mret tt
  else
    update (setActionError None);;
    r ← fetch net (post (task_url +:+ "/process"));
    match r with
    | Some resp =>
        if resp_ok resp then (s ← read; fetchData;; loadLog (tailSize s))
        else update (setActionError (Some "Не удалось запустить обработку"))
    | None => mret tt
    end.

Definition handleStatusUpdate (status : string) (reason : option string)
  : Act State unit :=
  if negb (truthy taskId) then mret tt
  else
    update (setActionError None);;
    r ← fetch net (send_json PATCH task_url (status_body status reason));
    match r with
    | Some resp =>
        if resp_ok resp then fetchData
        else update (setActionError (Some "Не удалось обновить статус"))
    | None => mret tt
    end.

(** What the operator can do on the page. *)
Inductive Event :=
| Mount
| ClickProcess
| ClickMarkDone
| ClickMarkError
| ChooseTail (option_index : nat)
| ClickReloadLog.

(** [disabled={!(data?.actions?.can_mark_done ?? true)}] and its siblings. *)
Definition allowed (flag : UiActions → bool) (s : State) : bool :=
  match data s with
  | Some (BUi d) =>
      match actions d with
      | Some a => flag a
      | None => true
      end
  | _ => true
  end.

Definition handle (ev : Event) : Act State unit :=
  match ev with
  | Mount =>
      (* useEffect(() => { fetchData(); loadLog(tailSize); }, [taskId]) and
         useEffect(() => { loadLog(tailSize); }, [tailSize]) both run *)
      s ← read; fetchData;; loadLog (tailSize s);; loadLog (tailSize s)
  | ClickProcess => handleProcess
  | ClickMarkDone => handleStatusUpdate "done" None
  | ClickMarkError => handleStatusUpdate "error" (Some "Ошибка оператора")
  | ChooseTail k =>
      match tail_options !! k with
      | Some v =>
          s ← read;
          update (setTailSize v);;
          (* useEffect(() => { loadLog(tailSize) }, [tailSize]) *)
          if decide (tailSize s = v) then mret tt else loadLog v
      | None => mret tt
      end
  | ClickReloadLog => s ← read; loadLog (tailSize s)
  end.

(** A session in which every handler has settled when the next event
    comes; [fetchData_overlapping] is the case in which it has not. *)
Fixpoint run (evs : list Event) : Act State unit :=
  match evs with
  | [] => mret tt
  | ev :: rest => handle ev;; run rest
  end.

End Handlers.

End TaskPage.

(* ===================================================================== *)
(** ** What the operations console shows (src/unnamed/part_009)           *)
(* ===================================================================== *)

(** The parts of the render of [OpsPage] that decide what the operator sees
    and can click. *)
Module OpsView.

Import Api.

(** [Object.entries(health.counts).sort((a, b) => b[1] - a[1])]: the count
    chips, largest count first.  [sort] is stable, so it returns what an
    insertion sort by falling count returns on the entries. *)
Fixpoint insert_chip (x : string * Z) (sorted : list (string * Z))
  : list (string * Z) :=
  match sorted with
  | [] => [x]
  | y :: rest =>
      if decide (x.2 < y.2) then y :: insert_chip x rest else x :: y :: rest
  end.

Definition count_chips (h : HealthData) : list (string * Z) :=
  foldr insert_chip [] (entries (counts h)).

(** The render reads [health.stuck.processing] of a stored health body; it
    throws, and draws nothing, when the body is of another shape.  A stored
    report of another shape only leaves its two fields blank. *)
Definition renders (s : OpsPage.State) : bool :=
  match OpsPage.health s with
  | Some (OpsPage.BHealth _) | None => true
  | Some _ => false
  end.

(** [{selected.size > 0 && <div>...</div>}]: the bulk bar. *)
Definition bulk_bar_shown (s : OpsPage.State) : bool :=
  bool_decide (0 < set_size (OpsPage.selected s))%nat.

(** [checked={selected.size === tasks.length && tasks.length > 0}] *)
Definition select_all_checked (s : OpsPage.State) : bool :=
  bool_decide (set_size (OpsPage.selected s) = length (OpsPage.tasks s))
  && bool_decide (0 < length (OpsPage.tasks s))%nat.

(** [checked={selected.has(t.id)}] *)
Definition row_checked (s : OpsPage.State) (t : OpsTask) : bool :=
  set_has (OpsPage.selected s) (id t).

(** [bulkMsg.startsWith("✓") ? "#166534" : "#991b1b"] *)
Definition bulk_msg_colour (msg : string) : string :=
  if String.prefix "✓" msg then "#166534" else "#991b1b".

(** [{bulkMsg && <span style={{ color }}>{bulkMsg}</span>}], the last child
    of the bulk bar: the message and its colour, when it is drawn. *)
Definition bulk_msg_drawn (s : OpsPage.State) : option (string * string) :=
  if renders s && bulk_bar_shown s then
    match OpsPage.bulkMsg s with
    | Some msg =>
        if decide (msg = "") then None else Some (msg, bulk_msg_colour msg)
    | None => None
    end
  else None.

(** Whether the control behind an event is on the page and enabled: the
    Refresh button is disabled while [loading], the two watchdog buttons
    while [wdLoading]; a count chip exists for every entry of
    [health.counts], a row checkbox for every listed task; the bulk buttons
    and the priority select sit in the bulk bar.  A render that throws
    offers nothing; the mount effect is no control. *)
Definition offered (ev : OpsPage.Event) (s : OpsPage.State) : bool :=
  match ev with
  | OpsPage.Mount => true
  | OpsPage.ClickRefresh => renders s && negb (OpsPage.loading s)
  | OpsPage.ClickCount st =>
      match OpsPage.health s with
      | Some (OpsPage.BHealth h) => bool_decide (st ∈ (count_chips h).*1)
      | _ => false
      end
  | OpsPage.ChooseStatus k =>
      renders s && bool_decide (is_Some (OpsPage.STATUSES !! k))
  | OpsPage.ClickWatchdog _ => renders s && negb (OpsPage.wdLoading s)
  | OpsPage.ClickRow i =>
      renders s && bool_decide (i ∈ id <$> OpsPage.tasks s)
  | OpsPage.ClickSelectAll => renders s
  | OpsPage.ClickBulk _ => renders s && bulk_bar_shown s
  | OpsPage.ChoosePriority k =>
      renders s && bulk_bar_shown s
      && bool_decide (is_Some (OpsPage.priority_options !! k))
  end.

Section Offered.

Variable NEXT_PUBLIC_API_URL : option string.
Variable net : Net OpsPage.Body.

(** The operator at the page: an event reaches its handler only when its
    control is offered by the render it meets. *)
Definition click (ev : OpsPage.Event) : Act OpsPage.State unit :=
  s ← read;
  if offered ev s then OpsPage.handle NEXT_PUBLIC_API_URL net ev else mret tt.

Fixpoint run_offered (evs : list OpsPage.Event) : Act OpsPage.State unit :=
  match evs with
  | [] => mret tt
  | ev :: rest => click ev;; run_offered rest
  end.

End Offered.

End OpsView.

(* ===================================================================== *)
(** ** What the plan page shows                                           *)
(* ===================================================================== *)

(** The totals in the summary line of [PlanPage].  They are numbers for
    the renders that do not throw ([PlanPage.renders]). *)
Module PlanView.

Import Api.

(** [plan?.destinations.reduce((s, d) => s + d.slots.length, 0) ?? 0] *)
Definition totalSlots (s : PlanPage.State) : Z :=
  match PlanPage.plan s with
  | Some (PlanPage.BPlan p) =>
      foldl (λ acc d, acc + Z.of_nat (length (slots d))) 0 (destinations p)
  | _ => 0
  end.

(** [plan?.destinations.reduce((s, d) => s + d.skipped.length, 0) ?? 0] *)
Definition totalSkipped (s : PlanPage.State) : Z :=
  match PlanPage.plan s with
  | Some (PlanPage.BPlan p) =>
      foldl (λ acc d, acc + Z.of_nat (length (skipped d))) 0 (destinations p)
  | _ => 0
  end.

(** [{totalSkipped > 0 && <span>{totalSkipped} пропущено</span>}] *)
Definition skipped_chip_shown (s : PlanPage.State) : bool :=
  bool_decide (0 < totalSkipped s).

End PlanView.

(* ===================================================================== *)
(** ** What the task detail page shows (src/unnamed/part_005)             *)
(* ===================================================================== *)

(** The error line and the placeholder of [TaskDetailPage]. *)
Module TaskView.

(** [{error}{errorStatus && errorStatus !== 404 ? ` (status ${errorStatus})` : ""}],
    under [{error && ...}]. *)
Definition error_line (s : TaskPage.State) : option string :=
  match TaskPage.error s with
  | Some msg =>
      if decide (msg = "") then None
      else Some (msg +:+ match TaskPage.errorStatus s with
                         | Some st =>
                             if decide (st ≠ 0 ∧ st ≠ 404)
                             then " (status " +:+ show_int st +:+ ")"
                             else ""
                         | None => ""
                         end)
  | None => None
  end.

(** [{!loading && !data && <div>Задача не найдена ...</div>}] *)
Definition not_found_shown (s : TaskPage.State) : bool :=
  negb (TaskPage.loading s) && bool_decide (TaskPage.data s = None).

(** The render reads [data.task.status] of stored data; it throws, and
    draws nothing, when the stored body is of the other shape. *)
Definition renders (s : TaskPage.State) : bool :=
  match TaskPage.data s with
  | Some (TaskPage.BLog _) => false
  | _ => true
  end.

End TaskView.

(** The log view of [TaskDetailPage]: [parsedLogLines], [parsedLog] and what
    they are built from. *)
Module TaskLog.

(** [const FILTERED_PATTERNS] *)
Definition FILTERED_PATTERNS : list string :=
  ["[swscaler"; "deprecated pixel format"; "frame="; "Past duration";
   "[h264"; "[aac"; "Last message repeated"; "speed="; "bitrate="].

(** Strings are sequences of UTF-8 bytes.  The line feed: *)
Definition newline : ascii := "010"%char.

(** [s.split("\n")] *)
Fixpoint split_lines (s : string) : list string :=
  match s with
  | "" => [""]
  | String c rest =>
      if decide (c = newline) then "" :: split_lines rest
      else match split_lines rest with
           | line :: lines => String c line :: lines
           | [] => [String c ""]
           end
  end.

(** [lines.join("\n")] *)
Fixpoint join_lines (lines : list string) : string :=
  match lines with
  | [] => ""
  | line :: rest =>
      match rest with
      | [] => line
      | _ :: _ => line +:+ String newline (join_lines rest)
      end
  end.

(** [line.startsWith(p)] *)
Definition startsWith (line p : string) : bool := String.prefix p line.

(** [line.includes(p)] *)
Fixpoint includes (line p : string) : bool :=
  startsWith line p
  || match line with
     | "" => false
     | String _ rest => includes rest p
     end.

(** The white space and line terminators that [trim] strips, by their
    encodings: U+0009..U+000D and U+0020; U+00A0; U+1680, U+2000..U+200A,
    U+2028, U+2029, U+202F, U+205F, U+3000 and U+FEFF. *)
Definition space1 (a : ascii) : bool :=
  bool_decide (a ∈ ["009"; "010"; "011"; "012"; "013"; "032"]%char).
Definition space2 (a b : ascii) : bool :=
  bool_decide ((a, b) = ("194", "160")%char).
Definition space3 (a b c : ascii) : bool :=
  match a with
  | "225"%char => bool_decide ((b, c) = ("154", "128")%char)
  | "226"%char =>
      match b with
      | "128"%char =>
          bool_decide (128 ≤ Z.of_nat (nat_of_ascii c) ≤ 138)
          || bool_decide (c ∈ ["168"; "169"; "175"]%char)
      | "129"%char => bool_decide (c = "159"%char)
      | _ => false
      end
  | "227"%char => bool_decide ((b, c) = ("128", "128")%char)
  | "239"%char => bool_decide ((b, c) = ("187", "191")%char)
  | _ => false
  end.

(** [s.trimStart()] *)
Fixpoint trimStart (s : string) : string :=
  match s with
  | "" => ""
  | String a rest =>
      if space1 a then trimStart rest
      else
        match rest with
        | String b (String c rest3 as rest2) =>
            if space2 a b then trimStart rest2
            else if space3 a b c then trimStart rest3
            else s
        | String b "" => if space2 a b then "" else s
        | "" => s
        end
  end.

(** [s.trimEnd()]: the string up to its last character that is not white
    space. *)
Fixpoint trimEnd (s : string) : string :=
  match s with
  | "" => ""
  | String a rest =>
      if decide (trimStart s = "") then "" else String a (trimEnd rest)
  end.

(** [s.trim()] *)
Definition trim (s : string) : string := trimEnd (trimStart s).

(** The switches of the log view: [hideFfmpeg], [searchLog], [onlyErrors]. *)
Record Filters := mkFilters {
  hideFfmpeg : bool;
  searchLog : string;
  onlyErrors : bool
}.

(** Their [useState] defaults. *)
Definition default_filters : Filters := mkFilters true "" false.

(** [FILTERED_PATTERNS.some((p) => line.trim().startsWith(p) || line.includes(p))] *)
Definition noisy (line : string) : bool :=
  existsb (λ p, startsWith (trim line) p || includes line p) FILTERED_PATTERNS.

Section View.

(** [String.prototype.toLowerCase], the case mapping of the runtime. *)
Variable toLowerCase : string → string.

(** [lower.includes("error") || lower.includes("failed") || lower.includes("exception")] *)
Definition erroneous (line : string) : bool :=
  let lower := toLowerCase line in
  includes lower "error" || includes lower "failed"
  || includes lower "exception".

(** [const parsedLogLines = useMemo(...)] *)
Definition parsedLogLines (logTail : string) (f : Filters) : list string :=
  let lines := split_lines logTail in
  let filteredFfmpeg :=
    if hideFfmpeg f then filter (λ line, noisy line = false) lines
    else lines in
  let query := toLowerCase (trim (searchLog f)) in
  let res :=
    if decide (query = "") then filteredFfmpeg
    else filter (λ line, includes (toLowerCase line) query = true)
           filteredFfmpeg in
  if onlyErrors f then filter (λ line, erroneous line = true) res else res.

(** [const parsedLog = parsedLogLines.join("\n")] *)
Definition parsedLog (logTail : string) (f : Filters) : string :=
  join_lines (parsedLogLines logTail f).

(** [parsedLogLines.length ? rows : <div>Лог пуст</div>] *)
Definition placeholder_shown (logTail : string) (f : Filters) : bool :=
  bool_decide (parsedLogLines logTail f = []).

(** The colour of a row: red for an error line, else yellow for a warning. *)
Definition line_colour (line : string) : string :=
  let lower := toLowerCase line in
  if existsb (includes lower) ["error"; "failed"; "exception"] then "#fecdd3"
  else if existsb (includes lower) ["warning"; "deprecated"] then "#fef3c7"
  else "#e2e8f0".

End View.

End TaskLog.

(* ===================================================================== *)
(** ** The queue page (src/unnamed/part_005, second page)                 *)
(* ===================================================================== *)

(** [QueuePage]: the list of publish tasks with its filter tabs, its project
    select and the three row buttons. *)
Module QueuePage.

(** [type Task] and [type Project] *)
Record Task := mkTask {
  id : Z;
  project_id : Z;
  platform : string;
  status : string;
  error_message : option string;
  created_at : option string;
  caption_text : option string;
  artifacts : option (option string)
}.

(** [type Project = { id; name }]; the field [id] is written [project_key]
    here, [id] being the task's field in this module. *)
Record Project := mkProject { project_key : Z; name : string }.

(** [const STATUS_LABELS] and [const STATUS_CLASS], in source order. *)
Definition STATUS_LABELS : list (string * string) :=
  [("queued", "Очередь"); ("processing", "Обработка");
   ("ready_for_review", "Проверка"); ("done", "Готово");
   ("ready_for_publish", "К публикации"); ("error", "Ошибка");
   ("published", "Опубликовано")].

Definition STATUS_CLASS : list (string * string) :=
  [("queued", ""); ("processing", "badge-info");
   ("ready_for_review", "badge-warning"); ("done", "badge-success");
   ("ready_for_publish", "badge-warning"); ("error", "badge-error");
   ("published", "badge-info")].

(** The filter tabs. *)
Definition tabs : list string :=
  ["all"; "queued"; "processing"; "ready_for_review"; "done";
   "ready_for_publish"; "error"].

(** An element of a decoded array: a task or a project.  Nothing checks at
    run time which of the two an answer lists. *)
Inductive Item :=
| ITask (t : Task)
| IProject (p : Project).

(** [x.id] and [x.status] of an element; a project has no status. *)
Definition item_id (x : Item) : Z :=
  match x with
  | ITask t => id t
  | IProject p => project_key p
  end.
Definition item_status (x : Item) : option string :=
  match x with
  | ITask t => Some (status t)
  | IProject _ => None
  end.

(** The bodies the page decodes: an array, or an object with an optional
    [items].  The answers to its POST, PATCH and DELETE are not read. *)
Inductive Body :=
| BArray (d : list Item)
| BPage (items : option (list Item)).

(** The [useState] cells of [QueuePage].  [tasks] holds the array that was
    stored and [projects] the decoded body that was stored, whatever their
    contents. *)
Record State := mkState {
  tasks : list Item;
  projects : Body;
  loading : bool;
  filter : string;
  projectId : string;
  processing : option Z
}.

Definition initial : State := mkState [] (BArray []) true "all" "" None.

Definition setTasks (v : list Item) (s : State) : State :=
  mkState v (projects s) (loading s) (filter s) (projectId s) (processing s).
Definition setProjects (v : Body) (s : State) : State :=
  mkState (tasks s) v (loading s) (filter s) (projectId s) (processing s).
Definition setLoading (v : bool) (s : State) : State :=
  mkState (tasks s) (projects s) v (filter s) (projectId s) (processing s).
Definition setFilter (v : string) (s : State) : State :=
  mkState (tasks s) (projects s) (loading s) v (projectId s) (processing s).
Definition setProjectId (v : string) (s : State) : State :=
  mkState (tasks s) (projects s) (loading s) (filter s) v (processing s).
Definition setProcessing (v : option Z) (s : State) : State :=
  mkState (tasks s) (projects s) (loading s) (filter s) (projectId s) v.

(** [URLSearchParams]: the application/x-www-form-urlencoded serializer.
    Letters, digits and [*-._] stay, a space becomes [+], any other byte
    becomes [%XX]. *)
Definition unreserved (c : ascii) : bool :=
  let n := nat_of_ascii c in
  bool_decide (48 ≤ n ≤ 57)%nat || bool_decide (65 ≤ n ≤ 90)%nat
  || bool_decide (97 ≤ n ≤ 122)%nat
  || bool_decide (c ∈ ["*"; "-"; "."; "_"]%char).

Definition hex_digit (n : nat) : ascii :=
  match n with
  | 0 => "0" | 1 => "1" | 2 => "2" | 3 => "3" | 4 => "4" | 5 => "5"
  | 6 => "6" | 7 => "7" | 8 => "8" | 9 => "9" | 10 => "A" | 11 => "B"
  | 12 => "C" | 13 => "D" | 14 => "E" | _ => "F"
  end%char%nat.

Definition encode_byte (c : ascii) : string :=
  if unreserved c then String c ""
  else if decide (c = " "%char) then "+"
  else String "%" (String (hex_digit (nat_of_ascii c / 16))
                     (String (hex_digit (nat_of_ascii c mod 16)) "")).

Fixpoint form_encode (s : string) : string :=
  match s with
  | "" => ""
  | String c rest => encode_byte c +:+ form_encode rest
  end.

(** [params.toString()] *)
Definition serialize (params : list (string * string)) : string :=
  String.concat "&"
    ((λ kv, form_encode kv.1 +:+ "=" +:+ form_encode kv.2) <$> params).

(** [const params = new URLSearchParams();
     if (filter !== "all") params.set("status", filter);
     if (projectId) params.set("project_id", projectId);] *)
Definition load_params (s : State) : list (string * string) :=
  (if decide (filter s ≠ "all") then [("status", filter s)] else [])
  ++ (if decide (projectId s ≠ "") then [("project_id", projectId s)] else []).

Definition tasks_url (s : State) : string :=
  "/api/publish-tasks?" +:+ serialize (load_params s).

(** [fetch(url, { method: "DELETE" })] *)
Definition delete (url : string) : Request := mkRequest DELETE url [] None.

(** [Array.isArray(d) ? d : d.items || []] *)
Definition listed (d : Body) : list Item :=
  match d with
  | BArray d => d
  | BPage items => default [] items
  end.

(** The render calls [projects.map]; it throws, and draws nothing, when the
    stored body is not an array. *)
Definition renders (s : State) : bool :=
  match projects s with
  | BArray _ => true
  | BPage _ => false
  end.

(** The option values of the project select: [""] and [String(p.id)]. *)
Definition project_options (s : State) : list string :=
  match projects s with
  | BArray ps => "" :: ((λ p, show_int (item_id p)) <$> ps)
  | BPage _ => []
  end.

Section Handlers.

Variable net : Net Body.

(** [load]: both requests leave before either answer is awaited.  The
    function has no [catch]: a rejected request or a body that is not JSON
    ends the call where it stands. *)
Definition load : Act State unit :=
  update (setLoading true);;
  s ← read;
  tRes ← fetch net (get (tasks_url s));
  pRes ← fetch net (get "/api/projects");
  match tRes, pRes with
  | Some tRes, Some pRes =>
      match (if resp_ok tRes
             then (λ d, setTasks (listed d)) <$> resp_json tRes
             else Some (λ s, s)) with
      | Some keep_tasks =>
          update keep_tasks;;
          match (if resp_ok pRes then setProjects <$> resp_json pRes
                 else Some (λ s, s)) with
          | Some keep_projects =>
              update keep_projects;; update (setLoading false)
          | None => mret tt
          end
      | None => mret tt
      end
  | _, _ => mret tt
  end.

Definition task_url (i : Z) : string := "/api/publish-tasks/" +:+ show_int i.

Definition process (i : Z) : Act State unit :=
  update (setProcessing (Some i));;
  r ← fetch net (post (task_url i +:+ "/process-v2"));
  match r with
  | Some _ => update (setProcessing None);; load
  | None => mret tt
  end.

Definition approve (i : Z) : Act State unit :=
  r ← fetch net (send_json PATCH (task_url i) (JObj [("status", JStr "done")]));
  match r with
  | Some _ => load
  | None => mret tt
  end.

(** [del]; [confirmed] is what the operator answers to [confirm("Удалить?")]. *)
Definition del (i : Z) (confirmed : bool) : Act State unit :=
  if negb confirmed then mret tt
  else
    r ← fetch net (delete (task_url i));
    match r with
    | Some _ => load
    | None => mret tt
    end.

(** What the operator can do on the page. *)
Inductive Event :=
| Mount
| ClickReload
| ChooseFilter (tab_index : nat)
| ChooseProject (option_index : nat)
| ClickProcess (i : Z)
| ClickApprove (i : Z)
| ClickDelete (i : Z) (confirmed : bool).

(** [useEffect(() => { load(); }, [filter, projectId])] after a change of
    either. *)
Definition effect_after (before : State) : Act State unit :=
  s ← read;
  if decide (filter s = filter before ∧ projectId s = projectId before)
  then mret tt else load.

Definition handle (ev : Event) : Act State unit :=
  match ev with
  | Mount => load
  | ClickReload => load
  | ChooseFilter k =>
      match tabs !! k with
      | Some tab => s ← read; update (setFilter tab);; effect_after s
      | None => mret tt
      end
  | ChooseProject k =>
      s ← read;
      match project_options s !! k with
      | Some v => update (setProjectId v);; effect_after s
      | None => mret tt
      end
  | ClickProcess i => process i
  | ClickApprove i => approve i
  | ClickDelete i confirmed => del i confirmed
  end.

(** A session in which every handler has settled when the next event
    comes. *)
Fixpoint run (evs : list Event) : Act State unit :=
  match evs with
  | [] => mret tt
  | ev :: rest => handle ev;; run rest
  end.

End Handlers.

(** The buttons of a row: process on a queued task that is not being
    processed, approve on a task in review, delete on every row; the rows
    are there when the page is not loading.  A render that throws offers
    nothing; the mount effect is no control. *)
Definition offered (ev : Event) (s : State) : bool :=
  match ev with
  | Mount => true
  | ClickReload => renders s
  | ChooseFilter k => renders s && bool_decide (is_Some (tabs !! k))
  | ChooseProject k => bool_decide (is_Some (project_options s !! k))
  | ClickProcess i =>
      renders s && negb (loading s)
      && existsb (λ t, bool_decide (item_id t = i
                                    ∧ item_status t = Some "queued"))
           (tasks s)
      && bool_decide (processing s ≠ Some i)
  | ClickApprove i =>
      renders s && negb (loading s)
      && existsb (λ t, bool_decide (item_id t = i
                                    ∧ item_status t = Some "ready_for_review"))
           (tasks s)
  | ClickDelete i _ =>
      renders s && negb (loading s)
      && existsb (λ t, bool_decide (item_id t = i)) (tasks s)
  end.

End QueuePage.

(* ===================================================================== *)
(** ** Vocabulary of the statements                                       *)
(* ===================================================================== *)

(** The names of the statuses that section 3 of the specification
    enumerates. *)
Definition spec_status_names : list string :=
  Machine.status_name <$> Machine.all_statuses.

(** The slots of a destination are in time order when a later rank means a
    later instant.  [instant] reads the instant out of the ISO string of
    [slot.at], as [new Date(slot.at)] does. *)
Definition in_time_order (instant : string → Z) (slots : list Api.Slot)
  : Prop :=
  ∀ (i j : nat) (a b : Api.Slot),
    (i < j)%nat → slots !! i = Some a → slots !! j = Some b →
    instant (Api.at_ a) < instant (Api.at_ b).

(** What a status override of the task detail page has to look like: a
    request that is a PATCH goes to the task itself and carries one of the
    two bodies of the override buttons. *)
Definition override_shaped (taskId : RouteId) (r : Request) : Prop :=
  req_method r = PATCH →
  req_url r = "/api/publish-tasks/" +:+ show_id taskId
  ∧ ∃ body,
      req_body r = Some body
      ∧ keys body = ["status"; "error_text"]
      ∧ (body = JObj [("status", JStr "done"); ("error_text", JNull)]
         ∨ ∃ text, body = JObj [("status", JStr "error");
                                ("error_text", JStr text)]).

(** The clock of a render stands between the epoch and the end of the year
    9999, also a day later. *)
Definition sane (c : PlanPage.Clock) : Prop :=
  0 ≤ PlanPage.read_for_today c < 253402300800000
  ∧ 0 ≤ PlanPage.read_for_tomorrow c
  ∧ PlanPage.read_for_tomorrow c + 86400000 < 253402300800000.

(** A plan request of the render with clock [c]: a GET of the publish plan
    of the project for a date of the shape YYYY-MM-DD, which is the UTC date
    at the reading for [today] or the day after the UTC date at the reading
    for [tomorrow]. *)
Definition plan_request_of (env : option string) (projectId : RouteId)
    (c : PlanPage.Clock) (r : Request) : Prop :=
  ∃ d : string,
    r = get (or_default env "" +:+ "/api/projects/" +:+ show_id projectId
             +:+ "/publish-plan?date=" +:+ d)
    ∧ is_date_shape d = true
    ∧ (d = date_text (civil_from_days (day_number (PlanPage.read_for_today c)))
       ∨ d = date_text (next_day (civil_from_days
                 (day_number (PlanPage.read_for_tomorrow c))))).

(** Every GET in the log is a plan request of one of the renders [C]. *)
Definition plan_requests_dated (env : option string) (projectId : RouteId)
    (C : PlanPage.Clock → Prop) (r : Request) : Prop :=
  req_method r = GET → ∃ c, C c ∧ plan_request_of env projectId c r.

(** The priority a request submits: the number under [priority] or under
    [base_priority] in its JSON body. *)
Definition submitted_priority (r : Request) : option Z :=
  match req_body r with
  | Some (JObj fields) =>
      match list_find (λ kv, kv.1 = "priority" ∨ kv.1 = "base_priority")
              fields with
      | Some (_, (_, JNum p)) => Some p
      | _ => None
      end
  | _ => None
  end.

Definition priority_in_range (r : Request) : Prop :=
  ∀ p, submitted_priority r = Some p → -10 ≤ p ≤ 10.

(** Count chips in falling order. *)
Definition falling (a b : string * Z) : Prop := b.2 ≤ a.2.

(** The member that decides the value of key [k] in an object text: the
    last one written with that key. *)
Definition last_member {A} (members : list (string * A)) (k : string) (v : A)
  : Prop :=
  ∃ before after, members = before ++ (k, v) :: after ∧ k ∉ after.*1.

(** The ids a request carries: the array under [ids] in its JSON body. *)
Definition carried_ids (r : Request) : option (list Json) :=
  match req_body r with
  | Some (JObj fields) =>
      match list_find (λ kv, kv.1 = "ids") fields with
      | Some (_, (_, JArr xs)) => Some xs
      | _ => None
      end
  | _ => None
  end.

(** No id twice. *)
Definition ids_distinct (r : Request) : Prop :=
  ∀ xs, carried_ids r = Some xs → NoDup xs.

(** At least one id. *)
Definition ids_present (r : Request) : Prop :=
  ∀ xs, carried_ids r = Some xs → xs ≠ [].

(** No busy flag of a page is set. *)
Definition ops_idle (s : OpsPage.State) : Prop :=
  OpsPage.loading s = false ∧ OpsPage.wdLoading s = false
  ∧ OpsPage.tasksLoading s = false.

(** Likewise for the plan page. *)
Definition plan_idle (s : PlanPage.State) : Prop :=
  PlanPage.loading s = false ∧ PlanPage.applying s = false.

(** The task detail page at rest: not loading, never task data next to an
    error, an error status only with an error. *)
Definition task_coherent (s : TaskPage.State) : Prop :=
  TaskPage.loading s = false
  ∧ (is_Some (TaskPage.data s) → TaskPage.error s = None)
  ∧ (is_Some (TaskPage.errorStatus s) →
     is_Some (TaskPage.error s) ∧ TaskPage.data s = None).

(** The requests of the task detail page of task [taskId]. *)
Definition task_request (taskId : RouteId) (r : Request) : Prop :=
  let base := "/api/publish-tasks/" +:+ show_id taskId in
  r = get (base +:+ "/ui")
  ∨ (∃ tail, tail ∈ TaskPage.tail_options
             ∧ r = get (base +:+ "/log?tail=" +:+ show_int tail))
  ∨ r = post (base +:+ "/process")
  ∨ ∃ body, r = send_json PATCH base body.

(** The one request behind an event of the queue page, before any reload:
    the call of a row button. *)
Definition queue_action (ev : QueuePage.Event) : list Request :=
  match ev with
  | QueuePage.ClickProcess i =>
      [post ("/api/publish-tasks/" +:+ show_int i +:+ "/process-v2")]
  | QueuePage.ClickApprove i =>
      [send_json PATCH ("/api/publish-tasks/" +:+ show_int i)
         (JObj [("status", JStr "done")])]
  | QueuePage.ClickDelete i true =>
      [QueuePage.delete ("/api/publish-tasks/" +:+ show_int i)]
  | _ => []
  end.

(** A string that the form serializer leaves as it is. *)
Fixpoint plain (s : string) : Prop :=
  match s with
  | "" => True
  | String c rest => QueuePage.unreserved c = true ∧ plain rest
  end.

(** The query of a task-list request for a tab and a chosen project. *)
Definition queue_query (tab : string) (project : option Z) : string :=
  String.concat "&"
    ((if decide (tab = "all") then [] else ["status=" +:+ tab])
     ++ match project with
        | Some z => ["project_id=" +:+ show_int z]
        | None => []
        end).

(** The filter cells of the queue page hold a tab and the id of a project,
    if any, as the select prints it. *)
Definition queue_filtered (s : QueuePage.State) : Prop :=
  QueuePage.filter s ∈ QueuePage.tabs
  ∧ (QueuePage.projectId s = ""
     ∨ ∃ z, QueuePage.projectId s = show_int z).

(** A GET of the queue page: the project list, or the task list with the
    query written out. *)
Definition queue_request (r : Request) : Prop :=
  req_method r = GET →
  r = get "/api/projects"
  ∨ ∃ tab project,
      tab ∈ QueuePage.tabs
      ∧ r = get ("/api/publish-tasks?" +:+ queue_query tab project).

(** Calendar order on dates. *)
Definition date_lt (a b : Z * Z * Z) : Prop :=
  let '(y, m, d) := a in
  let '(y', m', d') := b in
  y < y' ∨ (y = y' ∧ (m < m' ∨ (m = m' ∧ d < d'))).

(* ===================================================================== *)
(** ** Sample data                                                        *)
(* ===================================================================== *)

(** Concrete inputs on which the statements below are exercised. *)
Module Sample.

(** The value of a decimal digit character, and the minute of the day that
    an ISO timestamp of the form [YYYY-MM-DDTHH:MM...] names. *)
Definition digit_value (c : ascii) : Z := Z.of_nat (nat_of_ascii c) - 48.

Definition two_digits (s : string) : Z :=
  match s with
  | String a (String b _) => 10 * digit_value a + digit_value b
  | _ => 0
  end.

Definition minute_of_day (iso : string) : Z :=
  60 * two_digits (substring 11 2 iso) + two_digits (substring 14 2 iso).

Definition morning : Api.Slot :=
  Api.mkSlot "2026-11-03T09:00:00+03:00" 41 (Some 7) (9 # 10) (17 # 20) 3
    "top score".
Definition noon : Api.Slot :=
  Api.mkSlot "2026-11-03T12:30:00+03:00" 38 None (1 # 2) (1 # 2) 2
    "next score".
Definition evening : Api.Slot :=
  Api.mkSlot "2026-11-03T18:00:00+03:00" 44 (Some 9) (1 # 5) (1 # 5) 1
    "next score".

Definition dest : Api.DestPlan :=
  Api.mkDestPlan 5 12 "tiktok" 1 4 3 [morning; noon; evening]
    [Api.mkSkippedItem 50 "daily limit reached"].

Definition plan : Api.Plan :=
  Api.mkPlan 3 "Europe/Moscow" "2026-11-03" "tue" [["09:00"; "21:00"]] 90
    [dest] None.

Definition plan_state : PlanPage.State :=
  PlanPage.mkState (Some (PlanPage.BPlan plan)) false false None None
    PlanPage.tomorrow_choice 2.

(** A task of project 3 for destination account 12, created at minute 100
    and not touched since; the same task in another status. *)
Definition fresh_task (i : Z) : Machine.PublishTask :=
  Machine.mkTask (Machine.mkIdentity i 3 "tiktok" 12) Machine.queued
    (Machine.mkScheduling 0 None (Some 7) (Some (9 # 10)))
    (Machine.mkControl None None None None)
    (Machine.mkExecution None 100 None None None)
    (Machine.mkPublishResult None None None).

Definition in_status (s : Machine.Status) (i : Z) : Machine.PublishTask :=
  Machine.with_status s (fresh_task i).

(** Task 1 is queued, task 2 is being processed, task 3 is canceled. *)
Definition store : gmap Z Machine.PublishTask :=
  {[ 1 := fresh_task 1;
     2 := in_status Machine.processing 2;
     3 := in_status Machine.canceled 3 ]}.

(** The console with four rows ticked, one of them an id that no task has,
    and a server that answers every bulk call from the dispatcher. *)
Definition ticked : World OpsPage.State :=
  mkWorld
    (OpsPage.mkState None None false false [] "" [1; 3; 2; 9] None 0 false)
    [].

Definition cancel_outcome : Api.BulkResult :=
  (Dispatcher.bulk Dispatcher.BulkCancel 200 store [1; 3; 2; 9]).1.

Definition bulk_server : Net OpsPage.Body :=
  λ _ _, Some (mkResponse true 200 "" (Some (OpsPage.BBulk cancel_outcome))).

(** A session on the plan page of project 3 on 2026-11-02 (UTC): build the
    plan for today, switch to tomorrow, pick base priority +7, build again,
    apply with enqueue.  The server answers every call with the sample plan
    or with the result of applying it. *)
Definition evening_clock : PlanPage.Clock :=
  PlanPage.mkClock 1793646000000 1793646000001.

Definition session : list (PlanPage.Clock * PlanPage.Event) :=
  (λ ev, (evening_clock, ev))
  <$> [PlanPage.ClickBuild; PlanPage.ClickTomorrow; PlanPage.ChoosePriority 3;
       PlanPage.ClickBuild; PlanPage.ClickApply true].

Definition applied : Api.ApplyResult :=
  Api.mkApplyResult
    [Api.mkApplyOk 41 7 (Some true) (Some "c-41"); Api.mkApplyOk 38 6 None None]
    [Api.mkApplyFailure 44 "already scheduled"]
    (Some (Api.mkPlanSummary "2026-11-03" "Europe/Moscow" 1)).

Definition plan_server : Net PlanPage.Body :=
  λ _ r,
    Some (mkResponse true 200 ""
            (Some (match req_method r with
                   | GET => PlanPage.BPlan plan
                   | _ => PlanPage.BApply applied
                   end))).

(** The plan page with the sample plan loaded. *)
Definition plan_loaded : World PlanPage.State := mkWorld plan_state [].

(** The watchdog of section 8: thresholds of 30 and 20 minutes with
    requeue, run at minute 145 over the sample store, whose task 2 has been
    in processing since minute 100; the server answers a watchdog call with
    a dry run of it. *)
Definition watchdog_settings : Api.WatchdogSettings :=
  Api.mkWatchdogSettings 30 20 true.

Definition dry_report : Api.WatchdogReport :=
  (Watchdog.run true watchdog_settings 145 "2026-11-02T19:00:00Z" store).1.

Definition watchdog_server : Net OpsPage.Body :=
  λ _ _, Some (mkResponse true 200 "" (Some (OpsPage.BReport dry_report))).

Definition console : World OpsPage.State := mkWorld OpsPage.initial [].

(** A server for the task detail page: the task as the page shows it, and
    an empty log. *)
Definition task_server : Net TaskPage.Body :=
  λ _ r,
    Some (mkResponse true 200 ""
            (Some (if decide (req_url r = "/api/publish-tasks/41/log?tail=200")
                   then TaskPage.BLog None
                   else TaskPage.BUi
                          (TaskPage.mkUiResponse
                             (TaskPage.mkUiTask 41 "ready_for_review" "Проверка"
                                3 None "tiktok" None None None None None None
                                None)
                             (Some (TaskPage.mkUiActions true true true)))))).

End Sample.

(** More inputs: the operations console with tasks listed, a server for it,
    a log and a lower-case mapping for the log view. *)
Module Fixtures.

(** A row of the task table of the console, and the console with three
    rows listed and one of them ticked. *)
Definition row (i : Z) (st : string) : Api.OpsTask :=
  Api.mkOpsTask i st 3 "tiktok" 12 None None 0 None None None None None None
    None.
Definition listed : World OpsPage.State :=
  mkWorld
    (OpsPage.mkState None None false false
       [row 1 "queued"; row 2 "processing"; row 5 "error"] "" [2] None 0 false)
    [].

(** A server for the operations console that lists two tasks and reports
    their counts. *)
Definition ops_server : Net OpsPage.Body :=
  λ _ r,
    Some (mkResponse true 200 ""
            (Some (if decide (req_url r = "http://localhost:8000/api/ops/health")
                   then OpsPage.BHealth
                          (Api.mkHealthData
                             [("queued", 1); ("error", 4); ("done", 4);
                              ("processing", 7)]
                             (Api.mkStuck 0 0) true true None [])
                   else OpsPage.BTasks
                          (Some [row 1 "queued";
                                 row 2 "processing"])))).

(** Lower case for the letters A to Z, every other byte as it is. *)
Definition lower_ascii (c : ascii) : ascii :=
  let n := nat_of_ascii c in
  if bool_decide (65 ≤ n ≤ 90)%nat then ascii_of_nat (n + 32) else c.
Fixpoint lower (s : string) : string :=
  match s with
  | "" => ""
  | String c rest => String (lower_ascii c) (lower rest)
  end.
(** A few lines of a processing log. *)
Definition log : string :=
  TaskLog.join_lines
    ["Input #0, mov"; "frame=  120 fps= 30";
     "  [h264 @ 0x55] concealing errors"; "Conversion FAILED"; "done"].

End Fixtures.

(* ===================================================================== *)
(** * Properties                                                          *)
(* ===================================================================== *)

(** ** A small program logic for handlers *)

Section Hoare.

Context {S : Type}.

Lemma hoare_ret {A} (P : World S → Prop) (a : A) :
  hoare P (mret a : Act S A) (λ _ w, P w).
Proof. intros w Hw. exact Hw. Qed.

Lemma hoare_bind {A B} (P : World S → Prop) (Q : A → World S → Prop)
    (R : B → World S → Prop) (m : Act S A) (k : A → Act S B) :
  hoare P m Q → (∀ a, hoare (Q a) (k a) R) → hoare P (m ≫= k) R.
Proof.
  intros Hm Hk w Hw. unfold mbind, act_bind.
  specialize (Hm w Hw). destruct (m w) as [a w1]. exact (Hk a w1 Hm).
Qed.

Lemma hoare_weaken {A} (P P' : World S → Prop) (Q Q' : A → World S → Prop)
    (m : Act S A) :
  hoare P' m Q' → (∀ w, P w → P' w) → (∀ a w, Q' a w → Q a w) → hoare P m Q.
Proof. intros Hm HP HQ w Hw. apply HQ, Hm, HP, Hw. Qed.

Lemma hoare_update (P Q : World S → Prop) (f : S → S) :
  (∀ w, P w → Q (mkWorld (f (page w)) (sent w))) →
  hoare P (update f) (λ _ w, Q w).
Proof. intros H w Hw. exact (H w Hw). Qed.

Lemma hoare_read (P : World S → Prop) :
  hoare P read (λ s w, P w ∧ s = page w).
Proof. intros w Hw. split; [exact Hw | reflexivity]. Qed.

Lemma hoare_fetch {B} (P Q : World S → Prop) (net : Net B) (r : Request) :
  (∀ w, P w → Q (mkWorld (page w) (sent w ++ [r]))) →
  hoare P (fetch net r) (λ _ w, Q w).
Proof. intros H w Hw. exact (H w Hw). Qed.

Lemma keeps_ret {A} (ψ : S → Prop) (φ : Request → Prop) (a : A) :
  keeps ψ φ (mret a : Act S A).
Proof. apply hoare_ret. Qed.

Lemma keeps_bind {A B} (ψ : S → Prop) (φ : Request → Prop) (m : Act S A)
    (k : A → Act S B) :
  keeps ψ φ m → (∀ a, keeps ψ φ (k a)) → keeps ψ φ (m ≫= k).
Proof. intros Hm Hk. eapply hoare_bind; [exact Hm | exact Hk]. Qed.

Lemma keeps_update ψ (φ : Request → Prop) (f : S → S) :
  (∀ s, ψ s → ψ (f s)) → keeps ψ φ (update f).
Proof.
  intros Hf. apply hoare_update. intros w [Hs Hl]. split; [apply Hf, Hs | exact Hl].
Qed.

Lemma keeps_fetch {B} (ψ : S → Prop) (φ : Request → Prop) (net : Net B) r :
  φ r → keeps ψ φ (fetch net r).
Proof.
  intros Hr. apply hoare_fetch. intros w [Hs Hl]. split; [exact Hs |].
  cbn. apply Forall_app. split; [exact Hl | by constructor].
Qed.

(** Reading the state hands the invariant of the state to the rest. *)
Lemma keeps_read {B} (ψ : S → Prop) (φ : Request → Prop) (k : S → Act S B) :
  (∀ s, ψ s → keeps ψ φ (k s)) → keeps ψ φ (read ≫= k).
Proof.
  intros Hk w Hw. unfold mbind, act_bind, read.
  destruct Hw as [Hs Hl]. apply (Hk (page w) Hs w). by split.
Qed.

End Hoare.

(** ** The selection set of the operations console *)

Section Selection.

Implicit Types (s : NumSet) (i j : Z).

Lemma filter_keeps_all {A} (P : A → Prop) `{!∀ x, Decision (P x)} (l : list A) :
  Forall P l → filter P l = l.
Proof.
  induction 1 as [|x l Hx _ IH]; [done|].
  by rewrite filter_cons_True, IH.
Qed.

Lemma set_has_true s i : set_has s i = true ↔ i ∈ s.
Proof. unfold set_has. by rewrite bool_decide_eq_true. Qed.

Lemma members_elem s i : i ∈ members s ↔ i ∈ s.
Proof. unfold members. by rewrite elem_of_list_to_set. Qed.

Lemma set_add_elem s i j : j ∈ set_add s i ↔ j = i ∨ j ∈ s.
Proof.
  unfold set_add. destruct (set_has s i) eqn:Hi.
  - apply set_has_true in Hi. split; [by right | by intros [->|]].
  - rewrite elem_of_app, list_elem_of_singleton. tauto.
Qed.

Lemma set_delete_elem s i j : j ∈ set_delete s i ↔ j ≠ i ∧ j ∈ s.
Proof. unfold set_delete. by rewrite list_elem_of_filter. Qed.

Lemma toggle_elem s i j :
  j ∈ OpsPage.toggle i s ↔ (j = i ∧ i ∉ s) ∨ (j ≠ i ∧ j ∈ s).
Proof.
  unfold OpsPage.toggle. destruct (set_has s i) eqn:Hi.
  - apply set_has_true in Hi. rewrite set_delete_elem. naive_solver.
  - assert (i ∉ s) by (intros Hin; apply set_has_true in Hin; congruence).
    rewrite set_add_elem. destruct (decide (j = i)); naive_solver.
Qed.

(** A [Set] never holds a member twice, and toggling keeps it so. *)
Lemma toggle_NoDup s i : NoDup s → NoDup (OpsPage.toggle i s).
Proof.
  intros Hs. unfold OpsPage.toggle, set_add, set_delete.
  destruct (set_has s i) eqn:Hi.
  - by apply NoDup_filter.
  - apply NoDup_app. split; [done|]. split; [|apply NoDup_singleton].
    intros x Hx ->%list_elem_of_singleton.
    apply set_has_true in Hx. congruence.
Qed.

(** The order of the members after two toggles: untouched when the id was
    not selected, moved to the end of the iteration order when it was. *)
Lemma toggle_twice_order s i :
  OpsPage.toggle i (OpsPage.toggle i s)
  = if set_has s i then set_delete s i ++ [i] else s.
Proof.
  unfold OpsPage.toggle at 2. destruct (set_has s i) eqn:Hi.
  - unfold OpsPage.toggle.
    assert (set_has (set_delete s i) i = false) as ->; [|unfold set_add].
    { apply not_true_is_false. rewrite set_has_true, set_delete_elem. tauto. }
    assert (set_has (set_delete s i) i = false) as ->; [|done].
    apply not_true_is_false. rewrite set_has_true, set_delete_elem. tauto.
  - unfold OpsPage.toggle.
    assert (set_has (set_add s i) i = true) as ->.
    { rewrite set_has_true, set_add_elem. by left. }
    unfold set_add. rewrite Hi. unfold set_delete.
    rewrite filter_app, filter_cons_False, filter_nil, app_nil_r by naive_solver.
    apply filter_keeps_all.
    apply Forall_forall. intros x Hx ->. apply set_has_true in Hx. congruence.
Qed.

End Selection.

(** C10. The per-task selection toggle of the operations console: one
    [toggleSelect(id)] adds the id exactly when it is absent and removes it
    exactly when it is present, leaves every other id as it was, touches no
    other state and sends nothing; two of them give back the original
    selection set. *)
Theorem toggleSelect_involution (i : Z) (w : World OpsPage.State) :
  let w1 := exec (OpsPage.toggleSelect i) w in
  let w2 := exec (OpsPage.toggleSelect i) w1 in
  (i ∈ members (OpsPage.selected (page w1))
     ↔ i ∉ members (OpsPage.selected (page w)))
  ∧ (∀ j, j ≠ i →
       j ∈ members (OpsPage.selected (page w1))
       ↔ j ∈ members (OpsPage.selected (page w)))
  ∧ members (OpsPage.selected (page w2)) = members (OpsPage.selected (page w))
  ∧ OpsPage.setSelected (λ _, OpsPage.selected (page w)) (page w1) = page w
  ∧ sent w2 = sent w.
Proof.
  destruct w as [[h r l wl ts sf sel msg bp tl] log]. cbn.
  split; [|split; [|split; [|split]]]; try reflexivity.
  - rewrite !elem_of_list_to_set, toggle_elem. naive_solver.
  - intros j Hj. rewrite !elem_of_list_to_set, toggle_elem. naive_solver.
  - apply set_eq. intros j. rewrite !elem_of_list_to_set.
    rewrite toggle_elem, (toggle_elem sel i i), (toggle_elem sel i j).
    destruct (decide (j = i)) as [->|Hne]; [destruct (decide (i ∈ sel))|];
      intuition congruence.
Qed.

Lemma toggleSelect_involution_witness :
  OpsPage.selected (page (exec (OpsPage.toggleSelect 3) Sample.ticked))
  = [1; 2; 9]
  ∧ members
      (OpsPage.selected
         (page (exec (OpsPage.toggleSelect 3)
                  (exec (OpsPage.toggleSelect 3) Sample.ticked))))
    = members [1; 3; 2; 9].
Proof.
  split; [reflexivity|].
  exact (proj1 (proj2 (proj2 (toggleSelect_involution 3 Sample.ticked)))).
Defined.

(** ** The statuses the operations console names *)

Lemma elem_of_spec_status_names (st : string) :
  st ∈ spec_status_names ↔
  st = "queued" ∨ st = "processing" ∨ st = "ready_for_review" ∨ st = "done"
  ∨ st = "ready_for_publish" ∨ st = "publishing" ∨ st = "published"
  ∨ st = "error" ∨ st = "paused" ∨ st = "canceled".
Proof.
  unfold spec_status_names. cbn.
  rewrite !elem_of_cons, elem_of_nil. tauto.
Qed.

Lemma elem_of_filter_statuses (st : string) :
  st ∈ OpsPage.filter_statuses ↔
  st = "queued" ∨ st = "processing" ∨ st = "ready_for_review" ∨ st = "done"
  ∨ st = "publishing" ∨ st = "published" ∨ st = "error" ∨ st = "canceled"
  ∨ st = "paused".
Proof.
  change OpsPage.filter_statuses with
    ["queued"; "processing"; "ready_for_review"; "done"; "publishing";
     "published"; "error"; "canceled"; "paused"].
  rewrite !elem_of_cons, elem_of_nil. tauto.
Qed.

Lemma elem_of_coloured_statuses (st : string) :
  st ∈ OpsPage.coloured_statuses ↔ st ∈ OpsPage.filter_statuses.
Proof.
  rewrite elem_of_filter_statuses. unfold OpsPage.coloured_statuses. cbn.
  rewrite !elem_of_cons, elem_of_nil. tauto.
Qed.

(** C2, as stated, fails: [ready_for_publish] is one of the enumerated
    statuses, and neither the filter list nor the colour map of the
    operations console has it. *)
Lemma ops_console_lacks_ready_for_publish :
  ¬ (∀ st, st ∈ spec_status_names →
       st ∈ OpsPage.filter_statuses ∧ st ∈ OpsPage.coloured_statuses).
Proof.
  intros H. destruct (H "ready_for_publish") as [Hin _].
  - apply elem_of_spec_status_names. tauto.
  - apply elem_of_filter_statuses in Hin.
    repeat (destruct Hin as [Hin|Hin]; [discriminate Hin|]). discriminate Hin.
Qed.

(** C2, amended.  The status filter list of the operations console (besides
    its empty "all" entry, which comes first) and its status colour map name
    the same statuses: every enumerated status except [ready_for_publish],
    and no other.  A task in [ready_for_publish] is drawn in the fallback
    colour. *)
Theorem ops_console_statuses :
  (∀ st, st ∈ OpsPage.filter_statuses ↔
         st ∈ spec_status_names ∧ st ≠ "ready_for_publish")
  ∧ (∀ st, st ∈ OpsPage.coloured_statuses ↔
           st ∈ spec_status_names ∧ st ≠ "ready_for_publish")
  ∧ OpsPage.STATUSES = "" :: OpsPage.filter_statuses
  ∧ OpsPage.filter_label "" = "all"
  ∧ NoDup OpsPage.STATUSES
  ∧ OpsPage.status_color "ready_for_publish" = "#6b7280".
Proof.
  assert (∀ st, st ∈ OpsPage.filter_statuses ↔
                st ∈ spec_status_names ∧ st ≠ "ready_for_publish") as Hf.
  { intros st. rewrite elem_of_filter_statuses, elem_of_spec_status_names.
    split.
    - intros H. repeat (destruct H as [->|H]); try subst st;
        (split; [tauto | discriminate]).
    - intros [H Hne]. repeat (destruct H as [H|H]); try tauto. }
  split; [exact Hf|]. split.
  { intros st. rewrite elem_of_coloured_statuses. apply Hf. }
  split; [reflexivity|]. split; [reflexivity|]. split; [|reflexivity].
  apply (bool_decide_unpack (NoDup OpsPage.STATUSES)). vm_compute. exact I.
Qed.

(** ** The priority column of the plan page *)

Lemma shown_priority_decreasing (basePriority : Z) (i j : nat) :
  (i < j)%nat →
  PlanPage.shown_priority basePriority j < PlanPage.shown_priority basePriority i.
Proof. unfold PlanPage.shown_priority. lia. Qed.

Lemma slot_rows_lookup (basePriority : Z) (dest : Api.DestPlan) (i : nat) :
  PlanPage.slot_rows basePriority dest !! i
  = PlanPage.slot_row basePriority i <$> Api.slots dest !! i.
Proof. unfold PlanPage.slot_rows. apply list_lookup_imap. Qed.

(** Ranks follow the instants when the slots are in time order. *)
Lemma earlier_slot_has_lower_rank (instant : string → Z)
    (slots : list Api.Slot) (i j : nat) (a b : Api.Slot) :
  in_time_order instant slots →
  slots !! i = Some a → slots !! j = Some b →
  instant (Api.at_ a) < instant (Api.at_ b) → (i < j)%nat.
Proof.
  intros Hord Ha Hb Hlt.
  destruct (lt_eq_lt_dec i j) as [[Hij|Hij]|Hij]; [exact Hij | |].
  - subst j. rewrite Ha in Hb. injection Hb as ->. lia.
  - specialize (Hord j i b a Hij Hb Ha). lia.
Qed.

(** C3. In every rendered plan and every destination of it, the row of the
    slot at zero-based rank [i] shows the priority [basePriority - i] (with a
    plus sign when positive); the shown priority strictly decreases with the
    rank, so that, the slots of a destination being in time order, a slot
    with an earlier time is shown a strictly higher priority than any later
    one. *)
Theorem plan_priority_by_rank (instant : string → Z) (s : PlanPage.State)
    (p : Api.Plan) (dest : Api.DestPlan) :
  PlanPage.plan s = Some (PlanPage.BPlan p) →
  dest ∈ Api.destinations p →
  let shown := PlanPage.shown_priority (PlanPage.basePriority s) in
  PlanPage.slot_rows (PlanPage.basePriority s) dest ∈ PlanPage.slot_tables s
  ∧ (∀ (i : nat) (slot : Api.Slot),
       Api.slots dest !! i = Some slot →
       ∃ row,
         PlanPage.slot_rows (PlanPage.basePriority s) dest !! i = Some row
         ∧ PlanPage.row_task_id row = Api.slot_task_id slot
         ∧ PlanPage.row_at row = Api.at_ slot
         ∧ PlanPage.row_priority_text row = show_signed (shown i)
         ∧ shown i = PlanPage.basePriority s - Z.of_nat i)
  ∧ (∀ i j : nat, (i < j)%nat → shown j < shown i)
  ∧ (in_time_order instant (Api.slots dest) →
     ∀ (i j : nat) (a b : Api.Slot),
       Api.slots dest !! i = Some a → Api.slots dest !! j = Some b →
       instant (Api.at_ a) < instant (Api.at_ b) → shown j < shown i).
Proof.
  intros Hplan Hdest shown. split; [|split; [|split]].
  - unfold PlanPage.slot_tables. rewrite Hplan.
    apply list_elem_of_fmap. by exists dest.
  - intros i slot Hslot. exists (PlanPage.slot_row (PlanPage.basePriority s) i slot).
    rewrite slot_rows_lookup, Hslot. repeat split.
  - intros i j. apply shown_priority_decreasing.
  - intros Hord i j a b Ha Hb Hlt. apply shown_priority_decreasing.
    exact (earlier_slot_has_lower_rank instant _ i j a b Hord Ha Hb Hlt).
Qed.

Lemma sample_slots_in_time_order :
  in_time_order Sample.minute_of_day (Api.slots Sample.dest).
Proof.
  intros i j a b Hij Ha Hb.
  destruct i as [|[|[|i]]]; destruct j as [|[|[|j]]];
    cbn in Ha, Hb; try discriminate; try lia;
    injection Ha as <-; injection Hb as <-; vm_compute; reflexivity.
Defined.

Lemma plan_priority_by_rank_witness :
  PlanPage.row_priority_text
    <$> PlanPage.slot_rows 2 Sample.dest = ["+2"; "+1"; "0"]
  ∧ PlanPage.shown_priority 2 2 < PlanPage.shown_priority 2 0.
Proof.
  split; [vm_compute; reflexivity|].
  destruct (plan_priority_by_rank Sample.minute_of_day Sample.plan_state
              Sample.plan Sample.dest eq_refl)
    as (_ & _ & _ & Htime).
  - apply list_elem_of_singleton. reflexivity.
  - apply (Htime sample_slots_in_time_order 0%nat 2%nat Sample.morning
             Sample.evening eq_refl eq_refl).
    vm_compute. reflexivity.
Defined.

(** ** The task state machine *)

Section MachineFacts.

Import Machine.

Lemma unlisted_edge (v : Trigger) (from to : Status) :
  listed from to = false → edge v from to = false.
Proof.
  unfold listed. intros H.
  destruct (edge v from to) eqn:Hv; [|reflexivity].
  assert (existsb (λ v, edge v from to) all_triggers = true) as Hex.
  { apply existsb_exists. exists v. split; [|exact Hv].
    destruct v; cbn; tauto. }
  congruence.
Qed.

(** A request along something that is not an edge of its trigger fails with
    [PreconditionFailed] and the status of the task. *)
Lemma off_edge_rejected (t : PublishTask) (r : Request) :
  edge (via r) (status t) (target r) = false →
  transition t r = Failed (PreconditionFailed (status t)).
Proof. intros H. unfold transition. by rewrite H. Qed.

(** A failed request leaves the store as it was, whatever the failure. *)
Lemma failed_request_keeps_store (σ : gmap Z PublishTask) (i : Z)
    (r : Request) (e : TransitionError) :
  (request_transition σ i r).1 = Failed e → (request_transition σ i r).2 = σ.
Proof.
  unfold request_transition. destruct (σ !! i) as [t|]; [|done].
  destruct (transition t r); [discriminate | done].
Qed.

(** Along a listed edge whose guard holds, the status asked for is taken and
    the row is stamped. *)
Lemma on_edge_taken (t : PublishTask) (r : Request) :
  edge (via r) (status t) (target r) = true → guard r t = None →
  ∃ t', transition t r = Done t' ∧ status t' = target r
        ∧ updated_at (execution t') = now r ∧ identity t' = identity t.
Proof.
  intros He Hg. unfold transition. rewrite He, Hg.
  eexists; split; [reflexivity|].
  unfold commit, side_effects. destruct (via r); repeat split.
Qed.

End MachineFacts.

(** C1. For every task in the store and every requested transition that is
    not one of the edges listed in section 4.1 (the trigger of the request
    has no edge from the current status of the task to the status asked
    for; in particular when no bullet of the section joins the two statuses
    at all, see [unlisted_edge]), the transition operation fails with
    [PreconditionFailed] carrying the current status, and the store, hence
    the task record with its status, timestamps and every other field, is
    left as it was. *)
Theorem illegal_transition_rejected (σ : gmap Z Machine.PublishTask) (i : Z)
    (t : Machine.PublishTask) (r : Machine.Request) :
  σ !! i = Some t →
  Machine.edge (Machine.via r) (Machine.status t) (Machine.target r) = false →
  Machine.request_transition σ i r
  = (Machine.Failed (Machine.PreconditionFailed (Machine.status t)), σ)
  ∧ (Machine.request_transition σ i r).2 !! i = Some t.
Proof.
  intros Hi Hno.
  assert (Machine.request_transition σ i r
          = (Machine.Failed (Machine.PreconditionFailed (Machine.status t)), σ))
    as Hreq.
  { unfold Machine.request_transition. rewrite Hi.
    by rewrite (off_edge_rejected t r Hno). }
  split; [exact Hreq|]. by rewrite Hreq.
Qed.

(** Retry-publish on a queued task, the example of section 4.1. *)
Lemma illegal_transition_rejected_witness :
  Machine.request_transition Sample.store 1
    (Machine.ask Machine.RetryPublish Machine.publishing 130)
  = (Machine.Failed (Machine.PreconditionFailed Machine.queued), Sample.store)
  ∧ (Machine.request_transition Sample.store 1
       (Machine.ask Machine.RetryPublish Machine.publishing 130)).2 !! 1
    = Some (Sample.fresh_task 1).
Proof.
  apply (illegal_transition_rejected Sample.store 1 (Sample.fresh_task 1)
           (Machine.ask Machine.RetryPublish Machine.publishing 130)).
  - vm_compute. reflexivity.
  - vm_compute. reflexivity.
Defined.

(** The edges that are taken: a queued task is processed, the executor
    reports an error, the operator forces the task to done. *)
Example legal_transitions :
  (Machine.status <$> (Machine.request_transition Sample.store 1
                         (Machine.ask Machine.Process Machine.processing 130)).2
                      !! 1
   = Some Machine.processing)
  ∧ (Machine.status <$> (Machine.request_transition Sample.store 2
                           (Machine.mkRequest Machine.StepFinished Machine.error
                              130 (Some "ffmpeg failed") [] false None None)).2
                        !! 2
     = Some Machine.error)
  ∧ (Machine.status <$> (Machine.request_transition Sample.store 2
                           (Machine.ask Machine.Override Machine.done 130)).2
                        !! 2
     = Some Machine.done)
  ∧ Machine.listed Machine.processing Machine.queued = false.
Proof. vm_compute. repeat split. Qed.

(** ** Bulk operations *)

Ltac act_step :=
  unfold mbind, act_bind, mret, act_ret, update, read, fetch, exec;
  cbn -[String.append pretty].

Section DispatcherFacts.

Import Dispatcher.

Implicit Types (σ : gmap Z Machine.PublishTask) (ids : list Z).

(** An item that fails leaves the store alone. *)
Lemma perform_failure op time σ i why σ' :
  perform op time σ i = (Some why, σ') → σ' = σ.
Proof.
  unfold perform. destruct (σ !! i) as [t|]; [|congruence].
  destruct (item op time t); congruence.
Qed.

Lemma bulk_cons op time σ i ids :
  bulk op time σ (i :: ids)
  = (record_item i (perform op time σ i).1
       (bulk op time (perform op time σ i).2 ids).1,
     (bulk op time (perform op time σ i).2 ids).2).
Proof.
  cbn. destruct (perform op time σ i) as [o σ1]. cbn.
  by destruct (bulk op time σ1 ids).
Qed.

(** Every id of the batch is answered, once, in [ok] or in [failed]. *)
Lemma bulk_partition op time σ ids :
  ids ≡ₚ Api.ok (bulk op time σ ids).1
         ++ (Api.failure_id <$> Api.failed (bulk op time σ ids).1).
Proof.
  revert σ. induction ids as [|i ids IH]; intros σ; [done|].
  rewrite bulk_cons. cbn.
  destruct (perform op time σ i) as [[why|] σ1]; cbn.
  - rewrite <-Permutation_middle. by constructor.
  - by constructor.
Qed.

(** A batch is its two halves one after the other. *)
Lemma bulk_app op time σ ids1 ids2 :
  bulk op time σ (ids1 ++ ids2)
  = let first := bulk op time σ ids1 in
    let second := bulk op time first.2 ids2 in
    (Api.mkBulkResult (Api.ok first.1 ++ Api.ok second.1)
       (Api.failed first.1 ++ Api.failed second.1), second.2).
Proof.
  revert σ. induction ids1 as [|i ids1 IH]; intros σ.
  - cbn. by destruct (bulk op time σ ids2) as [[??] ?].
  - rewrite <-app_comm_cons, !bulk_cons, IH. cbn.
    by destruct (perform op time σ i) as [[why|] σ1].
Qed.

(** A failing id is reported and the rest of the batch is processed as if
    the failing id had not been in it. *)
Lemma bulk_failure_isolated op time σ i why σ' ids :
  perform op time σ i = (Some why, σ') →
  bulk op time σ (i :: ids)
  = (Api.mkBulkResult (Api.ok (bulk op time σ ids).1)
       (Api.mkBulkFailure i why :: Api.failed (bulk op time σ ids).1),
     (bulk op time σ ids).2).
Proof.
  intros Hp. rewrite bulk_cons, Hp. cbn.
  by rewrite (perform_failure _ _ _ _ _ _ Hp).
Qed.

End DispatcherFacts.

(** Section 8: a bulk cancel over valid, already canceled and unknown ids. *)
Example bulk_cancel_mixed :
  Sample.cancel_outcome
  = Api.mkBulkResult [1; 2]
      [Api.mkBulkFailure 3 "precondition failed: task is canceled";
       Api.mkBulkFailure 9 "not found"].
Proof. vm_compute. reflexivity. Qed.

Section ConsoleBulk.

Variable env : option string.
Variable net : Net OpsPage.Body.

Lemma loadHealth_frame (w : World OpsPage.State) :
  let w' := exec (OpsPage.loadHealth env net) w in
  OpsPage.bulkMsg (page w') = OpsPage.bulkMsg (page w)
  ∧ OpsPage.report (page w') = OpsPage.report (page w)
  ∧ sent w' = sent w ++ [get (OpsPage.API env +:+ "/api/ops/health")].
Proof.
  unfold OpsPage.loadHealth. act_step.
  destruct (net _ _) as [[ok st tx [[h|ts|r|b]|]]|]; cbn;
    try destruct ok; cbn; auto.
Qed.

Lemma loadTasks_frame (w : World OpsPage.State) :
  let w' := exec (OpsPage.loadTasks env net) w in
  OpsPage.bulkMsg (page w') = OpsPage.bulkMsg (page w)
  ∧ OpsPage.report (page w') = OpsPage.report (page w).
Proof.
  unfold OpsPage.loadTasks. act_step.
  destruct (net _ _) as [[ok st tx [[h|ts|r|b]|]]|]; cbn;
    try destruct ok; cbn; auto.
Qed.

(** The message of the console: the ok count, and the failed count exactly
    when something failed. *)
Lemma bulk_message_shape (j : Api.BulkResult) :
  OpsPage.bulk_message j
  = "✓ " +:+ pretty (length (Api.ok j)) +:+ " ok"
    +:+ match Api.failed j with
        | [] => ""
        | _ :: _ => ", " +:+ pretty (length (Api.failed j)) +:+ " failed"
        end.
Proof. unfold OpsPage.bulk_message. by destruct (Api.failed j). Qed.

(** What [bulkAction] leaves on the page for each kind of answer. *)
Lemma bulkAction_message (endpoint : string) (body : Json)
    (w : World OpsPage.State) :
  let call :=
    send_json POST (OpsPage.API env +:+ "/api/ops/tasks/" +:+ endpoint) body in
  OpsPage.bulkMsg (page (exec (OpsPage.bulkAction env net endpoint body) w))
  = match net (sent w) call with
    | Some resp =>
        if resp_ok resp then
          match resp_json resp with
          | Some (OpsPage.BBulk j) => Some (OpsPage.bulk_message j)
          | _ => Some "✕ Network error"
          end
        else Some ("✕ Error: " +:+ resp_text resp)
    | None => Some "✕ Network error"
    end.
Proof.
  unfold OpsPage.bulkAction. act_step.
  destruct (net _ _) as [[ok st tx [[h|ts|r|b]|]]|]; cbn -[String.append];
    try reflexivity; try (destruct ok; reflexivity).
  destruct ok; [|reflexivity]. cbn -[String.append OpsPage.bulk_message].
  match goal with
  | |- context [OpsPage.loadTasks env net ?w0] =>
      pose proof (loadTasks_frame w0) as [Ht _];
      pose proof (loadHealth_frame (OpsPage.loadTasks env net w0).2) as [Hh _];
      unfold exec in Ht, Hh;
      destruct (OpsPage.loadTasks env net w0) as [u w1]; cbn in Ht, Hh |- *;
      destruct (OpsPage.loadHealth env net w1) as [u' w2]; cbn in Hh |- *;
      by rewrite Hh, Ht
  end.
Qed.

End ConsoleBulk.

(** C4. Every bulk operation (pause, resume, cancel, set-priority, enqueue)
    over a list of task ids answers with a partition of the ids into [ok] and
    [failed], each failed id with its reason; an id that fails leaves the
    store alone and does not stop the ids after it from being processed.
    The operations console, given such an answer to the call behind a bulk
    button, shows the ok count and appends the failed count exactly when the
    failed list is not empty. *)
Theorem bulk_result_partitioned (op : Dispatcher.Operation) (time : Z)
    (σ : gmap Z Machine.PublishTask) (ids : list Z)
    (env : option string) (net : Net OpsPage.Body) (b : OpsPage.BulkButton)
    (w : World OpsPage.State) :
  let res := (Dispatcher.bulk op time σ ids).1 in
  let call :=
    send_json POST
      (OpsPage.API env +:+ "/api/ops/tasks/" +:+ OpsPage.endpoint b)
      (OpsPage.bulk_body b (page w)) in
  ids ≡ₚ Api.ok res ++ (Api.failure_id <$> Api.failed res)
  ∧ (∀ before i after why σ',
       ids = before ++ i :: after →
       let first := Dispatcher.bulk op time σ before in
       Dispatcher.perform op time first.2 i = (Some why, σ') →
       let rest := Dispatcher.bulk op time first.2 after in
       σ' = first.2
       ∧ res = Api.mkBulkResult (Api.ok first.1 ++ Api.ok rest.1)
                 (Api.failed first.1
                  ++ Api.mkBulkFailure i why :: Api.failed rest.1))
  ∧ (∀ (resp : Response OpsPage.Body) (j : Api.BulkResult),
       net (sent w) call = Some resp →
       resp_ok resp = true →
       resp_json resp = Some (OpsPage.BBulk j) →
       OpsPage.bulkMsg
         (page (exec (OpsPage.handle env net (OpsPage.ClickBulk b)) w))
       = Some ("✓ " +:+ pretty (length (Api.ok j)) +:+ " ok"
               +:+ match Api.failed j with
                   | [] => ""
                   | _ :: _ =>
                       ", " +:+ pretty (length (Api.failed j)) +:+ " failed"
                   end)).
Proof.
  intros res call. split; [|split].
  - apply bulk_partition.
  - intros before i after why σ' Hids first Hfail rest.
    split; [exact (perform_failure _ _ _ _ _ _ Hfail)|].
    subst res. rewrite Hids, bulk_app. cbn zeta. cbn [fst].
    fold first. by rewrite (bulk_failure_isolated _ _ _ _ _ _ _ Hfail).
  - intros resp j Hnet Hok Hjson.
    pose proof (bulkAction_message env net (OpsPage.endpoint b)
                  (OpsPage.bulk_body b (page w)) w) as Hmsg.
    cbn zeta in Hmsg. fold call in Hmsg.
    rewrite Hnet, Hok, Hjson in Hmsg.
    rewrite <-bulk_message_shape. exact Hmsg.
Qed.

(** A bulk cancel from the console over a queued task, a canceled task, a
    task in processing and an id that no task has. *)
Lemma bulk_result_partitioned_witness :
  [1; 3; 2; 9] ≡ₚ [1; 2] ++ [3; 9]
  ∧ OpsPage.bulkMsg
      (page (exec (OpsPage.handle None Sample.bulk_server
                     (OpsPage.ClickBulk OpsPage.CancelAll)) Sample.ticked))
    = Some "✓ 2 ok, 2 failed".
Proof.
  destruct (bulk_result_partitioned Dispatcher.BulkCancel 200 Sample.store
              [1; 3; 2; 9] None Sample.bulk_server OpsPage.CancelAll
              Sample.ticked)
    as (Hperm & _ & Hmsg).
  split; [exact Hperm|].
  exact (Hmsg _ Sample.cancel_outcome eq_refl eq_refl eq_refl).
Defined.

(** ** The status override of the task detail page *)

(** Breaks a handler down along its binds, updates, fetches and branches. *)
Ltac keeps_auto :=
  repeat first
    [ apply keeps_ret
    | apply keeps_update; (done || tauto || auto)
    | apply keeps_read; intros ? ?
    | apply keeps_bind; [|intros ?]
    | match goal with
      | |- keeps _ _ (match ?x with _ => _ end) => destruct x
      | |- keeps _ _ (if ?x then _ else _) => destruct x
      end ].

Section TaskPageFacts.

Variable taskId : RouteId.
Variable net : Net TaskPage.Body.
Variables fetch_failure json_failure : string.

Let fetchData := TaskPage.fetchData taskId net fetch_failure json_failure.
Let handle := TaskPage.handle taskId net fetch_failure json_failure.
Let run := TaskPage.run taskId net fetch_failure json_failure.

Lemma get_is_override_shaped (url : string) : override_shaped taskId (get url).
Proof. intros H. discriminate H. Qed.

Lemma post_is_override_shaped (url : string) : override_shaped taskId (post url).
Proof. intros H. discriminate H. Qed.

Lemma done_is_override_shaped :
  override_shaped taskId
    (send_json PATCH (TaskPage.task_url taskId) (TaskPage.status_body "done" None)).
Proof.
  intros _. split; [reflexivity|]. eexists. split; [reflexivity|].
  split; [reflexivity|]. by left.
Qed.

Lemma error_is_override_shaped :
  override_shaped taskId
    (send_json PATCH (TaskPage.task_url taskId)
       (TaskPage.status_body "error" (Some "Ошибка оператора"))).
Proof.
  intros _. split; [reflexivity|]. eexists. split; [reflexivity|].
  split; [reflexivity|]. right. by eexists.
Qed.

Lemma fetchData_keeps :
  keeps (λ _, True) (override_shaped taskId) fetchData.
Proof.
  unfold fetchData, TaskPage.fetchData, TaskPage.fetchData_begin,
    TaskPage.fetchData_settle.
  keeps_auto; apply keeps_fetch, get_is_override_shaped.
Qed.

Lemma loadLog_keeps (tail : Z) :
  keeps (λ _, True) (override_shaped taskId) (TaskPage.loadLog taskId net tail).
Proof.
  unfold TaskPage.loadLog.
  keeps_auto; apply keeps_fetch, get_is_override_shaped.
Qed.

Lemma handle_keeps (ev : TaskPage.Event) :
  keeps (λ _, True) (override_shaped taskId) (handle ev).
Proof.
  unfold handle, TaskPage.handle.
  destruct ev; unfold TaskPage.handleProcess, TaskPage.handleStatusUpdate;
    keeps_auto;
    first [ apply fetchData_keeps | apply loadLog_keeps
          | apply keeps_fetch;
            first [ apply post_is_override_shaped
                  | apply done_is_override_shaped
                  | apply error_is_override_shaped ] ].
Qed.

Lemma run_keeps (evs : list TaskPage.Event) :
  keeps (λ _, True) (override_shaped taskId) (run evs).
Proof.
  induction evs as [|ev evs IH]; [apply keeps_ret|].
  apply keeps_bind; [apply handle_keeps | intros _; exact IH].
Qed.

(** What a click on an override button sends. *)
Lemma handleStatusUpdate_sent (status : string) (reason : option string)
    (w : World TaskPage.State) :
  let w' :=
    exec (TaskPage.handleStatusUpdate taskId net fetch_failure json_failure
            status reason) w in
  let call :=
    send_json PATCH (TaskPage.task_url taskId)
      (TaskPage.status_body status reason) in
  if truthy taskId then
    ∃ reload, sent w' = sent w ++ call :: reload
              ∧ Forall (λ r, req_method r = GET) reload
  else w' = w.
Proof.
  unfold TaskPage.handleStatusUpdate, TaskPage.fetchData,
    TaskPage.fetchData_begin, TaskPage.fetchData_settle.
  destruct (truthy taskId) eqn:Hid; [|reflexivity].
  act_step.
  destruct (net _ _) as [[ok st tx js]|]; cbn -[String.append];
    [destruct ok; cbn -[String.append]|].
  - match goal with
    | |- context [net ?h ?r] =>
        destruct (net h r) as [[ok' st' tx' [[d|t]|]]|]; cbn -[String.append];
          try destruct ok'; cbn -[String.append]
    end;
      (eexists; split;
       [rewrite <-app_assoc; cbn -[String.append]; reflexivity
       | repeat constructor]).
  - exists []. split; [reflexivity | constructor].
  - exists []. split; [reflexivity | constructor].
Qed.

End TaskPageFacts.

(** C5. Whatever the operator does on the task detail page, every PATCH that
    the page sends goes to [/api/publish-tasks/{taskId}] with a JSON body of
    exactly the fields [status] and [error_text], and the body is either
    [{status: "done", error_text: null}] or [{status: "error", error_text}]
    with a text.  The two override buttons send exactly these two requests,
    followed at most by GETs that reload the page, and nothing at all when
    the route id is not a number or is zero. *)
Theorem status_override_requests (taskId : RouteId) (net : Net TaskPage.Body)
    (fetch_failure json_failure : string) (evs : list TaskPage.Event)
    (w : World TaskPage.State) :
  let handle := TaskPage.handle taskId net fetch_failure json_failure in
  let sends (ev : TaskPage.Event) (body : Json) : Prop :=
    if truthy taskId then
      ∃ reload,
        sent (exec (handle ev) w)
        = sent w
          ++ send_json PATCH ("/api/publish-tasks/" +:+ show_id taskId) body
             :: reload
        ∧ Forall (λ r, req_method r = GET) reload
    else exec (handle ev) w = w in
  Forall (override_shaped taskId)
    (sent (exec (TaskPage.run taskId net fetch_failure json_failure evs)
             (mkWorld TaskPage.initial [])))
  ∧ sends TaskPage.ClickMarkDone
      (JObj [("status", JStr "done"); ("error_text", JNull)])
  ∧ sends TaskPage.ClickMarkError
      (JObj [("status", JStr "error");
             ("error_text", JStr "Ошибка оператора")]).
Proof.
  intros handle sends. split; [|split].
  - apply (run_keeps taskId net fetch_failure json_failure evs
             (mkWorld TaskPage.initial [])).
    split; [exact I | constructor].
  - exact (handleStatusUpdate_sent taskId net fetch_failure json_failure
             "done" None w).
  - exact (handleStatusUpdate_sent taskId net fetch_failure json_failure
             "error" (Some "Ошибка оператора") w).
Qed.

(** The page of task 41: opened, marked as error, marked as done. *)
Example status_override_session :
  (λ r, (req_method r, req_url r, req_body r))
  <$> sent (exec (TaskPage.run (Id 41) Sample.task_server "" ""
                    [TaskPage.Mount; TaskPage.ClickMarkError;
                     TaskPage.ClickMarkDone])
              (mkWorld TaskPage.initial []))
  = [(GET, "/api/publish-tasks/41/ui", None);
     (GET, "/api/publish-tasks/41/log?tail=200", None);
     (GET, "/api/publish-tasks/41/log?tail=200", None);
     (PATCH, "/api/publish-tasks/41",
      Some (JObj [("status", JStr "error");
                  ("error_text", JStr "Ошибка оператора")]));
     (GET, "/api/publish-tasks/41/ui", None);
     (PATCH, "/api/publish-tasks/41",
      Some (JObj [("status", JStr "done"); ("error_text", JNull)]));
     (GET, "/api/publish-tasks/41/ui", None)].
Proof. vm_compute. reflexivity. Qed.

(** ** The calendar *)

Section Calendar.

(** A day of the era lies in one of its 400 years, on one of at most 366
    days, the 366th only in a long year. *)
Lemma year_split (doe : Z) :
  0 ≤ doe ≤ 146096 →
  0 ≤ year_of_era doe ≤ 399
  ∧ 0 ≤ doe - year_start (year_of_era doe) ≤ 365
  ∧ (doe - year_start (year_of_era doe) = 365 → long_year (year_of_era doe)).
Proof.
  unfold year_start, year_of_era, long_year. intros H.
  Z.div_mod_to_equations. lia.
Qed.

(** From one day of the era to the next, the year stays or the next year
    begins; it begins after day 365 of a long year or day 364 of another. *)
Lemma year_step (doe y y' : Z) :
  0 ≤ y ≤ 399 → 0 ≤ y' ≤ 399 →
  0 ≤ doe - year_start y ≤ 365 →
  0 ≤ doe + 1 - year_start y' ≤ 365 →
  (doe - year_start y = 365 → long_year y) →
  (doe + 1 - year_start y' = 365 → long_year y') →
  (y' = y ∧ doe - year_start y ≤ 364)
  ∨ (y' = y + 1 ∧ doe + 1 - year_start y' = 0
     ∧ (doe - year_start y = 365
        ∨ (doe - year_start y = 364 ∧ ¬ long_year y))).
Proof.
  unfold year_start, long_year. intros.
  Z.div_mod_to_equations. lia.
Qed.

(** A year of the era is long when the calendar year that holds its
    February is a leap year. *)
Lemma leap_year_long (yoe era : Z) :
  0 ≤ yoe ≤ 399 →
  leap_year (yoe + era * 400 + 1) = true ↔ long_year yoe.
Proof.
  intros H. unfold leap_year, long_year.
  rewrite andb_true_iff, orb_true_iff, !bool_decide_eq_true.
  Z.div_mod_to_equations. lia.
Qed.

(** From one day of the year to the next, the day of the month grows by one
    or the next month begins, after the 31st or the 30th as the month has
    it. *)
Lemma month_step (doy : Z) :
  0 ≤ doy ≤ 364 →
  let mp := month_index doy in
  let d := doy - month_start mp + 1 in
  let mp' := month_index (doy + 1) in
  let d' := doy + 1 - month_start mp' + 1 in
  0 ≤ mp ≤ 11
  ∧ ((mp' = mp ∧ d' = d + 1
      ∧ d < (if decide (mp = 11) then 29
             else if decide (mp = 1 ∨ mp = 3 ∨ mp = 6 ∨ mp = 8) then 30 else 31)
      ∧ (mp = 11 → doy ≤ 363 → d < 28)
      ∧ (doy = 364 → mp = 11 ∧ d = 28))
     ∨ (mp' = mp + 1 ∧ d' = 1 ∧ mp < 11
        ∧ d = (if decide (mp = 1 ∨ mp = 3 ∨ mp = 6 ∨ mp = 8) then 30 else 31))).
Proof.
  intros H. unfold month_index, month_start. cbv zeta.
  repeat case_decide; Z.div_mod_to_equations; lia.
Qed.

Ltac tuple_eq := repeat match goal with |- (_, _) = (_, _) => f_equal end.

(** Inside a March-based year. *)
Lemma next_day_same_year (era yoe doy : Z) :
  0 ≤ yoe ≤ 399 → 0 ≤ doy ≤ 364 →
  (doy = 364 → long_year yoe) →
  date_in_year era yoe (doy + 1) = next_day (date_in_year era yoe doy).
Proof.
  intros Hy Hd Hlong. unfold date_in_year, next_day, days_in_month. cbv zeta.
  pose proof (month_step doy Hd) as Hstep. cbv zeta in Hstep.
  pose proof (leap_year_long yoe era Hy) as Hleap.
  assert (doy = 364 → leap_year (yoe + era * 400 + 1) = true) as Hfeb29
    by (intros H364; apply Hleap, Hlong, H364).
  clear Hleap Hlong.
  generalize dependent (month_index (doy + 1)). intros mp'.
  generalize dependent (month_index doy). intros mp.
  generalize dependent (month_start mp'). intros s'.
  generalize dependent (month_start mp). intros s.
  intros (Hmp & Hcases).
  destruct Hcases as [(-> & Hd' & Hlt & Hfeb & Hlast)|(-> & Hd' & Hmp11 & Hlen)].
  - destruct (decide (mp < 10)) as [Hlo|Hhi].
    + (* March to December *)
      destruct (decide (mp + 3 ≤ 2)); [lia|].
      destruct (decide (mp + 3 = 2)); [lia|].
      repeat case_decide; tuple_eq; lia.
    + destruct (decide (mp - 9 ≤ 2)); [|lia].
      destruct (decide (mp - 9 = 2)) as [Hfebr|Hjan].
      * (* February *)
        assert (mp = 11) as -> by lia.
        destruct (decide (doy = 364)) as [H364|].
        -- rewrite (Hfeb29 H364). repeat case_decide; tuple_eq; lia.
        -- destruct (leap_year _); repeat case_decide; tuple_eq; lia.
      * repeat case_decide; tuple_eq; lia.
  - destruct (decide (mp < 10)) as [Hlo|Hhi].
    + destruct (decide (mp + 3 ≤ 2)); [lia|].
      destruct (decide (mp + 3 = 2)); [lia|].
      repeat case_decide; tuple_eq; lia.
    + assert (mp = 10) as -> by lia.
      repeat case_decide; tuple_eq; lia.
Qed.

(** Across the end of a March-based year: the last day of February. *)
Lemma next_day_new_year (era yoe doy : Z) :
  0 ≤ yoe ≤ 399 →
  (doy = 365 ∧ long_year yoe) ∨ (doy = 364 ∧ ¬ long_year yoe) →
  date_in_year era (yoe + 1) 0 = next_day (date_in_year era yoe doy).
Proof.
  intros Hy Hcases.
  pose proof (leap_year_long yoe era Hy) as Hleap.
  unfold date_in_year, next_day, days_in_month. cbv zeta.
  destruct Hcases as [[-> Hlong]|[-> Hshort]].
  - change (month_index 365) with 11. change (month_index 0) with 0.
    change (month_start 11) with 337. change (month_start 0) with 0.
    change (if decide (11 < 10) then 11 + 3 else 11 - 9) with 2.
    change (if decide (0 < 10) then 0 + 3 else 0 - 9) with 3.
    change (if decide (2 ≤ 2) then 1 else 0) with 1.
    change (if decide (3 ≤ 2) then 1 else 0) with 0.
    apply Hleap in Hlong. rewrite Hlong.
    repeat case_decide; tuple_eq; lia.
  - change (month_index 364) with 11. change (month_index 0) with 0.
    change (month_start 11) with 337. change (month_start 0) with 0.
    change (if decide (11 < 10) then 11 + 3 else 11 - 9) with 2.
    change (if decide (0 < 10) then 0 + 3 else 0 - 9) with 3.
    change (if decide (2 ≤ 2) then 1 else 0) with 1.
    change (if decide (3 ≤ 2) then 1 else 0) with 0.
    destruct (leap_year _); [exfalso; by apply Hshort, Hleap|].
    repeat case_decide; tuple_eq; lia.
Qed.

(** The first of March that opens an era is also the one after year 399 of
    the era before. *)
Lemma date_in_next_era (era : Z) :
  date_in_year (era + 1) 0 0 = date_in_year era 400 0.
Proof.
  unfold date_in_year. cbv zeta. change (month_index 0) with 0.
  repeat case_decide; tuple_eq; lia.
Qed.

(** The day number after [n] is the calendar day after the day of [n]. *)
Lemma civil_from_days_succ (n : Z) :
  civil_from_days (n + 1) = next_day (civil_from_days n).
Proof.
  unfold civil_from_days. cbv zeta.
  replace (n + 1 + 719468) with (n + 719468 + 1) by lia.
  set (z := n + 719468).
  pose proof (Z.div_mod z 146097 ltac:(lia)) as Hz.
  pose proof (Z.mod_pos_bound z 146097 ltac:(lia)) as Hr.
  set (era := z / 146097) in *.
  assert (0 ≤ z - era * 146097 ≤ 146096) as Hdoe by lia.
  set (doe := z - era * 146097) in *.
  destruct (decide (doe = 146096)) as [Hlast|Hmid].
  - assert ((z + 1) / 146097 = era + 1) as ->.
    { symmetry. apply (Z.div_unique _ _ _ 0); lia. }
    replace (z + 1 - (era + 1) * 146097) with 0 by lia.
    rewrite Hlast.
    change (year_of_era 146096) with 399. change (year_of_era 0) with 0.
    change (146096 - year_start 399) with 365. change (0 - year_start 0) with 0.
    rewrite date_in_next_era.
    apply (next_day_new_year era 399 365); [lia|].
    left. split; [reflexivity|]. unfold long_year. split; [reflexivity|by right].
  - assert ((z + 1) / 146097 = era) as ->.
    { symmetry. apply (Z.div_unique _ _ _ (doe + 1)); lia. }
    replace (z + 1 - era * 146097) with (doe + 1) by lia.
    destruct (year_split doe Hdoe) as (Hy & Hd & Hl).
    destruct (year_split (doe + 1) ltac:(lia)) as (Hy' & Hd' & Hl').
    destruct (year_step doe _ _ Hy Hy' Hd Hd' Hl Hl')
      as [[Hsame Hle]|(Hnext & Hzero & Hend)].
    + rewrite Hsame in *.
      replace (doe + 1 - year_start (year_of_era doe))
        with (doe - year_start (year_of_era doe) + 1) by lia.
      apply next_day_same_year; [lia | lia |].
      intros H364. apply Hl'. lia.
    + rewrite Hzero, Hnext.
      apply next_day_new_year; [lia|].
      destruct Hend as [H365|[H364 Hshort]]; [left | right]; auto.
Qed.

(** A day later on the clock is the next day number. *)
Lemma day_number_next (ms : Z) : day_number (ms + ms_per_day) = day_number ms + 1.
Proof.
  unfold day_number, ms_per_day.
  replace (ms + 86400000) with (ms + 1 * 86400000) by lia.
  by rewrite Z.div_add by lia.
Qed.

(** From the epoch to the end of the year 9999 the year has four digits. *)
Lemma civil_from_days_range (n : Z) :
  0 ≤ n < 2932897 →
  let '(y, m, d) := civil_from_days n in
  1970 ≤ y ≤ 9999 ∧ 1 ≤ m ≤ 12 ∧ 1 ≤ d ≤ 31.
Proof.
  intros H.
  unfold civil_from_days, date_in_year, year_of_era, year_start, month_index,
    month_start. cbv zeta.
  repeat case_decide; Z.div_mod_to_equations; lia.
Qed.

Lemma digit_is_digit (d : Z) : is_digit (digit d) = true.
Proof.
  destruct d as [|p|p]; try reflexivity.
  do 4 (destruct p as [p|p|]; try reflexivity).
Qed.

Lemma date_text_shape (y m d : Z) :
  0 ≤ y ≤ 9999 →
  is_date_shape (date_text (y, m, d)) = true
  ∧ substring 0 10 (date_text (y, m, d)) = date_text (y, m, d).
Proof.
  intros Hy. unfold date_text, year_text.
  destruct (decide (0 ≤ y ≤ 9999)); [|lia].
  unfold pad4, pad2, is_date_shape.
  cbv beta iota delta [String.append substring forallb].
  rewrite !digit_is_digit. split; reflexivity.
Qed.

(** The date of a time value between the epoch and the end of 9999. *)
Lemma utc_date_text (ms : Z) :
  0 ≤ ms < 253402300800000 →
  utc_date ms = date_text (civil_from_days (day_number ms))
  ∧ is_date_shape (utc_date ms) = true.
Proof.
  intros Hms. unfold utc_date.
  assert (0 ≤ day_number ms < 2932897) as Hday.
  { unfold day_number, ms_per_day. Z.div_mod_to_equations. lia. }
  pose proof (civil_from_days_range _ Hday) as Hr.
  destruct (civil_from_days (day_number ms)) as [[y m] d].
  destruct (date_text_shape y m d ltac:(lia)) as [Hshape Hsub].
  rewrite Hsub. by split.
Qed.

End Calendar.

(** ** The plan page *)

Lemma priority_options_range (k : nat) (v : Z) :
  PlanPage.priority_options !! k = Some v → -10 ≤ v ≤ 10.
Proof.
  intros Hk.
  assert (Forall (λ v, -10 ≤ v ≤ 10) PlanPage.priority_options) as Hall.
  { vm_compute. repeat constructor; discriminate. }
  exact (Forall_lookup_1 _ _ _ _ Hall Hk).
Qed.

Section PlanPageFacts.

Variable env : option string.
Variable projectId : RouteId.
Variable net : Net PlanPage.Body.

Lemma selectedDate_cases (c : PlanPage.Clock) (s : PlanPage.State) :
  sane c →
  is_date_shape (PlanPage.selectedDate c s) = true
  ∧ (PlanPage.selectedDate c s
     = date_text (civil_from_days (day_number (PlanPage.read_for_today c)))
     ∨ PlanPage.selectedDate c s
       = date_text (next_day (civil_from_days
                      (day_number (PlanPage.read_for_tomorrow c))))).
Proof.
  intros (Ht & Hm0 & Hm1). unfold PlanPage.selectedDate.
  destruct (PlanPage.dateChoice s).
  - unfold PlanPage.today.
    destruct (utc_date_text (PlanPage.read_for_today c) Ht) as [-> Hshape].
    split; [|by left].
    destruct (utc_date_text (PlanPage.read_for_today c) Ht) as [<- ?]. done.
  - unfold PlanPage.tomorrow.
    destruct (utc_date_text (PlanPage.read_for_tomorrow c + 86400000)
                ltac:(lia)) as [Htext Hshape].
    split; [exact Hshape|]. right. rewrite Htext.
    change 86400000 with ms_per_day.
    by rewrite day_number_next, civil_from_days_succ.
Qed.

Lemma plan_request_dated (C : PlanPage.Clock → Prop) (c : PlanPage.Clock)
    (s : PlanPage.State) :
  C c → sane c →
  plan_requests_dated env projectId C
    (get (PlanPage.plan_url env projectId (PlanPage.selectedDate c s))).
Proof.
  intros HC Hsane _. exists c. split; [exact HC|].
  destruct (selectedDate_cases c s Hsane) as [Hshape Hcases].
  exists (PlanPage.selectedDate c s). split; [reflexivity|]. by split.
Qed.

Lemma send_json_not_get (C : PlanPage.Clock → Prop) (url : string) (b : Json) :
  plan_requests_dated env projectId C (send_json POST url b).
Proof. intros H. discriminate H. Qed.

Lemma plan_handle_dated (C : PlanPage.Clock → Prop) (c : PlanPage.Clock)
    (ev : PlanPage.Event) :
  C c → sane c →
  keeps (λ _, True) (plan_requests_dated env projectId C)
    (PlanPage.handle env projectId net c ev).
Proof.
  intros HC Hsane.
  destruct ev; unfold PlanPage.handle, PlanPage.loadPlan, PlanPage.applyPlan,
    PlanPage.showToast;
    keeps_auto;
    apply keeps_fetch;
    first [ by apply plan_request_dated | apply send_json_not_get ].
Qed.

Lemma plan_run_dated (C : PlanPage.Clock → Prop)
    (evs : list (PlanPage.Clock * PlanPage.Event)) :
  Forall (λ ce, C ce.1 ∧ sane ce.1) evs →
  keeps (λ _, True) (plan_requests_dated env projectId C)
    (PlanPage.run env projectId net evs).
Proof.
  induction 1 as [|[c ev] evs [HC Hsane] _ IH]; [apply keeps_ret|].
  apply keeps_bind; [by apply plan_handle_dated | intros _; exact IH].
Qed.

(** What the handler of one event adds to the log: at most one request,
    and a GET among it is the plan request of the render whose closure
    runs. *)
Lemma plan_handle_added (c : PlanPage.Clock) (ev : PlanPage.Event)
    (w : World PlanPage.State) :
  sane c →
  ∃ added,
    sent (exec (PlanPage.handle env projectId net c ev) w) = sent w ++ added
    ∧ Forall (λ r, req_method r = GET → plan_request_of env projectId c r)
        added.
Proof.
  intros Hsane.
  assert (∀ s, plan_request_of env projectId c
                 (get (PlanPage.plan_url env projectId
                         (PlanPage.selectedDate c s)))) as Hdated.
  { intros s. destruct (selectedDate_cases c s Hsane) as [Hshape Hcases].
    exists (PlanPage.selectedDate c s). split; [reflexivity|]. by split. }
  destruct w as [s log].
  destruct ev; cbn [PlanPage.handle];
    try (exists []; split; [symmetry; apply app_nil_r | constructor]).
  - destruct (PlanPage.priority_options !! option_index);
      exists []; (split; [symmetry; apply app_nil_r | constructor]).
  - unfold PlanPage.loadPlan, PlanPage.showToast.
    destruct (truthy projectId); cbn [negb];
      [|exists []; split; [symmetry; apply app_nil_r | constructor]].
    exists [get (PlanPage.plan_url env projectId (PlanPage.selectedDate c s))].
    split; [|constructor; [intros _; apply Hdated | constructor]].
    act_step.
    destruct (net _ _) as [[ok st tx [data|]]|]; cbn -[String.append];
      try destruct ok; cbn -[String.append]; try reflexivity.
    destruct (PlanPage.error_of data) as [msg|]; [|reflexivity].
    by destruct (decide (msg = "")).
  - unfold PlanPage.applyPlan, PlanPage.showToast.
    destruct (truthy projectId); cbn [negb];
      [|exists []; split; [symmetry; apply app_nil_r | constructor]].
    exists [send_json POST (PlanPage.apply_url env projectId)
              (PlanPage.apply_body c s enqueue)].
    split; [|constructor; [intros Hget; discriminate Hget | constructor]].
    act_step.
    destruct (net _ _) as [[ok st tx [[pl|data]|]]|]; cbn -[String.append];
      try destruct ok; cbn -[String.append]; reflexivity.
Qed.

End PlanPageFacts.

(** C8. Every GET that the plan page sends is a plan request
    [/api/projects/{projectId}/publish-plan?date=d] whose date [d] has the
    form YYYY-MM-DD and is either the UTC date at the clock reading behind
    [today] or the calendar day after the UTC date at the clock reading
    behind [tomorrow], both of the render whose handler sent the request:
    whatever the page has done before, the requests that the handler of an
    event adds to the log are dated by the clock of that event's render and
    by no other.  Over a whole session, therefore, every GET in the log is
    the plan request of one of its renders. *)
Theorem plan_requests_today_or_tomorrow (env : option string)
    (projectId : RouteId) (net : Net PlanPage.Body)
    (c : PlanPage.Clock) (ev : PlanPage.Event) (w : World PlanPage.State)
    (evs : list (PlanPage.Clock * PlanPage.Event)) :
  sane c →
  Forall (λ ce, sane ce.1) evs →
  (∃ added,
     sent (exec (PlanPage.handle env projectId net c ev) w) = sent w ++ added
     ∧ Forall (λ r, req_method r = GET → plan_request_of env projectId c r)
         added)
  ∧ Forall
      (λ r, req_method r = GET →
            ∃ c', c' ∈ evs.*1 ∧ plan_request_of env projectId c' r)
      (sent (exec (PlanPage.run env projectId net evs)
               (mkWorld PlanPage.initial []))).
Proof.
  intros Hc Hsane. split.
  - by apply plan_handle_added.
  - apply (plan_run_dated env projectId net (λ c', c' ∈ evs.*1) evs).
    + apply Forall_forall. intros [c' ev'] Hin. split.
      * apply list_elem_of_fmap. by exists (c', ev').
      * rewrite Forall_forall in Hsane. exact (Hsane _ Hin).
    + split; [exact I | constructor].
Qed.

Lemma plan_requests_today_or_tomorrow_witness :
  (∃ added,
     sent (exec (PlanPage.handle None (Id 3) Sample.plan_server
                   Sample.evening_clock PlanPage.ClickBuild)
             Sample.plan_loaded)
     = sent Sample.plan_loaded ++ added
     ∧ Forall (λ r, req_method r = GET →
                    plan_request_of None (Id 3) Sample.evening_clock r) added)
  ∧ req_url
      <$> sent (exec (PlanPage.handle None (Id 3) Sample.plan_server
                        Sample.evening_clock PlanPage.ClickBuild)
                  Sample.plan_loaded)
    = ["/api/projects/3/publish-plan?date=2026-11-03"]
  ∧ req_url
      <$> sent (exec (PlanPage.run None (Id 3) Sample.plan_server
                        Sample.session) (mkWorld PlanPage.initial []))
    = ["/api/projects/3/publish-plan?date=2026-11-02";
       "/api/projects/3/publish-plan?date=2026-11-03";
       "/api/projects/3/publish-plan/apply"].
Proof.
  split; [|split; vm_compute; reflexivity].
  apply (plan_requests_today_or_tomorrow None (Id 3) Sample.plan_server
           Sample.evening_clock PlanPage.ClickBuild Sample.plan_loaded
           Sample.session).
  - repeat split; cbn; lia.
  - repeat constructor; cbn; lia.
Defined.

(** ** Applying a plan *)

Section PlanApplyFacts.

Variable env : option string.
Variable projectId : RouteId.
Variable net : Net PlanPage.Body.

(** With a route id that is not a number, or zero, [applyPlan] returns at
    once; the page then shows no button that could call it. *)
Lemma applyPlan_without_project (c : PlanPage.Clock) (enqueue : bool)
    (w : World PlanPage.State) :
  truthy projectId = false →
  PlanPage.applyPlan env projectId net c enqueue w = ((), w)
  ∧ ∀ ev, PlanPage.offered projectId ev (page w) = false.
Proof.
  intros Hid. unfold PlanPage.applyPlan, PlanPage.offered. rewrite Hid.
  split; reflexivity.
Qed.

Lemma applyPlan_sent (c : PlanPage.Clock) (enqueue : bool)
    (w : World PlanPage.State) :
  truthy projectId = true →
  let call :=
    send_json POST (PlanPage.apply_url env projectId)
      (PlanPage.apply_body c (page w) enqueue) in
  let w' := exec (PlanPage.applyPlan env projectId net c enqueue) w in
  sent w' = sent w ++ [call]
  ∧ PlanPage.applying (page w') = false
  ∧ match net (sent w) call with
    | Some resp =>
        if resp_ok resp then
          match resp_json resp with
          | Some data =>
              PlanPage.applyResult (page w') = Some data
              ∧ PlanPage.toast (page w')
                = Some match data with
                       | PlanPage.BApply result =>
                           PlanPage.mkToast (PlanPage.applied_message result)
                             PlanPage.success
                       | PlanPage.BPlan _ =>
                           PlanPage.mkToast "Сетевая ошибка" PlanPage.failure
                       end
          | None =>
              PlanPage.applyResult (page w') = PlanPage.applyResult (page w)
              ∧ PlanPage.toast (page w')
                = Some (PlanPage.mkToast "Сетевая ошибка" PlanPage.failure)
          end
        else
          PlanPage.applyResult (page w') = PlanPage.applyResult (page w)
          ∧ PlanPage.toast (page w')
            = Some (PlanPage.mkToast "Ошибка применения" PlanPage.failure)
    | None =>
        PlanPage.applyResult (page w') = PlanPage.applyResult (page w)
        ∧ PlanPage.toast (page w')
          = Some (PlanPage.mkToast "Сетевая ошибка" PlanPage.failure)
    end.
Proof.
  intros Hid. unfold PlanPage.applyPlan, PlanPage.showToast. rewrite Hid.
  destruct w as [s log]. act_step.
  change (PlanPage.apply_body c (PlanPage.setApplying true s) enqueue)
    with (PlanPage.apply_body c s enqueue).
  destruct (net _ _) as [[ok st tx [[pl|data]|]]|]; cbn -[String.append];
    try destruct ok; cbn -[String.append]; repeat split.
Qed.

End PlanApplyFacts.

(** C6. Every invocation of the plan-apply action, that is every click on
    one of the two apply buttons that the page offers, with [enqueue] the
    argument of the button: exactly one request is sent; it is a POST to
    [/api/projects/{projectId}/publish-plan/apply] whose JSON body has
    exactly the keys [date], [base_priority] and [enqueue], holding the
    selected plan date, the chosen base priority and the argument; a
    successful answer is kept as the [ApplyResult] it is, with its [ok] and
    [failed] lists and its optional [plan_summary]. *)
Theorem plan_apply_request (env : option string) (projectId : RouteId)
    (net : Net PlanPage.Body) (c : PlanPage.Clock) (enqueue : bool)
    (w : World PlanPage.State) :
  PlanPage.offered projectId (PlanPage.ClickApply enqueue) (page w) = true →
  let body :=
    JObj [("date", JStr (PlanPage.selectedDate c (page w)));
          ("base_priority", JNum (PlanPage.basePriority (page w)));
          ("enqueue", JBool enqueue)] in
  let call :=
    send_json POST
      (or_default env "" +:+ "/api/projects/" +:+ show_id projectId
       +:+ "/publish-plan/apply") body in
  let w' :=
    exec (PlanPage.handle env projectId net c (PlanPage.ClickApply enqueue)) w in
  sent w' = sent w ++ [call]
  ∧ keys body = ["date"; "base_priority"; "enqueue"]
  ∧ (∀ (resp : Response PlanPage.Body) (data : Api.ApplyResult),
       net (sent w) call = Some resp →
       resp_ok resp = true →
       resp_json resp = Some (PlanPage.BApply data) →
       PlanPage.applyResult (page w') = Some (PlanPage.BApply data)
       ∧ PlanPage.toast (page w')
         = Some (PlanPage.mkToast
                   ("Применено: " +:+ pretty (length (Api.apply_ok data))
                    +:+ " задач, "
                    +:+ pretty (length (Api.apply_failed data))
                    +:+ " пропущено") PlanPage.success)).
Proof.
  intros Hoff body call w'.
  assert (truthy projectId = true) as Hid.
  { unfold PlanPage.offered in Hoff.
    apply andb_prop in Hoff as [Hoff _]. by apply andb_prop in Hoff as [? _]. }
  pose proof (applyPlan_sent env projectId net c enqueue w Hid)
    as (Hsent & _ & Hresp).
  split; [exact Hsent|]. split; [reflexivity|].
  intros resp data Hnet Hok Hjson. cbn zeta in Hresp.
  change (send_json POST (PlanPage.apply_url env projectId)
            (PlanPage.apply_body c (page w) enqueue)) with call in Hresp.
  rewrite Hnet, Hok, Hjson in Hresp. exact Hresp.
Qed.

Lemma plan_apply_request_witness :
  let w' :=
    exec (PlanPage.handle None (Id 3) Sample.plan_server Sample.evening_clock
            (PlanPage.ClickApply true)) Sample.plan_loaded in
  sent w'
  = [send_json POST "/api/projects/3/publish-plan/apply"
       (JObj [("date", JStr "2026-11-03"); ("base_priority", JNum 2);
              ("enqueue", JBool true)])]
  ∧ PlanPage.applyResult (page w') = Some (PlanPage.BApply Sample.applied).
Proof.
  destruct (plan_apply_request None (Id 3) Sample.plan_server
              Sample.evening_clock true Sample.plan_loaded eq_refl)
    as (Hsent & _ & Hresp).
  split; [exact Hsent|].
  exact (proj1 (Hresp _ Sample.applied eq_refl eq_refl eq_refl)).
Defined.

(** ** Priorities that leave the pages *)

Lemma ops_priority_options_range (k : nat) (v : Z) :
  OpsPage.priority_options !! k = Some v → -10 ≤ v ≤ 10.
Proof. exact (priority_options_range k v). Qed.

Lemma no_body_in_range (m : Method) (url : string) :
  priority_in_range (mkRequest m url [] None).
Proof. intros p H. discriminate H. Qed.

Section OpsPageFacts.

Variable env : option string.
Variable net : Net OpsPage.Body.

Let in_range (s : OpsPage.State) : Prop := -10 ≤ OpsPage.bulkPriority s ≤ 10.

Lemma bulk_body_in_range (b : OpsPage.BulkButton) (s : OpsPage.State)
    (url : string) :
  in_range s → priority_in_range (send_json POST url (OpsPage.bulk_body b s)).
Proof.
  intros Hs p. destruct b; cbn; intros H; try discriminate H.
  injection H as <-. exact Hs.
Qed.

Lemma ops_loadHealth_range :
  keeps in_range priority_in_range (OpsPage.loadHealth env net).
Proof.
  unfold OpsPage.loadHealth. keeps_auto. apply keeps_fetch, no_body_in_range.
Qed.

Lemma ops_loadTasks_range :
  keeps in_range priority_in_range (OpsPage.loadTasks env net).
Proof.
  unfold OpsPage.loadTasks. keeps_auto. apply keeps_fetch, no_body_in_range.
Qed.

Lemma ops_handle_range (ev : OpsPage.Event) :
  keeps in_range priority_in_range (OpsPage.handle env net ev).
Proof.
  destruct ev as [| |st|k|dry|i| |b|k]; cbn [OpsPage.handle].
  - apply keeps_bind; [apply ops_loadHealth_range|intros _; apply ops_loadTasks_range].
  - apply keeps_bind; [apply ops_loadHealth_range|intros _; apply ops_loadTasks_range].
  - unfold OpsPage.filter_to, OpsPage.effect_after. keeps_auto;
      first [ apply ops_loadHealth_range | apply ops_loadTasks_range
            | apply keeps_fetch, no_body_in_range ].
  - destruct (OpsPage.STATUSES !! k); [|apply keeps_ret].
    unfold OpsPage.filter_to, OpsPage.effect_after. keeps_auto;
      first [ apply ops_loadHealth_range | apply ops_loadTasks_range
            | apply keeps_fetch, no_body_in_range ].
  - unfold OpsPage.runWatchdog. keeps_auto;
      first [apply ops_loadHealth_range | apply keeps_fetch, no_body_in_range].
  - unfold OpsPage.toggleSelect. keeps_auto.
  - unfold OpsPage.toggleAll. keeps_auto.
  - apply keeps_read. intros s Hs. unfold OpsPage.bulkAction. keeps_auto;
      first [ apply ops_loadHealth_range | apply ops_loadTasks_range
            | apply keeps_fetch, no_body_in_range
            | by apply keeps_fetch, bulk_body_in_range ].
  - destruct (OpsPage.priority_options !! k) as [v|] eqn:Hk; [|apply keeps_ret].
    apply keeps_update. intros s _. exact (ops_priority_options_range k v Hk).
Qed.

Lemma ops_run_range (evs : list OpsPage.Event) :
  keeps in_range priority_in_range (OpsPage.run env net evs).
Proof.
  induction evs as [|ev evs IH]; [apply keeps_ret|].
  apply keeps_bind; [apply ops_handle_range | intros _; exact IH].
Qed.

End OpsPageFacts.

Section PlanPriorityFacts.

Variable env : option string.
Variable projectId : RouteId.
Variable net : Net PlanPage.Body.

Let in_range (s : PlanPage.State) : Prop := -10 ≤ PlanPage.basePriority s ≤ 10.

Lemma apply_body_in_range (c : PlanPage.Clock) (s : PlanPage.State)
    (enqueue : bool) (url : string) :
  in_range s →
  priority_in_range (send_json POST url (PlanPage.apply_body c s enqueue)).
Proof. intros Hs p H. injection H as <-. exact Hs. Qed.

Lemma plan_handle_range (c : PlanPage.Clock) (ev : PlanPage.Event) :
  keeps in_range priority_in_range (PlanPage.handle env projectId net c ev).
Proof.
  destruct ev as [| |k| |enqueue|]; cbn [PlanPage.handle].
  - keeps_auto.
  - keeps_auto.
  - destruct (PlanPage.priority_options !! k) as [v|] eqn:Hk; [|apply keeps_ret].
    apply keeps_update. intros s _. exact (priority_options_range k v Hk).
  - unfold PlanPage.loadPlan, PlanPage.showToast. keeps_auto.
    apply keeps_fetch, no_body_in_range.
  - unfold PlanPage.applyPlan, PlanPage.showToast.
    destruct (negb (truthy projectId)); [apply keeps_ret|].
    apply keeps_bind; [keeps_auto|intros _].
    apply keeps_read. intros s Hs. keeps_auto.
    by apply keeps_fetch, apply_body_in_range.
  - keeps_auto.
Qed.

Lemma plan_run_range (evs : list (PlanPage.Clock * PlanPage.Event)) :
  keeps in_range priority_in_range (PlanPage.run env projectId net evs).
Proof.
  induction evs as [|[c ev] evs IH]; [apply keeps_ret|].
  apply keeps_bind; [apply plan_handle_range | intros _; exact IH].
Qed.

End PlanPriorityFacts.

(** C9. The two priority selects offer the integers from +10 down to -10 and
    nothing else.  Whatever the operator does on the operations console or on
    the plan page, the bulk priority and the base priority stay within
    [-10, +10], and so does every priority that a request of either page
    carries, be it the [priority] of a bulk set-priority or the
    [base_priority] of a plan apply. *)
Theorem ui_priorities_within_ten
    (ops_env plan_env : option string) (ops_net : Net OpsPage.Body)
    (plan_net : Net PlanPage.Body) (projectId : RouteId)
    (ops_events : list OpsPage.Event)
    (plan_events : list (PlanPage.Clock * PlanPage.Event)) :
  let ops :=
    exec (OpsPage.run ops_env ops_net ops_events) (mkWorld OpsPage.initial []) in
  let planning :=
    exec (PlanPage.run plan_env projectId plan_net plan_events)
      (mkWorld PlanPage.initial []) in
  OpsPage.priority_options
  = [10; 9; 8; 7; 6; 5; 4; 3; 2; 1; 0; -1; -2; -3; -4; -5; -6; -7; -8; -9; -10]
  ∧ PlanPage.priority_options = OpsPage.priority_options
  ∧ -10 ≤ OpsPage.bulkPriority (page ops) ≤ 10
  ∧ Forall priority_in_range (sent ops)
  ∧ -10 ≤ PlanPage.basePriority (page planning) ≤ 10
  ∧ Forall priority_in_range (sent planning).
Proof.
  intros ops planning.
  split; [reflexivity|]. split; [reflexivity|].
  assert (steady (λ s, -10 ≤ OpsPage.bulkPriority s ≤ 10) priority_in_range ops)
    as [Ho1 Ho2].
  { apply (ops_run_range ops_env ops_net ops_events).
    split; [cbn; lia | constructor]. }
  assert (steady (λ s, -10 ≤ PlanPage.basePriority s ≤ 10) priority_in_range
            planning) as [Hp1 Hp2].
  { apply (plan_run_range plan_env projectId plan_net plan_events).
    split; [cbn; lia | constructor]. }
  tauto.
Qed.

(** ** The watchdog *)

Section WatchdogFacts.

Import Machine.

Variable cfg : Api.WatchdogSettings.
Variable time : Z.

(** "Watchdog never acts on tasks whose status is outside {processing,
    publishing}, and never classifies a task as stuck if now - updated_at <=
    threshold." *)
Lemma stuck_is_transient_and_late (t : PublishTask) :
  Watchdog.stuck cfg time t = true →
  (status t = processing
   ∧ Api.stuck_processing_minutes cfg < time - updated_at (execution t))
  ∨ (status t = publishing
     ∧ Api.stuck_publishing_minutes cfg < time - updated_at (execution t)).
Proof.
  unfold Watchdog.stuck, Watchdog.threshold, Watchdog.age.
  destruct (status t); try discriminate;
    intros H%bool_decide_eq_true_1; [left | right]; by split.
Qed.

Lemma recover_only_stuck (t : PublishTask) :
  Watchdog.stuck cfg time t = false → Watchdog.recover cfg time t = t.
Proof. intros H. unfold Watchdog.recover. by rewrite H. Qed.

(** A dry run changes nothing; every run reports what it was asked and what
    it is configured with; the items are the decisions on the stuck tasks. *)
Lemma run_report (dry : bool) (stamp : string) (σ : gmap Z PublishTask) :
  let out := Watchdog.run dry cfg time stamp σ in
  Api.dry_run out.1 = dry
  ∧ Api.settings out.1 = cfg
  ∧ Api.run_at out.1 = stamp
  ∧ Api.stuck_count out.1 = Z.of_nat (length (Api.items out.1))
  ∧ (dry = true → out.2 = σ)
  ∧ ∀ item,
      item ∈ Api.items out.1 ↔
      ∃ k t, σ !! k = Some t ∧ Watchdog.stuck cfg time t = true
             ∧ item = Watchdog.decision dry cfg time t.
Proof.
  cbn. repeat split.
  - by rewrite length_fmap.
  - by intros ->.
  - intros (t & -> & Ht)%list_elem_of_fmap.
    unfold Watchdog.stuck_tasks in Ht.
    apply list_elem_of_filter in Ht as [Hstuck Hin].
    apply list_elem_of_fmap in Hin as ([k t'] & -> & Hin).
    apply elem_of_map_to_list in Hin. by exists k, t'.
  - intros (k & t & Hk & Hstuck & ->).
    apply list_elem_of_fmap. exists t. split; [done|].
    apply list_elem_of_filter. split; [done|].
    apply list_elem_of_fmap. exists (k, t). split; [done|].
    by apply elem_of_map_to_list.
Qed.

End WatchdogFacts.

(** Section 8: a task in processing for 45 minutes, a threshold of 30 and
    requeue switched on.  The dry run reports it, the real run requeues it. *)
Example watchdog_scenario :
  Api.items Sample.dry_report
  = [Api.mkWatchdogItem 2 3 "processing" 45 "would_requeue"
       "watchdog: stuck in processing for 45m"]
  ∧ Machine.status
      <$> (Watchdog.run false Sample.watchdog_settings 145 "" Sample.store).2
          !! 2
    = Some Machine.queued
  ∧ Api.action
      <$> Api.items
            (Watchdog.run false Sample.watchdog_settings 145 "" Sample.store).1
    = ["requeued"].
Proof. vm_compute. repeat split. Qed.

Section ConsoleWatchdog.

Variable env : option string.
Variable net : Net OpsPage.Body.

Lemma runWatchdog_sent (dryRun : bool) (w : World OpsPage.State) :
  let call := post (OpsPage.watchdog_url env dryRun) in
  let w' := exec (OpsPage.runWatchdog env net dryRun) w in
  (∃ reload, sent w' = sent w ++ call :: reload
             ∧ Forall (λ r, req_method r = GET) reload)
  ∧ OpsPage.wdLoading (page w') = false
  ∧ OpsPage.report (page w')
    = match net (sent w) call with
      | Some resp =>
          if resp_ok resp then
            match resp_json resp with
            | Some body => Some body
            | None => OpsPage.report (page w)
            end
          else OpsPage.report (page w)
      | None => OpsPage.report (page w)
      end.
Proof.
  unfold OpsPage.runWatchdog. destruct w as [s log]. act_step.
  destruct (net _ _) as [[ok st tx [body|]]|]; cbn -[String.append];
    try destruct ok; cbn -[String.append];
    try (split; [exists []; split; [reflexivity | constructor]
                | split; reflexivity]).
  match goal with
  | |- context [OpsPage.loadHealth env net ?w0] =>
      pose proof (loadHealth_frame env net w0) as (_ & Hrep & Hsent);
      unfold exec in Hrep, Hsent;
      destruct (OpsPage.loadHealth env net w0) as [u w1];
      cbn -[String.append] in Hrep, Hsent |- *
  end.
  split; [|split; [reflexivity | exact Hrep]].
  eexists. split; [by rewrite Hsent, <-app_assoc | repeat constructor].
Qed.

End ConsoleWatchdog.

(** C7. For either value of [dryRun] the watchdog trigger of the operations
    console sends exactly one POST, to [/api/ops/watchdog?dry_run={dryRun}]
    (anything sent after it is a GET that reloads the health panel); the
    report of an answer that is HTTP-ok is stored as it came; and when the
    answer is the report of the watchdog pass that was asked for, the stored
    report has the requested mode in [dry_run], the watchdog configuration
    with its two thresholds and [auto_requeue] in [settings], and one item
    per stuck task with its [task_id], [old_status], [age_minutes], [action]
    and [error_message]. *)
Theorem watchdog_trigger (env : option string) (net : Net OpsPage.Body)
    (dryRun : bool) (w : World OpsPage.State) :
  let call :=
    post (or_default env "http://localhost:8000" +:+ "/api/ops/watchdog?dry_run="
          +:+ (if dryRun then "true" else "false")) in
  let w' := exec (OpsPage.handle env net (OpsPage.ClickWatchdog dryRun)) w in
  (∃ reload, sent w' = sent w ++ call :: reload
             ∧ Forall (λ r, req_method r = GET) reload)
  ∧ (∀ (resp : Response OpsPage.Body) (body : OpsPage.Body),
       net (sent w) call = Some resp →
       resp_ok resp = true →
       resp_json resp = Some body →
       OpsPage.report (page w') = Some body)
  ∧ (∀ (resp : Response OpsPage.Body) (cfg : Api.WatchdogSettings) (time : Z)
       (stamp : string) (σ : gmap Z Machine.PublishTask),
       net (sent w) call = Some resp →
       resp_ok resp = true →
       resp_json resp
       = Some (OpsPage.BReport (Watchdog.run dryRun cfg time stamp σ).1) →
       ∃ rep,
         OpsPage.report (page w') = Some (OpsPage.BReport rep)
         ∧ Api.dry_run rep = dryRun
         ∧ Api.settings rep = cfg
         ∧ ∀ item,
             item ∈ Api.items rep →
             ∃ k t,
               σ !! k = Some t
               ∧ Watchdog.stuck cfg time t = true
               ∧ Api.task_id item = Machine.id (Machine.identity t)
               ∧ Api.old_status item = Machine.status_name (Machine.status t)
               ∧ Api.age_minutes item
                 = time - Machine.updated_at (Machine.execution t)
               ∧ Api.action item
                 = Watchdog.action_name dryRun (Watchdog.policy cfg)
               ∧ Api.error_message item = Watchdog.synthetic_message time t).
Proof.
  intros call w'.
  pose proof (runWatchdog_sent env net dryRun w) as (Hsent & _ & Hrep).
  cbn zeta in Hsent, Hrep.
  change (post (OpsPage.watchdog_url env dryRun)) with call in Hsent, Hrep.
  change (exec (OpsPage.runWatchdog env net dryRun) w) with w' in Hsent, Hrep.
  split; [exact Hsent|]. split.
  - intros resp body Hnet Hok Hjson. by rewrite Hrep, Hnet, Hok, Hjson.
  - intros resp cfg time stamp σ Hnet Hok Hjson.
    rewrite Hnet, Hok, Hjson in Hrep. eexists. split; [exact Hrep|].
    destruct (run_report cfg time dryRun stamp σ)
      as (Hdry & Hcfg & _ & _ & _ & Hitems).
    split; [exact Hdry|]. split; [exact Hcfg|].
    intros item (k & t & Hk & Hstuck & ->)%Hitems.
    exists k, t. repeat split; assumption.
Qed.

Lemma watchdog_trigger_witness :
  let w' :=
    exec (OpsPage.handle None Sample.watchdog_server (OpsPage.ClickWatchdog true))
      Sample.console in
  sent w'
  = [post "http://localhost:8000/api/ops/watchdog?dry_run=true";
     get "http://localhost:8000/api/ops/health"]
  ∧ ∃ rep, OpsPage.report (page w') = Some (OpsPage.BReport rep)
           ∧ Api.dry_run rep = true
           ∧ Api.settings rep = Sample.watchdog_settings.
Proof.
  split; [vm_compute; reflexivity|].
  destruct (watchdog_trigger None Sample.watchdog_server true Sample.console)
    as (_ & _ & Hserved).
  destruct (Hserved _ Sample.watchdog_settings 145 "2026-11-02T19:00:00Z"
              Sample.store eq_refl eq_refl eq_refl)
    as (rep & Hrep & Hdry & Hcfg & _).
  exists rep. repeat split; assumption.
Defined.

(** The console: pick +4, tick two rows, set the priority. *)
Example bulk_priority_session :
  submitted_priority
  <$> sent (exec (OpsPage.run None Sample.bulk_server
                    [OpsPage.ChoosePriority 6; OpsPage.ClickRow 1;
                     OpsPage.ClickRow 2; OpsPage.ClickBulk OpsPage.SetPriority])
              Sample.console)
  = [Some 4; None; None].
Proof. vm_compute. reflexivity. Qed.

(* ===================================================================== *)
(** * Further properties of the pages                                     *)
(* ===================================================================== *)

(** ** Running a handler *)

Section Running.

Context {S : Type}.

Lemma act_unit (m : Act S unit) (w : World S) : m w = ((), exec m w).
Proof. unfold exec. by destruct (m w) as [[] ?]. Qed.

Lemma exec_bind {A B} (m : Act S A) (k : A → Act S B) (w : World S) :
  exec (m ≫= k) w = exec (k (m w).1) (m w).2.
Proof. unfold exec, mbind, act_bind. by destruct (m w). Qed.

Lemma exec_then {B} (m : Act S unit) (k : Act S B) (w : World S) :
  exec (m ≫= λ _, k) w = exec k (exec m w).
Proof. rewrite exec_bind. reflexivity. Qed.

End Running.

(** ** The operations console: count chips and selection *)

Lemma insert_chip_perm x l : OpsView.insert_chip x l ≡ₚ x :: l.
Proof.
  induction l as [|y l IH]; [done|]. cbn.
  case_decide; [|done]. rewrite IH. apply Permutation_swap.
Qed.

Lemma insert_chip_sorted x l :
  StronglySorted falling l → StronglySorted falling (OpsView.insert_chip x l).
Proof.
  induction 1 as [|y l Hl IH Hy]; cbn.
  - repeat constructor.
  - case_decide.
    + constructor; [exact IH|].
      rewrite insert_chip_perm. constructor; [unfold falling; lia | exact Hy].
    + constructor; [by constructor|].
      constructor; [unfold falling; lia|].
      eapply Forall_impl; [exact Hy|]. unfold falling. intros z Hz. cbn in *. lia.
Qed.

Lemma insert_chip_filter (P : string * Z → Prop) `{!∀ e, Decision (P e)} x l :
  (∀ a b, P a → P b → a.2 = b.2) →
  filter P (OpsView.insert_chip x l) = filter P (x :: l).
Proof.
  intros Hkey. induction l as [|y l IH]; [done|]. cbn.
  case_decide as Hlt; [|done].
  rewrite filter_cons, IH, !filter_cons.
  destruct (decide (P y)) as [Hy|Hy], (decide (P x)) as [Hx|Hx]; try done.
  specialize (Hkey x y Hx Hy). lia.
Qed.

(** *** The entries of a parsed object *)

Section Entries.

Context {A : Type}.
Implicit Types (obj members : list (string * A)) (k : string) (v : A).

Lemma define_property_elem k v obj k' v' :
  NoDup obj.*1 →
  (k', v') ∈ define_property k v obj
  ↔ (k' = k ∧ v' = v) ∨ (k' ≠ k ∧ (k', v') ∈ obj).
Proof.
  induction obj as [|[k0 v0] obj IH]; cbn; intros Hnd.
  - rewrite list_elem_of_singleton, elem_of_nil. split.
    + intros [= -> ->]. by left.
    + intros [[-> ->]|[_ []]]. done.
  - apply NoDup_cons in Hnd as [Hk0 Hnd]. case_decide as Hk; subst.
    + rewrite !elem_of_cons. split.
      * intros [[= -> ->]|Hin]; [by left|]. right. split; [|by right].
        intros ->. apply Hk0. apply list_elem_of_fmap. by exists (k, v').
      * intros [[-> ->]|[Hne [[= -> ->]|Hin]]]; [by left|done|by right].
    + rewrite !elem_of_cons, (IH Hnd). split.
      * intros [Heq|[[-> ->]|[Hne Hin]]].
        -- injection Heq as -> ->. right. split; [done | by left].
        -- by left.
        -- right. split; [done | by right].
      * intros [[-> ->]|[Hne [Heq|Hin]]].
        -- right. by left.
        -- by left.
        -- right. right. by split.
Qed.

Lemma define_property_keys k v obj :
  (define_property k v obj).*1
  = if decide (k ∈ obj.*1) then obj.*1 else obj.*1 ++ [k].
Proof.
  induction obj as [|[k0 v0] obj IH]; cbn; [done|].
  destruct (decide (k0 = k)) as [->|Hk]; cbn.
  - rewrite decide_True by (apply elem_of_cons; by left). done.
  - rewrite IH. destruct (decide (k ∈ obj.*1)) as [Hin|Hin].
    + rewrite decide_True by (apply elem_of_cons; by right). done.
    + rewrite decide_False; [done|]. rewrite elem_of_cons. naive_solver.
Qed.

Lemma define_property_NoDup k v obj :
  NoDup obj.*1 → NoDup (define_property k v obj).*1.
Proof.
  intros Hnd. rewrite define_property_keys. case_decide as Hk; [done|].
  apply NoDup_app. split; [done|]. split; [|apply NoDup_singleton].
  intros x Hx ->%list_elem_of_singleton. done.
Qed.

Lemma last_member_snoc members k v k' v' :
  last_member (members ++ [(k, v)]) k' v'
  ↔ (k' = k ∧ v' = v) ∨ (k' ≠ k ∧ last_member members k' v').
Proof.
  split.
  - intros (before & after & Heq & Hlast).
    destruct after as [|x after _] using rev_ind.
    + apply app_inj_tail in Heq as [_ Heq]. injection Heq as <- <-. by left.
    + rewrite app_comm_cons, app_assoc in Heq.
      apply app_inj_tail in Heq as [-> <-]. right.
      rewrite fmap_app, elem_of_app in Hlast. cbn in Hlast.
      split; [|exists before, after; split; [done|tauto]].
      intros ->. apply Hlast. right. by left.
  - intros [[-> ->]|[Hne (before & after & -> & Hlast)]].
    + exists members, []. split; [done|]. cbn. apply not_elem_of_nil.
    + exists before, (after ++ [(k, v)]). split; [by rewrite <-app_assoc|].
      rewrite fmap_app, elem_of_app. cbn. rewrite list_elem_of_singleton.
      tauto.
Qed.

Lemma parsed_object_spec members :
  NoDup (parsed_object members).*1
  ∧ ∀ k v, (k, v) ∈ parsed_object members ↔ last_member members k v.
Proof.
  unfold parsed_object.
  induction members as [|[k v] members [Hnd IH]] using rev_ind; cbn.
  - split; [apply NoDup_nil_2|]. intros k v. rewrite elem_of_nil. split; [done|].
    intros (before & after & Heq & _). by destruct before.
  - rewrite foldl_app. cbn. split; [by apply define_property_NoDup|].
    intros k' v'. rewrite define_property_elem, last_member_snoc, IH by done.
    done.
Qed.

Lemma entries_perm members : entries members ≡ₚ parsed_object members.
Proof.
  unfold entries. rewrite merge_sort_Permutation.
  apply filter_app_complement.
Qed.

End Entries.

Lemma count_chips_perm h : OpsView.count_chips h ≡ₚ entries (Api.counts h).
Proof.
  unfold OpsView.count_chips.
  induction (entries (Api.counts h)) as [|x l IH]; [done|].
  cbn. by rewrite insert_chip_perm, IH.
Qed.

Section SetOf.

Implicit Types (s acc : NumSet) (xs : list Z).

Lemma foldl_set_add_elem acc xs x :
  x ∈ foldl set_add acc xs ↔ x ∈ acc ∨ x ∈ xs.
Proof.
  revert acc. induction xs as [|y xs IH]; intros acc; cbn.
  - rewrite elem_of_nil. tauto.
  - rewrite IH, set_add_elem, elem_of_cons. tauto.
Qed.

Lemma set_of_elem xs x : x ∈ set_of xs ↔ x ∈ xs.
Proof. unfold set_of. rewrite foldl_set_add_elem, elem_of_nil. tauto. Qed.

Lemma set_add_NoDup s i : NoDup s → NoDup (set_add s i).
Proof.
  intros Hs. unfold set_add. destruct (set_has s i) eqn:Hi; [done|].
  apply NoDup_app. split; [done|]. split; [|apply NoDup_singleton].
  intros x Hx ->%list_elem_of_singleton. apply set_has_true in Hx. congruence.
Qed.

Lemma foldl_set_add_NoDup acc xs : NoDup acc → NoDup (foldl set_add acc xs).
Proof.
  revert acc. induction xs as [|y xs IH]; intros acc Hacc; [done|].
  cbn. by apply IH, set_add_NoDup.
Qed.

Lemma set_of_NoDup xs : NoDup (set_of xs).
Proof. apply foldl_set_add_NoDup, NoDup_nil_2. Qed.

Lemma foldl_set_add_fresh acc xs :
  NoDup (acc ++ xs) → foldl set_add acc xs = acc ++ xs.
Proof.
  revert acc. induction xs as [|y xs IH]; intros acc Hnd; cbn.
  - by rewrite app_nil_r.
  - assert (set_add acc y = acc ++ [y]) as ->.
    { unfold set_add. destruct (set_has acc y) eqn:Hy; [|done].
      apply set_has_true in Hy. apply NoDup_app in Hnd as (_ & Hdis & _).
      destruct (Hdis y Hy). by left. }
    rewrite IH; rewrite <-app_assoc; done.
Qed.

(** A list without repetition is its own [Set], in the same order. *)
Lemma set_of_NoDup_id xs : NoDup xs → set_of xs = xs.
Proof. intros H. unfold set_of. by rewrite foldl_set_add_fresh. Qed.

Lemma toggle_all_NoDup (ts : list Api.OpsTask) s : NoDup (OpsPage.toggle_all ts s).
Proof.
  unfold OpsPage.toggle_all. case_decide; [apply NoDup_nil_2 | apply set_of_NoDup].
Qed.

End SetOf.

(** X1. The count chips of the operations console are the entries of
    [health.counts], as [Object.entries] lists them, sorted by falling count:
    one chip per key, with the count that the body gives last for the key;
    the count never rises from one chip to the next; and chips with the same
    count stand in the order of [Object.entries]. *)
Theorem count_chips_sorted_stable (h : Api.HealthData) :
  let chips := OpsView.count_chips h in
  chips ≡ₚ entries (Api.counts h)
  ∧ NoDup chips.*1
  ∧ (∀ (k : string) (v : Z), (k, v) ∈ chips ↔ last_member (Api.counts h) k v)
  ∧ (∀ (i j : nat) (a b : string * Z),
       (i < j)%nat → chips !! i = Some a → chips !! j = Some b → b.2 ≤ a.2)
  ∧ (∀ n : Z,
       filter (λ e, e.2 = n) chips
       = filter (λ e, e.2 = n) (entries (Api.counts h))).
Proof.
  intros chips.
  assert (chips ≡ₚ parsed_object (Api.counts h)) as Hown.
  { unfold chips. by rewrite count_chips_perm, entries_perm. }
  destruct (parsed_object_spec (Api.counts h)) as [Hnd Hlast].
  split; [apply count_chips_perm|]. split; [by rewrite Hown|].
  split; [intros k v; by rewrite Hown|]. split.
  - assert (StronglySorted falling chips) as Hs.
    { unfold chips, OpsView.count_chips.
      induction (entries (Api.counts h)) as [|x l IH]; cbn; [constructor|].
      by apply insert_chip_sorted. }
    revert Hs. generalize chips. intros l Hs.
    induction Hs as [|x l Hl IH Hx]; intros i j a b Hij Ha Hb.
    + by rewrite lookup_nil in Ha.
    + destruct j as [|j]; [lia|]. cbn in Hb.
      destruct i as [|i]; cbn in Ha.
      * injection Ha as <-. rewrite Forall_forall in Hx.
        apply Hx. by eapply list_elem_of_lookup_2.
      * apply (IH i j); [lia|done..].
  - intros n. unfold chips, OpsView.count_chips.
    induction (entries (Api.counts h)) as [|x l IH]; [done|]. cbn [foldr].
    rewrite insert_chip_filter by (intros ?? -> ->; done).
    by rewrite !filter_cons, IH.
Qed.

(** Keys that are array indices come first, in ascending order; a key
    written twice is listed once, where it was first written. *)
Example count_chips_of_a_report :
  OpsView.count_chips
    (Api.mkHealthData
       [("queued", 1); ("10", 1); ("error", 9); ("2", 1); ("done", 4);
        ("queued", 4); ("007", 1)]
       (Api.mkStuck 0 0) true true None [])
  = [("error", 9); ("queued", 4); ("done", 4); ("2", 1); ("10", 1); ("007", 1)].
Proof. vm_compute. reflexivity. Qed.

(** X2. With tasks listed whose ids are distinct, a click on the header
    checkbox flips it: from unchecked it ticks every listed row, from
    checked it clears the selection; the table is not touched and nothing is
    sent. *)
Theorem select_all_flips (w : World OpsPage.State) :
  NoDup (Api.id <$> OpsPage.tasks (page w)) →
  OpsPage.tasks (page w) ≠ [] →
  let w' := exec OpsPage.toggleAll w in
  OpsView.select_all_checked (page w')
  = negb (OpsView.select_all_checked (page w))
  ∧ (∀ t, t ∈ OpsPage.tasks (page w) →
          OpsView.row_checked (page w') t
          = OpsView.select_all_checked (page w'))
  ∧ OpsPage.tasks (page w') = OpsPage.tasks (page w)
  ∧ sent w' = sent w.
Proof.
  destruct w as [[h r l wl ts sf sel msg bp tl] log]. cbn.
  intros Hnd Hne.
  assert (0 < length ts)%nat as Hlen by (destruct ts; [done | cbn; lia]).
  unfold OpsPage.toggleAll. act_step.
  unfold OpsView.select_all_checked, OpsView.row_checked, OpsPage.toggle_all,
    set_size. cbn.
  rewrite (bool_decide_eq_true_2 (0 < length ts)%nat Hlen), !andb_true_r.
  destruct (decide (length sel = length ts)) as [Heq|Hneq].
  - rewrite (bool_decide_eq_true_2 _ Heq). cbn.
    rewrite (bool_decide_eq_false_2 (0%nat = length ts)) by lia.
    repeat split.
  - rewrite (bool_decide_eq_false_2 _ Hneq). cbn.
    rewrite (set_of_NoDup_id _ Hnd), length_fmap.
    rewrite (bool_decide_eq_true_2 (length ts = length ts)) by done.
    repeat split. intros t Ht. apply set_has_true.
    apply list_elem_of_fmap. by exists t.
Qed.

Lemma select_all_flips_witness :
  OpsPage.selected (page (exec OpsPage.toggleAll Fixtures.listed)) = [1; 2; 5]
  ∧ OpsView.select_all_checked (page (exec OpsPage.toggleAll Fixtures.listed))
    = negb (OpsView.select_all_checked (page Fixtures.listed)).
Proof.
  split; [reflexivity|].
  refine (proj1 (select_all_flips Fixtures.listed _ _)).
  - cbn. repeat constructor; rewrite ?elem_of_cons, ?elem_of_nil;
      intros H; repeat destruct H as [H|H]; try discriminate H; exact H.
  - discriminate.
Defined.

Lemma no_body_ids_distinct (m : Method) (url : string) :
  ids_distinct (mkRequest m url [] None).
Proof. intros xs H. discriminate H. Qed.

Lemma bulk_body_carries (b : OpsPage.BulkButton) (s : OpsPage.State)
    (url : string) :
  carried_ids (send_json POST url (OpsPage.bulk_body b s))
  = Some (JNum <$> OpsPage.selected s).
Proof. by destruct b. Qed.

Section ConsoleSelection.

Variable env : option string.
Variable net : Net OpsPage.Body.

Let tidy (s : OpsPage.State) : Prop := NoDup (OpsPage.selected s).

Lemma bulk_body_ids_distinct (b : OpsPage.BulkButton) (s : OpsPage.State)
    (url : string) :
  tidy s → ids_distinct (send_json POST url (OpsPage.bulk_body b s)).
Proof.
  intros Hs xs. rewrite bulk_body_carries. intros [= <-].
  apply NoDup_fmap_2; [|exact Hs]. by intros x y [= ->].
Qed.

Lemma ops_loadHealth_tidy :
  keeps tidy ids_distinct (OpsPage.loadHealth env net).
Proof.
  unfold OpsPage.loadHealth. keeps_auto.
  apply keeps_fetch, no_body_ids_distinct.
Qed.

Lemma ops_loadTasks_tidy :
  keeps tidy ids_distinct (OpsPage.loadTasks env net).
Proof.
  unfold OpsPage.loadTasks. keeps_auto.
  apply keeps_fetch, no_body_ids_distinct.
Qed.

Lemma ops_handle_tidy (ev : OpsPage.Event) :
  keeps tidy ids_distinct (OpsPage.handle env net ev).
Proof.
  destruct ev as [| |st|k|dry|i| |b|k]; cbn [OpsPage.handle].
  - apply keeps_bind; [apply ops_loadHealth_tidy|intros _; apply ops_loadTasks_tidy].
  - apply keeps_bind; [apply ops_loadHealth_tidy|intros _; apply ops_loadTasks_tidy].
  - unfold OpsPage.filter_to, OpsPage.effect_after. keeps_auto;
      first [ apply ops_loadHealth_tidy | apply ops_loadTasks_tidy
            | apply keeps_fetch, no_body_ids_distinct
            | intros ? ?; apply NoDup_nil_2 ].
  - destruct (OpsPage.STATUSES !! k); [|apply keeps_ret].
    unfold OpsPage.filter_to, OpsPage.effect_after. keeps_auto;
      first [ apply ops_loadHealth_tidy | apply ops_loadTasks_tidy
            | apply keeps_fetch, no_body_ids_distinct
            | intros ? ?; apply NoDup_nil_2 ].
  - unfold OpsPage.runWatchdog. keeps_auto;
      first [apply ops_loadHealth_tidy | apply keeps_fetch, no_body_ids_distinct].
  - unfold OpsPage.toggleSelect. apply keeps_update.
    intros s Hs. by apply toggle_NoDup.
  - unfold OpsPage.toggleAll. apply keeps_read. intros s _.
    apply keeps_update. intros s' _. apply toggle_all_NoDup.
  - apply keeps_read. intros s Hs. unfold OpsPage.bulkAction. keeps_auto;
      first [ apply ops_loadHealth_tidy | apply ops_loadTasks_tidy
            | by apply keeps_fetch, bulk_body_ids_distinct
            | apply keeps_fetch, no_body_ids_distinct
            | intros ? ?; apply NoDup_nil_2 ].
  - destruct (OpsPage.priority_options !! k) as [v|]; keeps_auto.
Qed.

Lemma ops_run_tidy (evs : list OpsPage.Event) :
  keeps tidy ids_distinct (OpsPage.run env net evs).
Proof.
  induction evs as [|ev evs IH]; [apply keeps_ret|].
  apply keeps_bind; [apply ops_handle_tidy | intros _; exact IH].
Qed.

End ConsoleSelection.

Lemma no_body_ids_present (m : Method) (url : string) :
  ids_present (mkRequest m url [] None).
Proof. intros xs H. discriminate H. Qed.

Section ConsoleOffered.

Variable env : option string.
Variable net : Net OpsPage.Body.

Let any (s : OpsPage.State) : Prop := True.

Lemma ops_loadHealth_present :
  keeps any ids_present (OpsPage.loadHealth env net).
Proof.
  unfold OpsPage.loadHealth. keeps_auto.
  apply keeps_fetch, no_body_ids_present.
Qed.

Lemma ops_loadTasks_present :
  keeps any ids_present (OpsPage.loadTasks env net).
Proof.
  unfold OpsPage.loadTasks. keeps_auto.
  apply keeps_fetch, no_body_ids_present.
Qed.

Lemma bulkAction_present (endpoint : string) (body : Json) :
  ids_present
    (send_json POST (OpsPage.API env +:+ "/api/ops/tasks/" +:+ endpoint) body) →
  keeps any ids_present (OpsPage.bulkAction env net endpoint body).
Proof.
  intros Hbody. unfold OpsPage.bulkAction. keeps_auto;
    first [ apply ops_loadHealth_present | apply ops_loadTasks_present
          | by apply keeps_fetch ].
Qed.

Lemma handle_present (ev : OpsPage.Event) (w : World OpsPage.State) :
  OpsView.offered ev (page w) = true →
  steady any ids_present w →
  steady any ids_present (exec (OpsPage.handle env net ev) w).
Proof.
  intros Hoff. revert w Hoff.
  assert (∀ m : Act OpsPage.State unit,
            keeps any ids_present m →
            ∀ w, OpsView.offered ev (page w) = true →
                 steady any ids_present w → steady any ids_present (exec m w))
    as Hkeeps.
  { intros m Hm w _ Hw. exact (Hm w Hw). }
  destruct ev as [| |st|k|dry|i| |b|k]; cbn [OpsPage.handle].
  - apply Hkeeps.
    apply keeps_bind; [apply ops_loadHealth_present|intros _; apply ops_loadTasks_present].
  - apply Hkeeps.
    apply keeps_bind; [apply ops_loadHealth_present|intros _; apply ops_loadTasks_present].
  - apply Hkeeps.
    unfold OpsPage.filter_to, OpsPage.effect_after. keeps_auto;
      first [ apply ops_loadHealth_present | apply ops_loadTasks_present
            | apply keeps_fetch, no_body_ids_present ].
  - apply Hkeeps.
    destruct (OpsPage.STATUSES !! k); [|apply keeps_ret].
    unfold OpsPage.filter_to, OpsPage.effect_after. keeps_auto;
      first [ apply ops_loadHealth_present | apply ops_loadTasks_present
            | apply keeps_fetch, no_body_ids_present ].
  - apply Hkeeps.
    unfold OpsPage.runWatchdog. keeps_auto;
      first [ apply ops_loadHealth_present
            | apply keeps_fetch, no_body_ids_present ].
  - apply Hkeeps. unfold OpsPage.toggleSelect. keeps_auto.
  - apply Hkeeps. unfold OpsPage.toggleAll. keeps_auto.
  - intros w Hoff Hw. rewrite exec_bind. cbn [read fst snd].
    apply (bulkAction_present (OpsPage.endpoint b)
             (OpsPage.bulk_body b (page w))); [|exact Hw].
    intros xs. rewrite bulk_body_carries. intros [= <-] Hnil.
    apply fmap_nil_inv in Hnil.
    cbn in Hoff. apply andb_prop in Hoff as [_ Hoff].
    unfold OpsView.bulk_bar_shown, set_size in Hoff.
    apply bool_decide_eq_true_1 in Hoff. rewrite Hnil in Hoff. cbn in Hoff. lia.
  - apply Hkeeps. destruct (OpsPage.priority_options !! k); keeps_auto.
Qed.

Lemma run_offered_present (evs : list OpsPage.Event)
    (w : World OpsPage.State) :
  steady any ids_present w →
  steady any ids_present (exec (OpsView.run_offered env net evs) w).
Proof.
  revert w. induction evs as [|ev evs IH]; intros w Hw; [exact Hw|].
  cbn [OpsView.run_offered]. rewrite exec_then. apply IH.
  unfold OpsView.click. rewrite exec_bind. cbn [read fst snd].
  destruct (OpsView.offered ev (page w)) eqn:Hoff; [|exact Hw].
  by apply handle_present.
Qed.

End ConsoleOffered.

(** X3. Whatever the operator does on the operations console, the selection
    never holds an id twice, so no request lists an id twice under [ids];
    and when every click goes through a control that the page offers, every
    request with an [ids] array lists at least one id.  The body of every
    bulk button carries exactly the selected ids. *)
Theorem bulk_ids_never_repeat (env : option string) (net : Net OpsPage.Body)
    (evs : list OpsPage.Event) :
  let w := exec (OpsPage.run env net evs) (mkWorld OpsPage.initial []) in
  let clicked :=
    exec (OpsView.run_offered env net evs) (mkWorld OpsPage.initial []) in
  NoDup (OpsPage.selectedIds (page w))
  ∧ Forall (λ r, ∀ xs, carried_ids r = Some xs → NoDup xs) (sent w)
  ∧ Forall (λ r, ∀ xs, carried_ids r = Some xs → xs ≠ []) (sent clicked)
  ∧ ∀ (b : OpsPage.BulkButton) (s : OpsPage.State) (url : string),
      carried_ids (send_json POST url (OpsPage.bulk_body b s))
      = Some (JNum <$> OpsPage.selectedIds s).
Proof.
  intros w clicked.
  destruct (ops_run_tidy env net evs (mkWorld OpsPage.initial [])) as [H1 H2].
  { split; [apply NoDup_nil_2 | constructor]. }
  destruct (run_offered_present env net evs (mkWorld OpsPage.initial []))
    as [_ H3].
  { split; [exact I | constructor]. }
  split; [exact H1|]. split; [exact H2|]. split; [exact H3|].
  apply bulk_body_carries.
Qed.

(** ** The operations console: what the handlers leave behind *)

Section ConsoleExec.

Variable env : option string.
Variable net : Net OpsPage.Body.

(** What a health reload leaves behind. *)
Lemma loadHealth_exec (w : World OpsPage.State) :
  let call := get (OpsPage.API env +:+ "/api/ops/health") in
  exec (OpsPage.loadHealth env net) w
  = mkWorld
      (OpsPage.setLoading false
         (match net (sent w) call with
          | Some resp =>
              if resp_ok resp then
                match resp_json resp with
                | Some body => OpsPage.setHealth (Some body) (page w)
                | None => page w
                end
              else page w
          | None => page w
          end))
      (sent w ++ [call]).
Proof.
  unfold OpsPage.loadHealth. destruct w as [s log]. act_step.
  destruct (net _ _) as [[ok st tx [body|]]|]; cbn;
    try destruct ok; reflexivity.
Qed.

Lemma loadTasks_exec (w : World OpsPage.State) :
  let call :=
    get (OpsPage.API env +:+ "/api/ops/tasks"
         +:+ OpsPage.tasks_query (OpsPage.statusFilter (page w))) in
  exec (OpsPage.loadTasks env net) w
  = mkWorld
      (OpsPage.setTasksLoading false
         (match net (sent w) call with
          | Some resp =>
              if resp_ok resp then
                match resp_json resp with
                | Some j => OpsPage.setTasks (OpsPage.tasks_of j) (page w)
                | None => page w
                end
              else page w
          | None => page w
          end))
      (sent w ++ [call]).
Proof.
  unfold OpsPage.loadTasks. destruct w as [s log]. act_step.
  destruct (net _ _) as [[ok st tx [j|]]|]; cbn;
    try destruct ok; reflexivity.
Qed.

End ConsoleExec.

Section ConsoleOutcomes.

Variable env : option string.
Variable net : Net OpsPage.Body.

Lemma bulkAction_exec (endpoint : string) (body : Json)
    (w : World OpsPage.State) :
  let call :=
    send_json POST (OpsPage.API env +:+ "/api/ops/tasks/" +:+ endpoint) body in
  let log := sent w ++ [call] in
  exec (OpsPage.bulkAction env net endpoint body) w
  = match net (sent w) call with
    | Some resp =>
        if resp_ok resp then
          match resp_json resp with
          | Some (OpsPage.BBulk j) =>
              exec (OpsPage.loadHealth env net)
                (exec (OpsPage.loadTasks env net)
                   (mkWorld
                      (OpsPage.setSelected (λ _, [])
                         (OpsPage.setBulkMsg (Some (OpsPage.bulk_message j))
                            (page w)))
                      log))
          | _ =>
              mkWorld (OpsPage.setBulkMsg (Some "✕ Network error") (page w)) log
          end
        else
          mkWorld
            (OpsPage.setBulkMsg (Some ("✕ Error: " +:+ resp_text resp)) (page w))
            log
    | None =>
        mkWorld (OpsPage.setBulkMsg (Some "✕ Network error") (page w)) log
    end.
Proof.
  unfold OpsPage.bulkAction. destruct w as [s log]. act_step.
  destruct (net _ _) as [[ok st tx [[h|ts|r|b]|]]|]; cbn -[String.append];
    try (destruct ok; reflexivity); try reflexivity.
  destruct ok; [|reflexivity]. cbn -[String.append OpsPage.bulk_message].
  match goal with
  | |- context [OpsPage.loadTasks env net ?w0] =>
      rewrite (act_unit (OpsPage.loadTasks env net) w0)
  end.
  reflexivity.
Qed.

Lemma runWatchdog_exec (dryRun : bool) (w : World OpsPage.State) :
  let call := post (OpsPage.watchdog_url env dryRun) in
  let log := sent w ++ [call] in
  exec (OpsPage.runWatchdog env net dryRun) w
  = match net (sent w) call with
    | Some resp =>
        if resp_ok resp then
          match resp_json resp with
          | Some body =>
              let w1 :=
                exec (OpsPage.loadHealth env net)
                  (mkWorld (OpsPage.setReport (Some body)
                              (OpsPage.setWdLoading true (page w))) log) in
              mkWorld (OpsPage.setWdLoading false (page w1)) (sent w1)
          | None => mkWorld (OpsPage.setWdLoading false (page w)) log
          end
        else mkWorld (OpsPage.setWdLoading false (page w)) log
    | None => mkWorld (OpsPage.setWdLoading false (page w)) log
    end.
Proof.
  unfold OpsPage.runWatchdog. destruct w as [s log]. act_step.
  destruct (net _ _) as [[ok st tx [body|]]|]; cbn -[String.append];
    try (destruct ok; reflexivity); try reflexivity.
  destruct ok; [|reflexivity]. cbn -[String.append].
  match goal with
  | |- context [OpsPage.loadHealth env net ?w0] =>
      rewrite (act_unit (OpsPage.loadHealth env net) w0)
  end.
  reflexivity.
Qed.

End ConsoleOutcomes.

Section ConsoleReloads.

Variable env : option string.
Variable net : Net OpsPage.Body.

(** A health reload: one GET; an answer that is ok and decodes is stored as
    the health panel, whatever its shape, and the panel stays as it was
    otherwise; [loading] ends false; the rest of the page is not touched. *)
Lemma loadHealth_spec (w : World OpsPage.State) :
  let call := get (OpsPage.API env +:+ "/api/ops/health") in
  let w' := exec (OpsPage.loadHealth env net) w in
  sent w' = sent w ++ [call]
  ∧ OpsPage.health (page w')
    = match net (sent w) call with
      | Some (mkResponse true _ _ (Some body)) => Some body
      | _ => OpsPage.health (page w)
      end
  ∧ OpsPage.loading (page w') = false
  ∧ OpsPage.setLoading (OpsPage.loading (page w))
      (OpsPage.setHealth (OpsPage.health (page w)) (page w'))
    = page w.
Proof.
  cbn zeta. rewrite loadHealth_exec. cbn zeta. destruct w as [[] log].
  destruct (net _ _) as [[[] st tx [body|]]|]; cbn; repeat split.
Qed.

Lemma loadTasks_spec (w : World OpsPage.State) :
  let call :=
    get (OpsPage.API env +:+ "/api/ops/tasks"
         +:+ OpsPage.tasks_query (OpsPage.statusFilter (page w))) in
  let w' := exec (OpsPage.loadTasks env net) w in
  sent w' = sent w ++ [call]
  ∧ OpsPage.tasks (page w')
    = match net (sent w) call with
      | Some (mkResponse true _ _ (Some (OpsPage.BTasks (Some ts)))) => ts
      | Some (mkResponse true _ _ (Some _)) => []
      | _ => OpsPage.tasks (page w)
      end
  ∧ OpsPage.tasksLoading (page w') = false
  ∧ OpsPage.setTasksLoading (OpsPage.tasksLoading (page w))
      (OpsPage.setTasks (OpsPage.tasks (page w)) (page w'))
    = page w.
Proof.
  cbn zeta. rewrite loadTasks_exec. cbn zeta. destruct w as [[] log].
  destruct (net _ _) as [[[] st tx [[h|[ts|]|r|b]|]]|]; cbn; repeat split.
Qed.

(** Two states that differ in the cells of a setter agree on the others. *)
Lemma health_frame (s s' : OpsPage.State) l h :
  OpsPage.setLoading l (OpsPage.setHealth h s') = s →
  OpsPage.report s' = OpsPage.report s
  ∧ OpsPage.wdLoading s' = OpsPage.wdLoading s
  ∧ OpsPage.tasks s' = OpsPage.tasks s
  ∧ OpsPage.statusFilter s' = OpsPage.statusFilter s
  ∧ OpsPage.selected s' = OpsPage.selected s
  ∧ OpsPage.bulkMsg s' = OpsPage.bulkMsg s
  ∧ OpsPage.bulkPriority s' = OpsPage.bulkPriority s
  ∧ OpsPage.tasksLoading s' = OpsPage.tasksLoading s.
Proof. intros <-. destruct s'. repeat split. Qed.

Lemma tasks_frame (s s' : OpsPage.State) l ts :
  OpsPage.setTasksLoading l (OpsPage.setTasks ts s') = s →
  OpsPage.health s' = OpsPage.health s
  ∧ OpsPage.report s' = OpsPage.report s
  ∧ OpsPage.loading s' = OpsPage.loading s
  ∧ OpsPage.wdLoading s' = OpsPage.wdLoading s
  ∧ OpsPage.statusFilter s' = OpsPage.statusFilter s
  ∧ OpsPage.selected s' = OpsPage.selected s
  ∧ OpsPage.bulkMsg s' = OpsPage.bulkMsg s
  ∧ OpsPage.bulkPriority s' = OpsPage.bulkPriority s.
Proof. intros <-. destruct s'. repeat split. Qed.

(** The two reloads one after the other, as on mount, on Refresh and after
    a change of the filter. *)
Lemma reload_spec (w : World OpsPage.State) :
  let health_call := get (OpsPage.API env +:+ "/api/ops/health") in
  let tasks_call :=
    get (OpsPage.API env +:+ "/api/ops/tasks"
         +:+ OpsPage.tasks_query (OpsPage.statusFilter (page w))) in
  let w' :=
    exec (OpsPage.loadHealth env net ≫= λ _, OpsPage.loadTasks env net) w in
  sent w' = sent w ++ [health_call; tasks_call]
  ∧ OpsPage.health (page w')
    = match net (sent w) health_call with
      | Some (mkResponse true _ _ (Some body)) => Some body
      | _ => OpsPage.health (page w)
      end
  ∧ OpsPage.tasks (page w')
    = match net (sent w ++ [health_call]) tasks_call with
      | Some (mkResponse true _ _ (Some (OpsPage.BTasks (Some ts)))) => ts
      | Some (mkResponse true _ _ (Some _)) => []
      | _ => OpsPage.tasks (page w)
      end
  ∧ OpsPage.loading (page w') = false
  ∧ OpsPage.tasksLoading (page w') = false
  ∧ OpsPage.setLoading (OpsPage.loading (page w))
      (OpsPage.setTasksLoading (OpsPage.tasksLoading (page w))
         (OpsPage.setHealth (OpsPage.health (page w))
            (OpsPage.setTasks (OpsPage.tasks (page w)) (page w'))))
    = page w.
Proof.
  intros health_call tasks_call w'. subst w'. rewrite exec_then.
  pose proof (loadHealth_spec w) as (Hs1 & Hh & Hl & Hf1).
  pose proof (loadTasks_spec (exec (OpsPage.loadHealth env net) w))
    as (Hs2 & Ht & Htl & Hf2).
  cbn zeta in *. fold health_call in Hs1, Hh.
  set (w1 := exec (OpsPage.loadHealth env net) w) in *.
  set (w2 := exec (OpsPage.loadTasks env net) w1) in *.
  destruct (health_frame _ _ _ _ Hf1) as (_ & _ & Ht1 & Hsf1 & _).
  destruct (tasks_frame _ _ _ _ Hf2) as (Hh2 & _ & Hl2 & _).
  rewrite Hsf1 in Hs2, Ht. fold tasks_call in Hs2, Ht.
  rewrite Hs1 in Hs2, Ht. rewrite <-app_assoc in Hs2.
  split; [exact Hs2|]. split; [by rewrite Hh2|].
  split; [by rewrite Ht, Ht1|]. split; [by rewrite Hl2|].
  split; [exact Htl|].
  rewrite <-Hf1, <-Hf2. by destruct (page w2).
Qed.

End ConsoleReloads.


Section ConsoleFilter.

Variable env : option string.
Variable net : Net OpsPage.Body.

Lemma filter_to_exec (st : string) (w : World OpsPage.State) :
  let w0 :=
    mkWorld (OpsPage.setSelected (λ _, []) (OpsPage.setStatusFilter st (page w)))
      (sent w) in
  exec (OpsPage.filter_to env net st) w
  = if decide (OpsPage.statusFilter (page w) = st) then w0
    else exec (OpsPage.loadHealth env net ≫= λ _, OpsPage.loadTasks env net) w0.
Proof.
  unfold OpsPage.filter_to, OpsPage.effect_after. destruct w as [s log].
  act_step. destruct (decide (st = OpsPage.statusFilter s)) as [->|Hne].
  - by rewrite decide_True.
  - by rewrite decide_False by congruence.
Qed.

End ConsoleFilter.

(** X5. Choosing a status, by the select or by a count chip, stores it and
    clears the selection; when the status differs from the one in force the
    health panel and the task list are requested again, the latter with the
    new status, and when it is the same nothing is sent. *)
Theorem filter_change_reloads (env : option string) (net : Net OpsPage.Body)
    (ev : OpsPage.Event) (st : string) (w : World OpsPage.State) :
  ev = OpsPage.ClickCount st
  ∨ (∃ k, OpsPage.STATUSES !! k = Some st ∧ ev = OpsPage.ChooseStatus k) →
  let w' := exec (OpsPage.handle env net ev) w in
  OpsPage.statusFilter (page w') = st
  ∧ OpsPage.selected (page w') = []
  ∧ sent w'
    = sent w
      ++ (if decide (OpsPage.statusFilter (page w) = st) then []
          else [get (OpsPage.API env +:+ "/api/ops/health");
                get (OpsPage.API env +:+ "/api/ops/tasks"
                     +:+ (if decide (st = "") then "?limit=200"
                          else "?status=" +:+ st +:+ "&limit=200"))]).
Proof.
  intros Hev w'.
  assert (w' = exec (OpsPage.filter_to env net st) w) as ->.
  { subst w'. destruct Hev as [->|(k & Hk & ->)]; cbn [OpsPage.handle];
      [done | by rewrite Hk]. }
  rewrite filter_to_exec. cbn zeta.
  destruct (decide (OpsPage.statusFilter (page w) = st)) as [Heq|Hne].
  - cbn. by rewrite app_nil_r.
  - match goal with
    | |- context [exec _ ?w0] =>
        pose proof (reload_spec env net w0) as (Hs & _ & _ & _ & _ & Hf)
    end.
    cbn zeta in Hs, Hf. cbn [page sent] in Hs, Hf.
    match type of Hf with
    | _ (_ (_ (_ (page ?w1)))) = _ => set (w2 := w1) in *
    end.
    split; [|split].
    + apply (f_equal OpsPage.statusFilter) in Hf. by destruct (page w2).
    + apply (f_equal OpsPage.selected) in Hf. by destruct (page w2).
    + rewrite Hs. by destruct (page w).
Qed.

Lemma filter_change_reloads_witness :
  let w' :=
    exec (OpsPage.handle None Fixtures.ops_server (OpsPage.ChooseStatus 7))
      Fixtures.listed in
  OpsPage.statusFilter (page w') = "error"
  ∧ OpsPage.selected (page w') = []
  ∧ sent w'
    = [get "http://localhost:8000/api/ops/health";
       get "http://localhost:8000/api/ops/tasks?status=error&limit=200"].
Proof.
  refine (filter_change_reloads None Fixtures.ops_server
            (OpsPage.ChooseStatus 7) "error" Fixtures.listed _).
  right. exists 7%nat. split; reflexivity.
Defined.

(** A message that starts with the cross is drawn in red, when the page is
    drawn and the bar is there. *)
Lemma failure_message_red (msg : string) (s : OpsPage.State) :
  String.prefix "✕" msg = true →
  OpsView.bulk_msg_drawn (OpsPage.setBulkMsg (Some msg) s)
  = if OpsView.renders s && OpsView.bulk_bar_shown s
    then Some (msg, "#991b1b") else None.
Proof.
  intros Hmsg. unfold OpsView.bulk_msg_drawn, OpsView.bulk_msg_colour.
  replace (OpsView.bulk_bar_shown (OpsPage.setBulkMsg (Some msg) s))
    with (OpsView.bulk_bar_shown s) by (by destruct s).
  replace (OpsView.renders (OpsPage.setBulkMsg (Some msg) s))
    with (OpsView.renders s) by (by destruct s).
  destruct (OpsView.renders s && OpsView.bulk_bar_shown s); [|done].
  replace (OpsPage.bulkMsg (OpsPage.setBulkMsg (Some msg) s)) with (Some msg)
    by (by destruct s).
  destruct msg as [|c1 [|c2 [|c3 msg]]]; cbn -[ascii_dec] in Hmsg;
    try discriminate Hmsg;
    repeat (destruct (ascii_dec _ _) as [<-|]; try discriminate Hmsg).
  reflexivity.
Qed.

(** X6. A bulk button sends one POST with the selected ids.  When the answer
    is ok and decodes to a bulk result, the selection is cleared, the task
    list and the health panel are requested again, in this order, and the
    message with the counts is stored; it is not drawn then, because the
    message sits in the bulk bar and the bar is gone with the selection, and
    it comes up in green once a row is ticked, if the page is still drawn
    (the health reload may have stored a body on which the render throws).
    In every other case (an HTTP error, a rejected request, a body that is
    not JSON or is of another shape) nothing else is sent, selection, table
    and health panel stay, and the message stored is drawn in red if the
    page is drawn and the bar is there.  The bar, which holds the buttons,
    is there only with a selection that is not empty. *)
Theorem bulk_action_outcome (env : option string) (net : Net OpsPage.Body)
    (b : OpsPage.BulkButton) (w : World OpsPage.State) :
  let call :=
    send_json POST
      (OpsPage.API env +:+ "/api/ops/tasks/" +:+ OpsPage.endpoint b)
      (OpsPage.bulk_body b (page w)) in
  let tasks_call :=
    get (OpsPage.API env +:+ "/api/ops/tasks"
         +:+ OpsPage.tasks_query (OpsPage.statusFilter (page w))) in
  let health_call := get (OpsPage.API env +:+ "/api/ops/health") in
  let w' := exec (OpsPage.handle env net (OpsPage.ClickBulk b)) w in
  (OpsView.bulk_bar_shown (page w) = true → OpsPage.selectedIds (page w) ≠ [])
  ∧ match net (sent w) call with
    | Some (mkResponse true _ _ (Some (OpsPage.BBulk j))) =>
        sent w' = sent w ++ [call; tasks_call; health_call]
        ∧ OpsPage.selected (page w') = []
        ∧ OpsPage.bulkMsg (page w') = Some (OpsPage.bulk_message j)
        ∧ OpsView.bulk_msg_drawn (page w') = None
        ∧ ∀ i : Z,
            OpsView.bulk_msg_drawn (page (exec (OpsPage.toggleSelect i) w'))
            = if OpsView.renders (page w')
              then Some (OpsPage.bulk_message j, "#166534") else None
    | _ =>
        sent w' = sent w ++ [call]
        ∧ OpsPage.selected (page w') = OpsPage.selected (page w)
        ∧ OpsPage.tasks (page w') = OpsPage.tasks (page w)
        ∧ OpsPage.health (page w') = OpsPage.health (page w)
        ∧ ∃ msg,
            OpsPage.bulkMsg (page w') = Some msg
            ∧ OpsView.bulk_msg_drawn (page w')
              = if OpsView.renders (page w) && OpsView.bulk_bar_shown (page w)
                then Some (msg, "#991b1b") else None
    end.
Proof.
  intros call tasks_call health_call w'. split.
  { unfold OpsView.bulk_bar_shown, OpsPage.selectedIds, set_size.
    intros H%bool_decide_eq_true_1 Hnil. rewrite Hnil in H. cbn in H. lia. }
  assert (w' = exec (OpsPage.bulkAction env net (OpsPage.endpoint b)
                       (OpsPage.bulk_body b (page w))) w) as Hw'.
  { subst w'. cbn [OpsPage.handle]. by destruct w. }
  rewrite Hw', bulkAction_exec. cbn zeta. fold call.
  destruct (net (sent w) call) as [[[] st tx [[h|ts|r|j]|]]|];
    cbn [resp_ok resp_json resp_text page sent];
    try (split; [reflexivity|]; split; [by destruct (page w)|];
         split; [by destruct (page w)|]; split; [by destruct (page w)|];
         eexists; split; [by destruct (page w)|];
         by apply failure_message_red).
  match goal with
  | |- context [exec (OpsPage.loadTasks env net) ?w0] =>
      pose proof (loadTasks_spec env net w0) as (Hs1 & _ & _ & Hf1);
      pose proof (loadHealth_spec env net
                    (exec (OpsPage.loadTasks env net) w0))
        as (Hs2 & _ & _ & Hf2);
      cbn zeta in Hs1, Hf1, Hs2, Hf2;
      set (w1 := exec (OpsPage.loadTasks env net) w0) in *
  end.
  set (w2 := exec (OpsPage.loadHealth env net) w1) in *.
  destruct (tasks_frame _ _ _ _ Hf1) as (_ & _ & _ & _ & _ & Hsel1 & Hmsg1 & _).
  destruct (health_frame _ _ _ _ Hf2) as (_ & _ & _ & _ & Hsel2 & Hmsg2 & _).
  cbn [page sent] in Hs1, Hsel1, Hmsg1.
  assert (OpsPage.selected (page w2) = []) as Hsel
    by (rewrite Hsel2, Hsel1; by destruct (page w)).
  assert (OpsPage.bulkMsg (page w2) = Some (OpsPage.bulk_message j)) as Hmsg
    by (rewrite Hmsg2, Hmsg1; by destruct (page w)).
  split; [|split; [exact Hsel|split; [exact Hmsg|split]]].
  - rewrite Hs2, Hs1, <-!app_assoc. cbn [app]. by destruct (page w).
  - unfold OpsView.bulk_msg_drawn, OpsView.bulk_bar_shown.
    by rewrite Hsel, andb_false_r.
  - intros i. unfold OpsPage.toggleSelect, exec, update. cbn [snd page].
    unfold OpsView.bulk_msg_drawn, OpsView.bulk_bar_shown, OpsView.renders.
    destruct (page w2) as [hl ? ? ? ? ? sel msg ? ?]. cbn in Hsel, Hmsg. subst.
    by destruct hl as [[]|].
Qed.


(** ** Busy flags *)

Section ConsoleIdle.

Variable env : option string.
Variable net : Net OpsPage.Body.

Lemma loadHealth_idle (w : World OpsPage.State) :
  OpsPage.wdLoading (page w) = false → OpsPage.tasksLoading (page w) = false →
  ops_idle (page (exec (OpsPage.loadHealth env net) w)).
Proof.
  intros Hwd Htl.
  pose proof (loadHealth_spec env net w) as (_ & _ & Hl & Hf). cbn zeta in *.
  destruct (health_frame _ _ _ _ Hf) as (_ & Hwd' & _ & _ & _ & _ & _ & Htl').
  unfold ops_idle. by rewrite Hl, Hwd', Htl'.
Qed.

Lemma loadTasks_idle (w : World OpsPage.State) :
  OpsPage.loading (page w) = false → OpsPage.wdLoading (page w) = false →
  ops_idle (page (exec (OpsPage.loadTasks env net) w)).
Proof.
  intros Hl Hwd.
  pose proof (loadTasks_spec env net w) as (_ & _ & Htl & Hf). cbn zeta in *.
  destruct (tasks_frame _ _ _ _ Hf) as (_ & _ & Hl' & Hwd' & _).
  unfold ops_idle. by rewrite Htl, Hl', Hwd'.
Qed.

Lemma reload_idle (w : World OpsPage.State) :
  OpsPage.wdLoading (page w) = false →
  ops_idle
    (page (exec (OpsPage.loadHealth env net ≫= λ _, OpsPage.loadTasks env net)
             w)).
Proof.
  intros Hwd. rewrite exec_then.
  pose proof (loadHealth_spec env net w) as (_ & _ & Hl & Hf). cbn zeta in *.
  destruct (health_frame _ _ _ _ Hf) as (_ & Hwd' & _).
  apply loadTasks_idle; congruence.
Qed.

Lemma ops_handle_idle (ev : OpsPage.Event) (w : World OpsPage.State) :
  ops_idle (page w) → ops_idle (page (exec (OpsPage.handle env net ev) w)).
Proof.
  intros (Hl & Hwd & Htl).
  destruct ev as [| |st|k|dry|i| |b|k]; cbn [OpsPage.handle].
  - by apply reload_idle.
  - by apply reload_idle.
  - rewrite filter_to_exec. cbn zeta. case_decide.
    + destruct w as [[] ?]. by cbn in *.
    + apply reload_idle. by destruct w as [[] ?].
  - destruct (OpsPage.STATUSES !! k); [|done].
    rewrite filter_to_exec. cbn zeta. case_decide.
    + destruct w as [[] ?]. by cbn in *.
    + apply reload_idle. by destruct w as [[] ?].
  - rewrite runWatchdog_exec. cbn zeta.
    destruct (net _ _) as [[[] st tx [body|]]|];
      cbn [resp_ok resp_json resp_text]; try (by destruct w as [[] ?]).
    match goal with
    | |- context [exec (OpsPage.loadHealth env net) ?w0] =>
        pose proof (loadHealth_spec env net w0) as (_ & _ & Hl1 & Hf1);
        cbn zeta in Hl1, Hf1;
        set (w1 := exec (OpsPage.loadHealth env net) w0) in *
    end.
    destruct (health_frame _ _ _ _ Hf1) as (_ & _ & _ & _ & _ & _ & _ & Htl1).
    unfold ops_idle. destruct (page w1), w as [[] ?]. cbn in *.
    repeat split; congruence.
  - by destruct w as [[] ?].
  - by destruct w as [[] ?].
  - assert (exec (s ← read; OpsPage.bulkAction env net (OpsPage.endpoint b)
                               (OpsPage.bulk_body b s)) w
            = exec (OpsPage.bulkAction env net (OpsPage.endpoint b)
                      (OpsPage.bulk_body b (page w))) w) as ->
      by (by destruct w).
    rewrite bulkAction_exec. cbn zeta.
    destruct (net _ _) as [[[] st tx [[h|ts|r|j]|]]|];
      cbn [resp_ok resp_json resp_text]; try (by destruct w as [[] ?]).
    match goal with
    | |- context [exec (OpsPage.loadTasks env net) ?w0] =>
        pose proof (loadTasks_idle w0) as (Hl1 & Hwd1 & Htl1);
        [by destruct w as [[] ?] .. |];
        apply loadHealth_idle; assumption
    end.
  - destruct (OpsPage.priority_options !! k); by destruct w as [[] ?].
Qed.

Lemma ops_run_idle (evs : list OpsPage.Event) (w : World OpsPage.State) :
  ops_idle (page w) → ops_idle (page (exec (OpsPage.run env net evs) w)).
Proof.
  revert w. induction evs as [|ev evs IH]; intros w Hw; [exact Hw|].
  cbn [OpsPage.run]. rewrite exec_then. by apply IH, ops_handle_idle.
Qed.

End ConsoleIdle.

Section PlanIdle.

Variable env : option string.
Variable projectId : RouteId.
Variable net : Net PlanPage.Body.

Lemma plan_handle_idle (c : PlanPage.Clock) (ev : PlanPage.Event)
    (w : World PlanPage.State) :
  plan_idle (page w) →
  plan_idle (page (exec (PlanPage.handle env projectId net c ev) w)).
Proof.
  destruct w as [[] log]. intros [Hl Ha]. cbn in Hl, Ha. subst.
  destruct ev as [| |k| |enqueue|]; cbn [PlanPage.handle];
    unfold PlanPage.loadPlan, PlanPage.applyPlan, PlanPage.showToast;
    try done.
  - by destruct (PlanPage.priority_options !! k).
  - destruct (truthy projectId); [|done]. act_step.
    destruct (net _ _) as [[[] st tx [data|]]|]; cbn -[String.append];
      try done.
    destruct (PlanPage.error_of data) as [[|a msg]|]; by cbn.
  - destruct (truthy projectId); [|done]. act_step.
    destruct (net _ _) as [[[] st tx [[p|r]|]]|]; by cbn.
Qed.

Lemma plan_run_idle (evs : list (PlanPage.Clock * PlanPage.Event))
    (w : World PlanPage.State) :
  plan_idle (page w) →
  plan_idle (page (exec (PlanPage.run env projectId net evs) w)).
Proof.
  revert w. induction evs as [|[c ev] evs IH]; intros w Hw; [exact Hw|].
  cbn [PlanPage.run]. rewrite exec_then. by apply IH, plan_handle_idle.
Qed.

End PlanIdle.

(** X8. Whatever the operator does on the operations console or on the plan
    page, and whatever the server answers, once the handlers have run no
    busy flag is left set, so that the Refresh, watchdog and build buttons
    are enabled again wherever the page is drawn (a stored answer of the
    wrong shape makes the render throw). *)
Theorem busy_flags_settle
    (ops_env plan_env : option string) (ops_net : Net OpsPage.Body)
    (plan_net : Net PlanPage.Body) (projectId : RouteId)
    (ops_events : list OpsPage.Event)
    (plan_events : list (PlanPage.Clock * PlanPage.Event)) :
  let ops :=
    page (exec (OpsPage.run ops_env ops_net ops_events)
            (mkWorld OpsPage.initial [])) in
  let planning :=
    page (exec (PlanPage.run plan_env projectId plan_net plan_events)
            (mkWorld PlanPage.initial [])) in
  OpsPage.loading ops = false
  ∧ OpsPage.wdLoading ops = false
  ∧ OpsPage.tasksLoading ops = false
  ∧ PlanPage.loading planning = false
  ∧ PlanPage.applying planning = false
  ∧ (∀ dryRun,
       OpsView.offered (OpsPage.ClickWatchdog dryRun) ops
       = OpsView.renders ops)
  ∧ OpsView.offered OpsPage.ClickRefresh ops = OpsView.renders ops
  ∧ PlanPage.offered projectId PlanPage.ClickBuild planning
    = truthy projectId && PlanPage.renders planning.
Proof.
  intros ops planning.
  assert (ops_idle ops) as (Hl & Hwd & Htl).
  { apply ops_run_idle. by repeat split. }
  assert (plan_idle planning) as (Hpl & Hpa).
  { apply plan_run_idle. by split. }
  repeat split; try assumption.
  - intros dryRun. cbn. by rewrite Hwd, andb_true_r.
  - cbn. by rewrite Hl, andb_true_r.
  - unfold PlanPage.offered. by rewrite Hpl, andb_true_r.
Qed.

(** ** The plan page: labels, totals, the build button, the two dates *)

Section Labels.

Lemma pretty_N_go_ne_plus (x : N) (s s' : string) :
  s ≠ "+" +:+ s' → pretty_N_go x s ≠ "+" +:+ s'.
Proof.
  revert s. induction (N.lt_wf_0 x) as [x _ IH]; intros s Hs.
  assert (x = 0 ∨ 0 < x)%N as [->|Hx] by lia.
  - by rewrite pretty_N_go_0.
  - rewrite pretty_N_go_step by done. apply IH.
    { by apply N.div_lt. }
    unfold pretty_N_char. by repeat case_match.
Qed.

(** A number never prints with a plus sign of its own. *)
Lemma pretty_Z_ne_plus (z : Z) (s' : string) : pretty z ≠ "+" +:+ s'.
Proof.
  destruct z as [|p|p]; [done| |done].
  unfold pretty, pretty_Z, pretty, pretty_positive, pretty, pretty_N.
  rewrite decide_False by done. by apply pretty_N_go_ne_plus.
Qed.

Lemma show_signed_inj (v v' : Z) : show_signed v = show_signed v' → v = v'.
Proof.
  unfold show_signed, show_int.
  destruct (decide (0 < v)), (decide (0 < v')); intros H.
  - change ("+" +:+ pretty v) with (String "+" (pretty v)) in H.
    change ("+" +:+ pretty v') with (String "+" (pretty v')) in H.
    injection H as H. exact (pretty_Z_inj _ _ H).
  - symmetry in H. by apply pretty_Z_ne_plus in H.
  - by apply pretty_Z_ne_plus in H.
  - exact (pretty_Z_inj _ _ H).
Qed.

End Labels.

(** X9. The label of a priority, as the two priority selects, the task table
    and the plan table print it, names one priority only; it starts with a
    plus sign exactly for a positive priority; no two options of a select
    carry the same label. *)
Theorem priority_labels_unambiguous (v v' : Z) :
  (show_signed v = show_signed v' ↔ v = v')
  ∧ String.prefix "+" (show_signed v) = bool_decide (0 < v)
  ∧ NoDup (show_signed <$> OpsPage.priority_options)
  ∧ NoDup (show_signed <$> PlanPage.priority_options).
Proof.
  split; [|split].
  - split; [apply show_signed_inj | by intros ->].
  - unfold show_signed. case_decide as Hv.
    + rewrite bool_decide_eq_true_2 by done.
      change (String.prefix "" (show_int v) = true). by destruct (show_int v).
    + rewrite bool_decide_eq_false_2 by done.
      destruct (show_int v) as [|c s] eqn:Hs; [done|]. cbn -[ascii_dec].
      destruct (ascii_dec "+" c) as [<-|]; [|done].
      by destruct (pretty_Z_ne_plus v s).
  - assert (NoDup OpsPage.priority_options) as Hnd.
    { apply (bool_decide_unpack (NoDup OpsPage.priority_options)).
      vm_compute. exact I. }
    split; apply NoDup_fmap_2; try exact Hnd; intros x y; apply show_signed_inj.
Qed.

Section Totals.

Context {A : Type}.

(** A [reduce] that adds up lengths counts the members of all the lists. *)
Lemma foldl_add_lengths {B} (f : A → list B) (l : list A) (acc : Z) :
  foldl (λ acc d, acc + Z.of_nat (length (f d))) acc l
  = acc + Z.of_nat (length (concat (f <$> l))).
Proof.
  revert acc. induction l as [|d l IH]; intros acc; cbn; [lia|].
  rewrite IH, length_app. lia.
Qed.

End Totals.

Lemma slot_rows_length (bp : Z) (dest : Api.DestPlan) :
  length (PlanPage.slot_rows bp dest) = length (Api.slots dest).
Proof. unfold PlanPage.slot_rows. apply length_imap. Qed.

Lemma concat_lengths {A B C} (f : A → list B) (g : A → list C) (l : list A) :
  (∀ d, length (f d) = length (g d)) →
  length (concat (f <$> l)) = length (concat (g <$> l)).
Proof.
  intros H. induction l as [|d l IH]; [done|].
  cbn. by rewrite !length_app, H, IH.
Qed.

Lemma concat_nonempty {A B} (f : A → list B) (l : list A) :
  0 < Z.of_nat (length (concat (f <$> l))) ↔ ∃ d, d ∈ l ∧ f d ≠ [].
Proof.
  induction l as [|d l IH]; cbn.
  - split; [lia|]. intros (d & Hd & _). by apply elem_of_nil in Hd.
  - rewrite length_app. destruct (f d) as [|x xs] eqn:Hf; cbn.
    + rewrite IH. split.
      * intros (d' & ? & ?). exists d'. split; [by right|done].
      * intros (d' & [->|?]%elem_of_cons & ?); [congruence|by exists d'].
    + split; [|lia]. intros _. exists d. split; [left|congruence].
Qed.

(** X10. The slot total of the summary line of the plan page is the number
    of rows in all slot tables; the chip of skipped tasks is shown exactly
    when some destination of the plan has a skipped task; the rows of a
    table are numbered 1, 2, ... and follow the slots of the destination. *)
Theorem plan_totals (s : PlanPage.State) :
  PlanView.totalSlots s = Z.of_nat (length (concat (PlanPage.slot_tables s)))
  ∧ (PlanView.skipped_chip_shown s = true ↔
     ∃ p dest, PlanPage.plan s = Some (PlanPage.BPlan p)
               ∧ dest ∈ Api.destinations p ∧ Api.skipped dest ≠ [])
  ∧ (∀ dest : Api.DestPlan,
       PlanPage.row_number <$> PlanPage.slot_rows (PlanPage.basePriority s) dest
       = (λ i : nat, Z.of_nat i + 1) <$> seq 0 (length (Api.slots dest))
       ∧ PlanPage.row_task_id
         <$> PlanPage.slot_rows (PlanPage.basePriority s) dest
         = Api.slot_task_id <$> Api.slots dest).
Proof.
  split; [|split].
  - unfold PlanView.totalSlots, PlanPage.slot_tables.
    destruct (PlanPage.plan s) as [[p|r]|]; [|done..].
    rewrite foldl_add_lengths, Z.add_0_l. f_equal.
    symmetry. apply concat_lengths. intros d. apply slot_rows_length.
  - unfold PlanView.skipped_chip_shown, PlanView.totalSkipped.
    rewrite bool_decide_eq_true.
    destruct (PlanPage.plan s) as [[p|r]|].
    + rewrite foldl_add_lengths, Z.add_0_l, concat_nonempty.
      split; [intros (dest & ? & ?); by exists p, dest|].
      intros (p' & dest & [= <-] & ? & ?). by exists dest.
    + split; [lia|]. by intros (p & ? & ? & _).
    + split; [lia|]. by intros (p & ? & ? & _).
  - intros dest. unfold PlanPage.slot_rows.
    generalize (PlanPage.basePriority s). intros bp.
    split.
    + rewrite fmap_imap. unfold compose. cbn.
      exact (imap_seq_0 _ (λ i : nat, Z.of_nat i + 1)).
    + rewrite fmap_imap. unfold compose. cbn.
      exact (imap_const Api.slot_task_id _).
Qed.

(** X11. The build button sends one GET for the selected date and drops the
    plan and the apply result that were on the page.  An answer that is ok
    and decodes is stored as the plan, whatever its shape, unless it carries
    a non-empty [error]: a plan is shown afterwards only if such an answer
    had the shape of a plan, and a stored answer of the other shape makes
    the render throw.  In every other case (an [error] in the answer, an
    HTTP error, a rejected request, a body that is not JSON) no plan is
    stored, a failure toast says why (the server's own message if it sent
    one), and the apply buttons are not offered.  With a route id that is
    not a number, or zero, nothing happens. *)
Theorem build_outcome (env : option string) (projectId : RouteId)
    (net : Net PlanPage.Body) (c : PlanPage.Clock) (w : World PlanPage.State) :
  let call :=
    get (or_default env "" +:+ "/api/projects/" +:+ show_id projectId
         +:+ "/publish-plan?date=" +:+ PlanPage.selectedDate c (page w)) in
  let w' := exec (PlanPage.handle env projectId net c PlanPage.ClickBuild) w in
  let failed msg :=
    PlanPage.plan (page w') = None
    ∧ PlanPage.toast (page w') = Some (PlanPage.mkToast msg PlanPage.failure)
    ∧ ∀ enqueue,
        PlanPage.offered projectId (PlanPage.ClickApply enqueue) (page w')
        = false in
  let stored data :=
    PlanPage.plan (page w') = Some data
    ∧ PlanPage.toast (page w') = PlanPage.toast (page w) in
  if truthy projectId then
    sent w' = sent w ++ [call]
    ∧ PlanPage.applyResult (page w') = None
    ∧ PlanPage.loading (page w') = false
    ∧ PlanPage.dateChoice (page w') = PlanPage.dateChoice (page w)
    ∧ PlanPage.basePriority (page w') = PlanPage.basePriority (page w)
    ∧ match net (sent w) call with
      | Some (mkResponse true _ _ (Some (PlanPage.BPlan data))) =>
          match Api.error data with
          | Some (String a msg) => failed (String a msg)
          | _ =>
              stored (PlanPage.BPlan data)
              ∧ PlanPage.renders (page w') = true
              ∧ PlanPage.slot_tables (page w')
                = PlanPage.slot_rows (PlanPage.basePriority (page w))
                  <$> Api.destinations data
          end
      | Some (mkResponse true _ _ (Some (PlanPage.BApply result))) =>
          stored (PlanPage.BApply result)
          ∧ PlanPage.renders (page w') = false
          ∧ ∀ ev, PlanPage.offered projectId ev (page w') = false
      | Some (mkResponse false _ _ _) => failed "Ошибка загрузки плана"
      | _ => failed "Сетевая ошибка"
      end
  else w' = w.
Proof.
  intros call w' failed stored. subst w' failed stored. cbn [PlanPage.handle].
  unfold PlanPage.loadPlan, PlanPage.showToast, PlanPage.offered,
    PlanPage.renders, PlanPage.slot_tables.
  destruct (truthy projectId) eqn:Hid; [|reflexivity].
  assert (call = get (PlanPage.plan_url env projectId
                        (PlanPage.selectedDate c (page w)))) as Hcall
    by reflexivity.
  clearbody call. destruct w as [s log]. act_step.
  change (PlanPage.selectedDate c _) with (PlanPage.selectedDate c s).
  cbn [page] in Hcall. rewrite <-Hcall.
  destruct (net log call) as [[[] st tx [[p|r]|]]|]; cbn -[String.append];
    try (repeat split; reflexivity).
  destruct (Api.error p) as [[|a msg]|]; cbn -[String.append];
    repeat split; reflexivity.
Qed.

Section Later.

Lemma next_day_later (ymd : Z * Z * Z) : date_lt ymd (next_day ymd).
Proof.
  destruct ymd as [[y m] d]. unfold next_day, date_lt.
  repeat case_decide; lia.
Qed.

Lemma date_lt_trans (a b c : Z * Z * Z) : date_lt a b → date_lt b c → date_lt a c.
Proof.
  destruct a as [[y m] d], b as [[y' m'] d'], c as [[y'' m''] d''].
  unfold date_lt. lia.
Qed.

Lemma date_lt_irrefl (a : Z * Z * Z) : ¬ date_lt a a.
Proof. destruct a as [[y m] d]. unfold date_lt. lia. Qed.

(** Later day numbers are later dates. *)
Lemma civil_from_days_mono (n n' : Z) :
  n < n' → date_lt (civil_from_days n) (civil_from_days n').
Proof.
  intros Hlt. replace n' with (n + 1 + Z.of_nat (Z.to_nat (n' - n - 1))) by lia.
  induction (Z.to_nat (n' - n - 1)) as [|k IH].
  - rewrite Z.add_0_r, civil_from_days_succ. apply next_day_later.
  - replace (n + 1 + Z.of_nat (S k)) with (n + 1 + Z.of_nat k + 1) by lia.
    rewrite civil_from_days_succ.
    eapply date_lt_trans; [exact IH | apply next_day_later].
Qed.

Lemma digit_inj (a b : Z) :
  0 ≤ a ≤ 9 → 0 ≤ b ≤ 9 → digit a = digit b → a = b.
Proof.
  intros Ha Hb.
  assert (a = 0 ∨ a = 1 ∨ a = 2 ∨ a = 3 ∨ a = 4 ∨ a = 5 ∨ a = 6 ∨ a = 7
          ∨ a = 8 ∨ a = 9) as Ha' by lia.
  assert (b = 0 ∨ b = 1 ∨ b = 2 ∨ b = 3 ∨ b = 4 ∨ b = 5 ∨ b = 6 ∨ b = 7
          ∨ b = 8 ∨ b = 9) as Hb' by lia.
  clear Ha Hb.
  repeat (destruct Ha' as [->|Ha']); try subst a;
    repeat (destruct Hb' as [->|Hb']); try subst b;
    first [reflexivity | discriminate 1].
Qed.

Lemma pad2_inj (n n' : Z) :
  0 ≤ n ≤ 99 → 0 ≤ n' ≤ 99 → pad2 n = pad2 n' → n = n'.
Proof.
  intros Hn Hn'. unfold pad2. intros [= H1 H0].
  apply digit_inj in H1; [|Z.div_mod_to_equations; lia..].
  apply digit_inj in H0; [|Z.div_mod_to_equations; lia..].
  Z.div_mod_to_equations. lia.
Qed.

Lemma pad4_inj (n n' : Z) :
  0 ≤ n ≤ 9999 → 0 ≤ n' ≤ 9999 → pad4 n = pad4 n' → n = n'.
Proof.
  intros Hn Hn'. unfold pad4, pad2. intros [= H3 H2 H1 H0].
  apply digit_inj in H3; [|Z.div_mod_to_equations; lia..].
  apply digit_inj in H2; [|Z.div_mod_to_equations; lia..].
  apply digit_inj in H1; [|Z.div_mod_to_equations; lia..].
  apply digit_inj in H0; [|Z.div_mod_to_equations; lia..].
  Z.div_mod_to_equations. lia.
Qed.

Lemma date_text_inj (a b : Z * Z * Z) :
  let '(y, m, d) := a in
  let '(y', m', d') := b in
  0 ≤ y ≤ 9999 → 0 ≤ m ≤ 99 → 0 ≤ d ≤ 99 →
  0 ≤ y' ≤ 9999 → 0 ≤ m' ≤ 99 → 0 ≤ d' ≤ 99 →
  date_text a = date_text b → a = b.
Proof.
  destruct a as [[y m] d], b as [[y' m'] d'].
  intros Hy Hm Hd Hy' Hm' Hd'. unfold date_text, year_text.
  rewrite !decide_True by done.
  intros H.
  assert (pad4 y = pad4 y' ∧ pad2 m = pad2 m' ∧ pad2 d = pad2 d')
    as (H1 & H2 & H3).
  { unfold pad4, pad2 in *.
    cbv beta iota delta [String.append] in H. injection H as -> -> -> -> -> -> -> ->.
    done. }
  by rewrite (pad4_inj y y'), (pad2_inj m m'), (pad2_inj d d').
Qed.

End Later.

(** X12. For a clock between 1970 and 9999 that does not run backwards
    between the two readings of a render, the date behind the Tomorrow button
    is later than the date behind the Today button, so the two buttons never
    stand for the same date; when both readings fall on the same UTC day it
    is the calendar day after. *)
Theorem tomorrow_after_today (c : PlanPage.Clock) :
  sane c →
  PlanPage.read_for_today c ≤ PlanPage.read_for_tomorrow c →
  let date_of ms := civil_from_days (day_number ms) in
  PlanPage.today c = date_text (date_of (PlanPage.read_for_today c))
  ∧ PlanPage.tomorrow c
    = date_text (date_of (PlanPage.read_for_tomorrow c + 86400000))
  ∧ date_lt (date_of (PlanPage.read_for_today c))
      (date_of (PlanPage.read_for_tomorrow c + 86400000))
  ∧ PlanPage.today c ≠ PlanPage.tomorrow c
  ∧ (day_number (PlanPage.read_for_today c)
     = day_number (PlanPage.read_for_tomorrow c) →
     date_of (PlanPage.read_for_tomorrow c + 86400000)
     = next_day (date_of (PlanPage.read_for_today c))).
Proof.
  intros (Ht & Hm0 & Hm1) Hle date_of. unfold PlanPage.today, PlanPage.tomorrow.
  destruct (utc_date_text (PlanPage.read_for_today c) Ht) as [Htoday _].
  destruct (utc_date_text (PlanPage.read_for_tomorrow c + 86400000)
              ltac:(lia)) as [Htomorrow _].
  assert (day_number (PlanPage.read_for_tomorrow c + 86400000)
          = day_number (PlanPage.read_for_tomorrow c) + 1) as Hnext.
  { change 86400000 with ms_per_day. apply day_number_next. }
  assert (day_number (PlanPage.read_for_today c)
          ≤ day_number (PlanPage.read_for_tomorrow c)) as Hdays.
  { unfold day_number, ms_per_day. apply Z.div_le_mono; lia. }
  assert (date_lt (date_of (PlanPage.read_for_today c))
            (date_of (PlanPage.read_for_tomorrow c + 86400000))) as Hlater.
  { subst date_of. cbn beta. rewrite Hnext. apply civil_from_days_mono. lia. }
  split; [exact Htoday|]. split; [exact Htomorrow|]. split; [exact Hlater|].
  split.
  - rewrite Htoday, Htomorrow. intros Heq.
    assert (0 ≤ day_number (PlanPage.read_for_today c) < 2932897) as Hr1.
    { unfold day_number, ms_per_day. Z.div_mod_to_equations. lia. }
    assert (0 ≤ day_number (PlanPage.read_for_tomorrow c + 86400000) < 2932897)
      as Hr2.
    { unfold day_number, ms_per_day. Z.div_mod_to_equations. lia. }
    pose proof (civil_from_days_range _ Hr1) as Hc1.
    pose proof (civil_from_days_range _ Hr2) as Hc2.
    pose proof (date_text_inj
                  (civil_from_days (day_number (PlanPage.read_for_today c)))
                  (civil_from_days
                     (day_number (PlanPage.read_for_tomorrow c + 86400000))))
      as Hinj.
    subst date_of. cbn beta in Hlater.
    destruct (civil_from_days (day_number (PlanPage.read_for_today c)))
      as [[y m] d].
    destruct (civil_from_days
                (day_number (PlanPage.read_for_tomorrow c + 86400000)))
      as [[y' m'] d'].
    rewrite Hinj in Hlater by (lia || exact Heq).
    by apply date_lt_irrefl in Hlater.
  - intros Hsame. subst date_of. cbn beta.
    by rewrite Hnext, <-Hsame, civil_from_days_succ.
Qed.

Lemma tomorrow_after_today_witness :
  PlanPage.today Sample.evening_clock = "2026-11-02"
  ∧ PlanPage.tomorrow Sample.evening_clock = "2026-11-03"
  ∧ PlanPage.today Sample.evening_clock ≠ PlanPage.tomorrow Sample.evening_clock.
Proof.
  split; [vm_compute; reflexivity|]. split; [vm_compute; reflexivity|].
  refine (proj1 (proj2 (proj2 (proj2
            (tomorrow_after_today Sample.evening_clock _ _))))).
  - repeat split; cbn; lia.
  - cbn. lia.
Defined.

(** ** The task detail page: requests and state *)

Section TaskExec.

Variable taskId : RouteId.
Variable net : Net TaskPage.Body.
Variables fetch_failure json_failure : string.

Let fetchData := TaskPage.fetchData taskId net fetch_failure json_failure.
Let handle := TaskPage.handle taskId net fetch_failure json_failure.
Let run := TaskPage.run taskId net fetch_failure json_failure.

Hypothesis valid : truthy taskId = true.

Lemma fetchData_spec (w : World TaskPage.State) :
  let call := get (TaskPage.task_url taskId +:+ "/ui") in
  let w' := exec fetchData w in
  sent w' = sent w ++ [call]
  ∧ TaskPage.loading (page w') = false
  ∧ TaskPage.setLoading (TaskPage.loading (page w))
      (TaskPage.setData (TaskPage.data (page w))
         (TaskPage.setError (TaskPage.error (page w))
            (TaskPage.setErrorStatus (TaskPage.errorStatus (page w))
               (page w'))))
    = page w
  ∧ match net (sent w) call with
    | Some (mkResponse true _ _ (Some json)) =>
        TaskPage.data (page w') = Some json
        ∧ TaskPage.error (page w') = None
        ∧ TaskPage.errorStatus (page w') = None
    | Some (mkResponse true _ _ None) =>
        TaskPage.data (page w') = None
        ∧ TaskPage.error (page w') = Some json_failure
        ∧ TaskPage.errorStatus (page w') = None
    | Some (mkResponse false st tx _) =>
        TaskPage.data (page w') = None
        ∧ TaskPage.error (page w')
          = Some (if decide (st = 404) then "Задача не найдена"
                  else "Ошибка " +:+ show_int st +:+ ": "
                       +:+ (if decide (tx = "") then "Неизвестно" else tx))
        ∧ TaskPage.errorStatus (page w') = Some st
    | None =>
        TaskPage.data (page w') = None
        ∧ TaskPage.error (page w') = Some fetch_failure
        ∧ TaskPage.errorStatus (page w') = None
    end.
Proof.
  unfold fetchData, TaskPage.fetchData, TaskPage.fetchData_begin,
    TaskPage.fetchData_settle.
  rewrite valid. destruct w as [[] log]. act_step.
  destruct (net _ _) as [[[] st tx [json|]]|]; cbn -[String.append];
    repeat split.
Qed.

Lemma loadLog_spec (tail : Z) (w : World TaskPage.State) :
  let call :=
    get (TaskPage.task_url taskId +:+ "/log?tail=" +:+ show_int tail) in
  let w' := exec (TaskPage.loadLog taskId net tail) w in
  sent w' = sent w ++ [call]
  ∧ TaskPage.setLogTail (TaskPage.logTail (page w)) (page w') = page w
  ∧ TaskPage.logTail (page w')
    = match net (sent w) call with
      | Some (mkResponse true _ _ (Some (TaskPage.BLog (Some text)))) => text
      | _ => ""
      end.
Proof.
  unfold TaskPage.loadLog. rewrite valid.
  destruct w as [[] log]. act_step.
  destruct (net _ _) as [[[] st tx [[d|[t|]]|]]|]; cbn -[String.append];
    repeat split.
Qed.

End TaskExec.

Section TaskHandlers.

Variable taskId : RouteId.
Variable net : Net TaskPage.Body.
Variables fetch_failure json_failure : string.

Let fetchData := TaskPage.fetchData taskId net fetch_failure json_failure.
Let loadLog := TaskPage.loadLog taskId net.
Let handle := TaskPage.handle taskId net fetch_failure json_failure.
Let run := TaskPage.run taskId net fetch_failure json_failure.

Hypothesis valid : truthy taskId = true.

Lemma handleProcess_exec (w : World TaskPage.State) :
  let call := post (TaskPage.task_url taskId +:+ "/process") in
  let w1 :=
    mkWorld (TaskPage.setActionError None (page w)) (sent w ++ [call]) in
  exec (TaskPage.handleProcess taskId net fetch_failure json_failure) w
  = match net (sent w) call with
    | Some resp =>
        if resp_ok resp
        then exec (loadLog (TaskPage.tailSize (page w))) (exec fetchData w1)
        else mkWorld
               (TaskPage.setActionError (Some "Не удалось запустить обработку")
                  (page w))
               (sent w ++ [call])
    | None => w1
    end.
Proof.
  unfold TaskPage.handleProcess. rewrite valid. destruct w as [s log].
  act_step. destruct (net _ _) as [[[] st tx js]|]; cbn -[String.append];
    try reflexivity.
  match goal with
  | |- context [TaskPage.fetchData taskId net fetch_failure json_failure ?w0] =>
      rewrite (act_unit
                 (TaskPage.fetchData taskId net fetch_failure json_failure) w0)
  end.
  by destruct s.
Qed.

Lemma handleStatusUpdate_exec (status : string) (reason : option string)
    (w : World TaskPage.State) :
  let call :=
    send_json PATCH (TaskPage.task_url taskId)
      (TaskPage.status_body status reason) in
  let w1 :=
    mkWorld (TaskPage.setActionError None (page w)) (sent w ++ [call]) in
  exec (TaskPage.handleStatusUpdate taskId net fetch_failure json_failure
          status reason) w
  = match net (sent w) call with
    | Some resp =>
        if resp_ok resp then exec fetchData w1
        else mkWorld
               (TaskPage.setActionError (Some "Не удалось обновить статус")
                  (page w))
               (sent w ++ [call])
    | None => w1
    end.
Proof.
  unfold TaskPage.handleStatusUpdate. rewrite valid. destruct w as [s log].
  act_step. destruct (net _ _) as [[[] st tx js]|]; cbn -[String.append];
    reflexivity.
Qed.

End TaskHandlers.

Section TaskRequests.

Variable taskId : RouteId.
Variable net : Net TaskPage.Body.
Variables fetch_failure json_failure : string.

Let tail_listed (s : TaskPage.State) : Prop :=
  TaskPage.tailSize s ∈ TaskPage.tail_options.

Lemma ui_is_task_request :
  task_request taskId (get (TaskPage.task_url taskId +:+ "/ui")).
Proof. by left. Qed.

Lemma log_is_task_request (tail : Z) :
  tail ∈ TaskPage.tail_options →
  task_request taskId
    (get (TaskPage.task_url taskId +:+ "/log?tail=" +:+ show_int tail)).
Proof. intros Ht. right. left. by exists tail. Qed.

Lemma process_is_task_request :
  task_request taskId (post (TaskPage.task_url taskId +:+ "/process")).
Proof. right. right. by left. Qed.

Lemma patch_is_task_request (body : Json) :
  task_request taskId (send_json PATCH (TaskPage.task_url taskId) body).
Proof. right. right. right. by exists body. Qed.

Lemma fetchData_scoped :
  keeps tail_listed (task_request taskId)
    (TaskPage.fetchData taskId net fetch_failure json_failure).
Proof.
  unfold TaskPage.fetchData. keeps_auto. apply keeps_fetch, ui_is_task_request.
Qed.

Lemma loadLog_scoped (tail : Z) :
  tail ∈ TaskPage.tail_options →
  keeps tail_listed (task_request taskId) (TaskPage.loadLog taskId net tail).
Proof.
  intros Ht. unfold TaskPage.loadLog. keeps_auto.
  by apply keeps_fetch, log_is_task_request.
Qed.

Lemma handle_scoped (ev : TaskPage.Event) :
  keeps tail_listed (task_request taskId)
    (TaskPage.handle taskId net fetch_failure json_failure ev).
Proof.
  destruct ev as [| | | |k|]; cbn [TaskPage.handle].
  - apply keeps_read. intros s Hs.
    repeat (apply keeps_bind; [|intros _]);
      first [apply fetchData_scoped | by apply loadLog_scoped].
  - unfold TaskPage.handleProcess.
    destruct (negb (truthy taskId)); [apply keeps_ret|].
    apply keeps_bind; [keeps_auto|intros _].
    apply keeps_bind; [apply keeps_fetch, process_is_task_request|].
    intros [resp|]; [|apply keeps_ret].
    destruct (resp_ok resp); [|keeps_auto].
    apply keeps_read. intros s Hs.
    apply keeps_bind; [apply fetchData_scoped|intros _].
    by apply loadLog_scoped.
  - unfold TaskPage.handleStatusUpdate. keeps_auto;
      first [apply fetchData_scoped | apply keeps_fetch, patch_is_task_request].
  - unfold TaskPage.handleStatusUpdate. keeps_auto;
      first [apply fetchData_scoped | apply keeps_fetch, patch_is_task_request].
  - destruct (TaskPage.tail_options !! k) as [v|] eqn:Hk; [|apply keeps_ret].
    assert (v ∈ TaskPage.tail_options) as Hv by by eapply list_elem_of_lookup_2.
    apply keeps_read. intros s Hs.
    apply keeps_bind; [by apply keeps_update|intros _].
    case_decide; [apply keeps_ret | by apply loadLog_scoped].
  - apply keeps_read. intros s Hs. by apply loadLog_scoped.
Qed.

Lemma run_scoped (evs : list TaskPage.Event) :
  keeps tail_listed (task_request taskId)
    (TaskPage.run taskId net fetch_failure json_failure evs).
Proof.
  induction evs as [|ev evs IH]; [apply keeps_ret|].
  apply keeps_bind; [apply handle_scoped | intros _; exact IH].
Qed.

End TaskRequests.

Section Silent.

Variable taskId : RouteId.
Variable net : Net TaskPage.Body.
Variables fetch_failure json_failure : string.

Hypothesis invalid : truthy taskId = false.

Lemma task_handle_silent (ev : TaskPage.Event) (w : World TaskPage.State) :
  let w' := exec (TaskPage.handle taskId net fetch_failure json_failure ev) w in
  sent w' = sent w
  ∧ TaskPage.setTailSize (TaskPage.tailSize (page w)) (page w') = page w.
Proof.
  destruct w as [[] log].
  destruct ev as [| | | |k|]; cbn [TaskPage.handle];
    unfold TaskPage.fetchData, TaskPage.loadLog, TaskPage.handleProcess,
      TaskPage.handleStatusUpdate; rewrite ?invalid; try done.
  destruct (TaskPage.tail_options !! k); [|done].
  act_step. case_decide; by rewrite ?invalid.
Qed.

Lemma task_run_silent (evs : list TaskPage.Event) (w : World TaskPage.State) :
  let w' := exec (TaskPage.run taskId net fetch_failure json_failure evs) w in
  sent w' = sent w
  ∧ TaskPage.setTailSize (TaskPage.tailSize (page w)) (page w') = page w.
Proof.
  revert w. induction evs as [|ev evs IH]; intros w.
  - by destruct w as [[] ?].
  - cbn [TaskPage.run]. cbn zeta. rewrite exec_then.
    destruct (task_handle_silent ev w) as [Hs Hp].
    destruct (IH (exec (TaskPage.handle taskId net fetch_failure json_failure
                          ev) w)) as [Hs' Hp'].
    cbn zeta in *. split; [congruence|].
    rewrite <-Hp, <-Hp'. by destruct (page (exec _ (exec _ w))).
Qed.

End Silent.

Section PlanSilent.

Variable env : option string.
Variable projectId : RouteId.
Variable net : Net PlanPage.Body.

Hypothesis invalid : truthy projectId = false.

Lemma plan_handle_silent (c : PlanPage.Clock) (ev : PlanPage.Event)
    (w : World PlanPage.State) :
  let w' := exec (PlanPage.handle env projectId net c ev) w in
  sent w' = sent w
  ∧ PlanPage.setDateChoice (PlanPage.dateChoice (page w))
      (PlanPage.setBasePriority (PlanPage.basePriority (page w))
         (PlanPage.setToast (PlanPage.toast (page w)) (page w')))
    = page w.
Proof.
  destruct w as [[] log].
  destruct ev as [| |k| |enqueue|]; cbn [PlanPage.handle];
    unfold PlanPage.loadPlan, PlanPage.applyPlan; rewrite ?invalid; try done.
  by destruct (PlanPage.priority_options !! k).
Qed.

Lemma plan_run_silent (evs : list (PlanPage.Clock * PlanPage.Event))
    (w : World PlanPage.State) :
  let w' := exec (PlanPage.run env projectId net evs) w in
  sent w' = sent w
  ∧ PlanPage.setDateChoice (PlanPage.dateChoice (page w))
      (PlanPage.setBasePriority (PlanPage.basePriority (page w))
         (PlanPage.setToast (PlanPage.toast (page w)) (page w')))
    = page w.
Proof.
  revert w. induction evs as [|[c ev] evs IH]; intros w.
  - by destruct w as [[] ?].
  - cbn [PlanPage.run]. cbn zeta. rewrite exec_then.
    destruct (plan_handle_silent c ev w) as [Hs Hp].
    destruct (IH (exec (PlanPage.handle env projectId net c ev) w))
      as [Hs' Hp'].
    cbn zeta in *. split; [congruence|].
    rewrite <-Hp, <-Hp'. by destruct (page (exec _ (exec _ w))).
Qed.

End PlanSilent.

(** X13. On a route whose id is not a number, or is zero, neither the plan
    page nor the task detail page ever sends a request, whatever the operator
    does, and neither ever gets a plan, an apply result, task data, an error
    or a log. *)
Theorem no_requests_without_route_id (route : RouteId)
    (env : option string) (plan_net : Net PlanPage.Body)
    (task_net : Net TaskPage.Body) (fetch_failure json_failure : string)
    (plan_events : list (PlanPage.Clock * PlanPage.Event))
    (task_events : list TaskPage.Event)
    (planning : World PlanPage.State) (viewing : World TaskPage.State) :
  truthy route = false →
  let planning' := exec (PlanPage.run env route plan_net plan_events) planning in
  let viewing' :=
    exec (TaskPage.run route task_net fetch_failure json_failure task_events)
      viewing in
  (route = NaN ∨ route = Id 0)
  ∧ sent planning' = sent planning
  ∧ PlanPage.plan (page planning') = PlanPage.plan (page planning)
  ∧ PlanPage.applyResult (page planning')
    = PlanPage.applyResult (page planning)
  ∧ sent viewing' = sent viewing
  ∧ TaskPage.data (page viewing') = TaskPage.data (page viewing)
  ∧ TaskPage.error (page viewing') = TaskPage.error (page viewing)
  ∧ TaskPage.logTail (page viewing') = TaskPage.logTail (page viewing).
Proof.
  intros Hid planning' viewing'.
  destruct (plan_run_silent env route plan_net Hid plan_events planning)
    as [Hps Hpp].
  destruct (task_run_silent route task_net fetch_failure json_failure Hid
              task_events viewing) as [Hts Htp].
  cbn zeta in *. fold planning' in Hps, Hpp. fold viewing' in Hts, Htp.
  split.
  { destruct route as [|z]; [by left|right]. cbn in Hid.
    apply bool_decide_eq_false_1 in Hid. f_equal.
    destruct (decide (z = 0)); [done|contradiction]. }
  split; [exact Hps|].
  rewrite <-Hpp, <-Htp. destruct (page planning'), (page viewing').
  by repeat split.
Qed.

Lemma no_requests_without_route_id_witness :
  sent (exec (PlanPage.run None NaN Sample.plan_server Sample.session)
          Sample.plan_loaded) = []
  ∧ sent (exec (TaskPage.run NaN Sample.task_server "" ""
                  [TaskPage.Mount; TaskPage.ClickMarkDone;
                   TaskPage.ChooseTail 1; TaskPage.ClickProcess])
            (mkWorld TaskPage.initial [])) = [].
Proof.
  destruct (no_requests_without_route_id NaN None Sample.plan_server
              Sample.task_server "" "" Sample.session
              [TaskPage.Mount; TaskPage.ClickMarkDone; TaskPage.ChooseTail 1;
               TaskPage.ClickProcess]
              Sample.plan_loaded (mkWorld TaskPage.initial []) eq_refl)
    as (_ & Hp & _ & _ & Ht & _).
  by split.
Defined.

(** X14. Whatever the operator does on the task detail page, every request
    goes to the task of the route: a GET of its [ui] view or of its log with a
    tail of 200, 500 or 2000 lines, a POST to [process], or a PATCH of the
    task itself; the tail size stays one of the three. *)
Theorem task_requests_scoped (taskId : RouteId) (net : Net TaskPage.Body)
    (fetch_failure json_failure : string) (evs : list TaskPage.Event) :
  let w :=
    exec (TaskPage.run taskId net fetch_failure json_failure evs)
      (mkWorld TaskPage.initial []) in
  let base := "/api/publish-tasks/" +:+ show_id taskId in
  TaskPage.tailSize (page w) ∈ [200; 500; 2000]
  ∧ Forall
      (λ r, r = get (base +:+ "/ui")
            ∨ (∃ tail, tail ∈ [200; 500; 2000]
                       ∧ r = get (base +:+ "/log?tail=" +:+ show_int tail))
            ∨ r = post (base +:+ "/process")
            ∨ ∃ body, r = send_json PATCH base body)
      (sent w).
Proof.
  intros w base.
  destruct (run_scoped taskId net fetch_failure json_failure evs
              (mkWorld TaskPage.initial [])) as [H1 H2]; [|by split].
  split; [|constructor]. cbn. apply elem_of_cons. by left.
Qed.

Section TaskCoherence.

Variable taskId : RouteId.
Variable net : Net TaskPage.Body.
Variables fetch_failure json_failure : string.

Let fetchData := TaskPage.fetchData taskId net fetch_failure json_failure.
Let loadLog := TaskPage.loadLog taskId net.

Lemma task_coherent_frame (s s' : TaskPage.State) :
  TaskPage.loading s' = TaskPage.loading s →
  TaskPage.data s' = TaskPage.data s →
  TaskPage.error s' = TaskPage.error s →
  TaskPage.errorStatus s' = TaskPage.errorStatus s →
  task_coherent s → task_coherent s'.
Proof. unfold task_coherent. by intros -> -> -> ->. Qed.

Section Valid.

Hypothesis valid : truthy taskId = true.

Lemma fetchData_coherent (w : World TaskPage.State) :
  task_coherent (page (exec fetchData w)).
Proof.
  destruct (fetchData_spec taskId net fetch_failure json_failure valid w)
    as (_ & Hl & _ & Hans).
  cbn zeta in *. fold fetchData in Hl, Hans. unfold task_coherent.
  split; [exact Hl|].
  destruct (net _ _) as [[[] st tx [json|]]|];
    destruct Hans as (-> & -> & ->);
    (split; [intros [? ?] | intros [? ?]]; done).
Qed.

(** Two loads in flight at once, the first answered with an HTTP error and
    the second with a body that decodes. *)
Lemma fetchData_overlapping_exec (w : World TaskPage.State) (st st' : Z)
    (tx tx' : string) (body : option TaskPage.Body) (json : TaskPage.Body) :
  let call := get (TaskPage.task_url taskId +:+ "/ui") in
  net (sent w) call = Some (mkResponse false st tx body) →
  net (sent w ++ [call]) call
  = Some (mkResponse true st' tx' (Some json)) →
  let s :=
    page (exec (TaskPage.fetchData_overlapping taskId net fetch_failure
                  json_failure) w) in
  TaskPage.loading s = false
  ∧ TaskPage.data s = Some json
  ∧ TaskPage.error s
    = Some (if decide (st = 404) then "Задача не найдена"
            else "Ошибка " +:+ show_int st +:+ ": "
                 +:+ (if decide (tx = "") then "Неизвестно" else tx))
  ∧ TaskPage.errorStatus s = Some st.
Proof.
  intros call Hfirst Hsecond.
  unfold TaskPage.fetchData_overlapping, TaskPage.fetchData_begin,
    TaskPage.fetchData_settle.
  rewrite valid. destruct w as [[] log]. cbn [page sent] in *. act_step.
  fold call. rewrite Hfirst. cbn -[String.append]. fold call.
  rewrite Hsecond. cbn -[String.append]. repeat split.
Qed.

Lemma loadLog_coherent (tail : Z) (w : World TaskPage.State) :
  task_coherent (page w) → task_coherent (page (exec (loadLog tail) w)).
Proof.
  destruct (loadLog_spec taskId net valid tail w) as (_ & Hf & _).
  cbn zeta in Hf. fold loadLog in Hf.
  apply task_coherent_frame; rewrite <-Hf; by destruct (page (exec _ w)).
Qed.

Lemma handle_coherent_valid (ev : TaskPage.Event) (w : World TaskPage.State) :
  task_coherent (page w) →
  task_coherent
    (page (exec (TaskPage.handle taskId net fetch_failure json_failure ev) w)).
Proof.
  intros Hw. destruct ev as [| | | |k|]; cbn [TaskPage.handle].
  - rewrite exec_bind. cbn [read fst snd]. rewrite !exec_then.
    by apply loadLog_coherent, loadLog_coherent, fetchData_coherent.
  - rewrite handleProcess_exec by done. cbn zeta.
    destruct (net _ _) as [[[] st tx js]|]; cbn [resp_ok].
    + apply loadLog_coherent, fetchData_coherent.
    + revert Hw. apply task_coherent_frame; by destruct (page w).
    + revert Hw. apply task_coherent_frame; by destruct (page w).
  - rewrite handleStatusUpdate_exec by done. cbn zeta.
    destruct (net _ _) as [[[] st tx js]|]; cbn [resp_ok].
    + apply fetchData_coherent.
    + revert Hw. apply task_coherent_frame; by destruct (page w).
    + revert Hw. apply task_coherent_frame; by destruct (page w).
  - rewrite handleStatusUpdate_exec by done. cbn zeta.
    destruct (net _ _) as [[[] st tx js]|]; cbn [resp_ok].
    + apply fetchData_coherent.
    + revert Hw. apply task_coherent_frame; by destruct (page w).
    + revert Hw. apply task_coherent_frame; by destruct (page w).
  - destruct (TaskPage.tail_options !! k) as [v|]; [|done].
    rewrite exec_bind. cbn [read fst snd]. rewrite exec_then.
    assert (task_coherent (page (exec (update (TaskPage.setTailSize v)) w)))
      as Hw1.
    { revert Hw. apply task_coherent_frame; by destruct w as [[] ?]. }
    case_decide; [exact Hw1 | by apply loadLog_coherent].
  - rewrite exec_bind. cbn [read fst snd]. by apply loadLog_coherent.
Qed.

End Valid.

Lemma handle_coherent (ev : TaskPage.Event) (w : World TaskPage.State) :
  task_coherent (page w) →
  task_coherent
    (page (exec (TaskPage.handle taskId net fetch_failure json_failure ev) w)).
Proof.
  destruct (truthy taskId) eqn:Hid; [by apply handle_coherent_valid|].
  destruct (task_handle_silent taskId net fetch_failure json_failure Hid ev w)
    as [_ Hf].
  cbn zeta in Hf.
  apply task_coherent_frame; rewrite <-Hf; by destruct (page (exec _ w)).
Qed.

End TaskCoherence.

(** X15. A load of the task that settles with no other handler in between
    leaves the page coherent, whatever the page held before and whatever the
    answer: not loading, no error next to task data, an error status only
    with an error and without data, and the not-found placeholder exactly
    when there is no task data, in particular whenever an error line is
    shown.  The handler of every event keeps the page coherent when it
    settles with no other handler in between.  Two loads in flight at once
    break it: when the first is answered with an HTTP error and the second
    with a body that decodes, the page ends with task data, the error of the
    first and its status all set. *)
Theorem task_page_coherent (taskId : RouteId) (net : Net TaskPage.Body)
    (fetch_failure json_failure : string) (ev : TaskPage.Event)
    (w : World TaskPage.State) :
  let coherent (s : TaskPage.State) : Prop :=
    TaskPage.loading s = false
    ∧ (is_Some (TaskPage.data s) → TaskPage.error s = None)
    ∧ (is_Some (TaskPage.errorStatus s) →
       is_Some (TaskPage.error s) ∧ TaskPage.data s = None)
    ∧ (is_Some (TaskView.error_line s) → TaskView.not_found_shown s = true)
    ∧ (TaskView.not_found_shown s = true ↔ TaskPage.data s = None) in
  let call := get ("/api/publish-tasks/" +:+ show_id taskId +:+ "/ui") in
  (if truthy taskId
   then coherent
          (page (exec (TaskPage.fetchData taskId net fetch_failure
                         json_failure) w))
   else exec (TaskPage.fetchData taskId net fetch_failure json_failure) w = w)
  ∧ (coherent (page w) →
     coherent
       (page (exec (TaskPage.handle taskId net fetch_failure json_failure ev)
                w)))
  ∧ (∀ (st st' : Z) (tx tx' : string) (body : option TaskPage.Body)
       (json : TaskPage.Body),
       truthy taskId = true →
       net (sent w) call = Some (mkResponse false st tx body) →
       net (sent w ++ [call]) call
       = Some (mkResponse true st' tx' (Some json)) →
       let s :=
         page (exec (TaskPage.fetchData_overlapping taskId net fetch_failure
                       json_failure) w) in
       TaskPage.loading s = false
       ∧ TaskPage.data s = Some json
       ∧ is_Some (TaskPage.error s)
       ∧ TaskPage.errorStatus s = Some st
       ∧ ¬ coherent s).
Proof.
  intros coherent call.
  assert (∀ s, task_coherent s → coherent s) as Hin.
  { intros s (Hl & Hd & He). unfold coherent.
    split; [exact Hl|]. split; [exact Hd|]. split; [exact He|].
    assert (TaskView.not_found_shown s = true ↔ TaskPage.data s = None) as Hnf.
    { unfold TaskView.not_found_shown. rewrite Hl. cbn.
      by rewrite bool_decide_eq_true. }
    split; [|exact Hnf].
    intros [line Hline]. apply Hnf. unfold TaskView.error_line in Hline.
    destruct (TaskPage.data s) as [d|] eqn:Hdata; [|done].
    rewrite Hd in Hline by by eexists. done. }
  assert (∀ s, coherent s → task_coherent s) as Hout.
  { intros s (Hl & Hd & He & _). by split. }
  split; [|split].
  - destruct (truthy taskId) eqn:Hid.
    + by apply Hin, fetchData_coherent.
    + unfold TaskPage.fetchData. by rewrite Hid.
  - intros Hw. by apply Hin, handle_coherent, Hout.
  - intros st st' tx tx' body json Hid Hfirst Hsecond s.
    destruct (fetchData_overlapping_exec taskId net fetch_failure json_failure
                Hid w st st' tx tx' body json Hfirst Hsecond)
      as (Hl & Hd & He & Hst).
    fold s in Hl, Hd, He, Hst.
    split; [exact Hl|]. split; [exact Hd|]. split; [by rewrite He|].
    split; [exact Hst|].
    intros (_ & Hnone & _). rewrite Hnone in He; [done|]. by rewrite Hd.
Qed.

Lemma task_page_coherent_witness :
  let net : Net TaskPage.Body :=
    λ log r,
      match log with
      | [] => Some (mkResponse false 500 "" None)
      | _ => Sample.task_server log r
      end in
  let s :=
    page (exec (TaskPage.fetchData_overlapping (Id 41) net "" "")
            (mkWorld TaskPage.initial [])) in
  is_Some (TaskPage.data s)
  ∧ is_Some (TaskPage.error s)
  ∧ TaskPage.errorStatus s = Some 500.
Proof.
  intros net s.
  destruct (task_page_coherent (Id 41) net "" "" TaskPage.Mount
              (mkWorld TaskPage.initial [])) as (_ & _ & Hoverlap).
  destruct (Hoverlap 500 200 "" "" None _ eq_refl eq_refl eq_refl)
    as (_ & Hd & He & Hst & _).
  split; [by eexists|]. by split.
Defined.



(** ** The log view *)

Section Strings.

Implicit Types (s p a b : string).

Lemma append_cons c s b : String c s +:+ b = String c (s +:+ b).
Proof. reflexivity. Qed.

Lemma append_nil_r s : s +:+ "" = s.
Proof. induction s as [|c s IH]; [done|]. by rewrite append_cons, IH. Qed.

Lemma append_assoc a s b : (a +:+ s) +:+ b = a +:+ (s +:+ b).
Proof. induction a as [|c a IH]; [done|]. by rewrite !append_cons, IH. Qed.

Lemma startsWith_spec s p :
  TaskLog.startsWith s p = true ↔ ∃ b, s = p +:+ b.
Proof.
  unfold TaskLog.startsWith. revert s.
  induction p as [|c p IH]; intros s.
  - split; [intros _; by exists s|]. intros _. by destruct s.
  - destruct s as [|d s]; cbn -[ascii_dec].
    + split; [done|]. by intros [b ?].
    + destruct (ascii_dec c d) as [->|Hne].
      * rewrite IH. split; intros [b Hb]; exists b.
        -- by rewrite Hb.
        -- by injection Hb.
      * split; [done|]. intros [b Hb]. injection Hb as ? ?. congruence.
Qed.

Lemma includes_spec s p :
  TaskLog.includes s p = true ↔ ∃ a b, s = a +:+ p +:+ b.
Proof.
  induction s as [|c s IH]; cbn [TaskLog.includes].
  - rewrite orb_false_r, startsWith_spec. split.
    + intros [b Hb]. by exists "", b.
    + intros (a & b & Hab). destruct a; [by exists b|done].
  - rewrite orb_true_iff, startsWith_spec, IH. split.
    + intros [[b Hb]|(a & b & Hab)].
      * by exists "", b.
      * exists (String c a), b. by rewrite Hab.
    + intros (a & b & Hab). destruct a as [|d a].
      * left. by exists b.
      * right. exists a, b. by injection Hab.
Qed.

(** [trimStart] cuts at the front, [trimEnd] at the back. *)
Lemma trimStart_suffix s : ∃ a, s = a +:+ TaskLog.trimStart s.
Proof.
  assert (∀ n s, (String.length s ≤ n)%nat → ∃ a, s = a +:+ TaskLog.trimStart s)
    as Hn; [|by apply (Hn (String.length s))].
  clear s. induction n as [|n IH]; intros s Hlen.
  { destruct s; [by exists ""|cbn in Hlen; lia]. }
  destruct s as [|a rest]; [by exists ""|]. cbn [TaskLog.trimStart].
  cbn in Hlen.
  destruct (TaskLog.space1 a).
  { destruct (IH rest ltac:(lia)) as [x Hx]. exists (String a x).
    by rewrite append_cons, <-Hx. }
  destruct rest as [|b [|c rest3]]; [by exists ""| |].
  - destruct (TaskLog.space2 a b); [|by exists ""].
    exists (String a (String b "")). done.
  - cbn in Hlen. destruct (TaskLog.space2 a b).
    { destruct (IH (String c rest3) ltac:(cbn; lia)) as [x Hx].
      exists (String a (String b x)). by rewrite !append_cons, <-Hx. }
    destruct (TaskLog.space3 a b c); [|by exists ""].
    destruct (IH rest3 ltac:(lia)) as [x Hx].
    exists (String a (String b (String c x))). by rewrite !append_cons, <-Hx.
Qed.

Lemma trimEnd_prefix s : ∃ b, s = TaskLog.trimEnd s +:+ b.
Proof.
  induction s as [|a rest [b Hb]]; [by exists ""|]. cbn [TaskLog.trimEnd].
  case_decide; [by eexists|]. exists b. by rewrite append_cons, <-Hb.
Qed.

Lemma trim_infix s : ∃ a b, s = a +:+ TaskLog.trim s +:+ b.
Proof.
  destruct (trimStart_suffix s) as [a Ha].
  destruct (trimEnd_prefix (TaskLog.trimStart s)) as [b Hb].
  exists a, b. unfold TaskLog.trim. by rewrite <-Hb.
Qed.

(** A pattern at the start of the trimmed line is a pattern in the line. *)
Lemma startsWith_trim_includes s p :
  TaskLog.startsWith (TaskLog.trim s) p = true → TaskLog.includes s p = true.
Proof.
  intros [b Hb]%startsWith_spec. apply includes_spec.
  destruct (trim_infix s) as (a & b' & Hs).
  exists a, (b +:+ b'). by rewrite Hs, Hb, append_assoc.
Qed.

Lemma split_lines_cons s : ∃ line lines, TaskLog.split_lines s = line :: lines.
Proof.
  induction s as [|c s (line & lines & IH)]; cbn; [by eexists _, _|].
  case_decide; [by eexists _, _|]. rewrite IH. by eexists _, _.
Qed.

Lemma join_lines_cons (x y : string) (l : list string) :
  TaskLog.join_lines (x :: y :: l)
  = x +:+ String TaskLog.newline (TaskLog.join_lines (y :: l)).
Proof. reflexivity. Qed.

Lemma join_split s : TaskLog.join_lines (TaskLog.split_lines s) = s.
Proof.
  induction s as [|c s IH]; [done|]. cbn [TaskLog.split_lines].
  destruct (split_lines_cons s) as (line & lines & Hs).
  rewrite Hs in IH |- *. case_decide as Hc.
  - subst c. by rewrite join_lines_cons, IH.
  - destruct lines as [|next lines].
    + cbn in IH |- *. by rewrite IH.
    + rewrite join_lines_cons in IH |- *. by rewrite append_cons, IH.
Qed.

(** Whether a string holds a line feed. *)
Lemma split_join (lines : list string) :
  lines ≠ [] →
  Forall (λ line, TaskLog.includes line (String TaskLog.newline "") = false)
    lines →
  TaskLog.split_lines (TaskLog.join_lines lines) = lines.
Proof.
  assert (∀ line, TaskLog.includes line (String TaskLog.newline "") = false →
                  ∀ rest, TaskLog.split_lines (line +:+ String TaskLog.newline rest)
                          = line :: TaskLog.split_lines rest) as Hline.
  { induction line as [|c line IH]; intros Hfree rest.
    - change ("" +:+ String TaskLog.newline rest)
        with (String TaskLog.newline rest).
      cbn [TaskLog.split_lines]. by rewrite decide_True.
    - rewrite append_cons. cbn [TaskLog.split_lines].
      cbn -[ascii_dec] in Hfree.
      apply orb_false_elim in Hfree as [Hc Hfree].
      rewrite decide_False.
      + by rewrite IH.
      + intros ->. unfold TaskLog.startsWith in Hc. cbn -[ascii_dec] in Hc.
        destruct (ascii_dec TaskLog.newline TaskLog.newline); [|done].
        by destruct line. }
  assert (∀ line, TaskLog.includes line (String TaskLog.newline "") = false →
                  TaskLog.split_lines line = [line]) as Hlast.
  { induction line as [|c line IH]; intros Hfree; [done|].
    cbn [TaskLog.split_lines]. cbn -[ascii_dec] in Hfree.
    apply orb_false_elim in Hfree as [Hc Hfree].
    rewrite decide_False.
    + by rewrite IH.
    + intros ->. unfold TaskLog.startsWith in Hc. cbn -[ascii_dec] in Hc.
      destruct (ascii_dec TaskLog.newline TaskLog.newline); [|done].
      by destruct line. }
  intros Hne Hall. induction Hall as [|line lines Hfree Hall IH]; [done|].
  destruct lines as [|next lines].
  - by apply Hlast.
  - rewrite join_lines_cons, Hline by done. f_equal. by apply IH.
Qed.

End Strings.

Lemma noisy_spec (line : string) :
  TaskLog.noisy line = true
  ↔ ∃ p, p ∈ TaskLog.FILTERED_PATTERNS ∧ TaskLog.includes line p = true.
Proof.
  unfold TaskLog.noisy. rewrite existsb_exists. split.
  - intros (p & Hp%list_elem_of_In & Htest). exists p. split; [done|].
    apply orb_true_iff in Htest as [Hstart|Hin]; [|done].
    by apply startsWith_trim_includes.
  - intros (p & Hp%list_elem_of_In & Hin). exists p. split; [done|].
    by rewrite Hin, orb_true_r.
Qed.

(** X17. The ffmpeg-noise test of the log view holds for a line exactly when
    the line contains one of the filtered patterns: its first disjunct, the
    pattern at the start of the trimmed line, never decides. *)
Theorem noise_test_is_containment (line : string) :
  (TaskLog.noisy line = true
   ↔ ∃ p a b, p ∈ TaskLog.FILTERED_PATTERNS ∧ line = a +:+ p +:+ b)
  ∧ TaskLog.noisy line
    = existsb (TaskLog.includes line) TaskLog.FILTERED_PATTERNS
  ∧ (∀ p, TaskLog.startsWith (TaskLog.trim line) p = true →
          TaskLog.includes line p = true).
Proof.
  split; [|split].
  - rewrite noisy_spec. split.
    + intros (p & Hp & (a & b & Hab)%includes_spec). by exists p, a, b.
    + intros (p & a & b & Hp & ->). exists p. split; [done|].
      apply includes_spec. by exists a, b.
  - destruct (existsb _ _) eqn:Hex.
    + apply noisy_spec. apply existsb_exists in Hex as (p & Hp & Hin).
      exists p. by rewrite list_elem_of_In.
    + destruct (TaskLog.noisy line) eqn:Hn; [|done].
      apply noisy_spec in Hn as (p & Hp & Hin).
      rewrite <-Hex. symmetry. apply existsb_exists. exists p.
      by rewrite <-list_elem_of_In.
  - intros p. apply startsWith_trim_includes.
Qed.

Section LogView.

Variable toLowerCase : string → string.

Let lines_shown := TaskLog.parsedLogLines toLowerCase.

Lemma parsedLogLines_sublist (logTail : string) (f : TaskLog.Filters) :
  lines_shown logTail f `sublist_of` TaskLog.split_lines logTail.
Proof.
  unfold lines_shown, TaskLog.parsedLogLines. cbn zeta.
  destruct (TaskLog.onlyErrors f); [etrans; [apply sublist_filter|]|];
    (case_decide; [|etrans; [apply sublist_filter|]]);
    (destruct (TaskLog.hideFfmpeg f); [apply sublist_filter | done]).
Qed.

Lemma parsedLogLines_unfiltered (logTail : string) (f : TaskLog.Filters) :
  TaskLog.hideFfmpeg f = false →
  toLowerCase (TaskLog.trim (TaskLog.searchLog f)) = "" →
  TaskLog.onlyErrors f = false →
  lines_shown logTail f = TaskLog.split_lines logTail.
Proof.
  intros Hh Hq He. unfold lines_shown, TaskLog.parsedLogLines. cbn zeta.
  by rewrite Hh, Hq, He, decide_True.
Qed.

End LogView.

(** X18. The filters of the log view only remove lines: what is shown is a
    subsequence of the lines of the log tail, in the same order.  With the
    ffmpeg switch on no shown line contains a filtered pattern, with the
    errors-only switch on every shown line is drawn in the error colour, and
    no shown line holds a line feed. *)
Theorem log_view_keeps_order (toLowerCase : string → string)
    (logTail : string) (f : TaskLog.Filters) :
  let shown := TaskLog.parsedLogLines toLowerCase logTail f in
  shown `sublist_of` TaskLog.split_lines logTail
  ∧ (TaskLog.hideFfmpeg f = true →
     ∀ line p, line ∈ shown → p ∈ TaskLog.FILTERED_PATTERNS →
               TaskLog.includes line p = false)
  ∧ (TaskLog.onlyErrors f = true →
     ∀ line, line ∈ shown → TaskLog.line_colour toLowerCase line = "#fecdd3")
  ∧ (∀ line, line ∈ shown →
       TaskLog.includes line (String TaskLog.newline "") = false).
Proof.
  intros shown. split; [apply parsedLogLines_sublist|]. split; [|split].
  - intros Hh line p Hline Hp.
    assert (line ∈ filter (λ line, TaskLog.noisy line = false)
                     (TaskLog.split_lines logTail)) as Hin.
    { subst shown. unfold TaskLog.parsedLogLines in Hline. cbn zeta in Hline.
      rewrite Hh in Hline.
      destruct (TaskLog.onlyErrors f);
        [apply list_elem_of_filter in Hline as [_ Hline]|];
        (case_decide; [|apply list_elem_of_filter in Hline as [_ Hline]]);
        exact Hline. }
    apply list_elem_of_filter in Hin as [Hquiet _].
    destruct (TaskLog.includes line p) eqn:Hinc; [|done].
    rewrite <-Hquiet. symmetry. apply noisy_spec. by exists p.
  - intros He line Hline. subst shown.
    unfold TaskLog.parsedLogLines in Hline. cbn zeta in Hline.
    rewrite He in Hline. apply list_elem_of_filter in Hline as [Herr _].
    unfold TaskLog.line_colour, TaskLog.erroneous in *. cbn zeta in *.
    cbn [existsb]. rewrite orb_false_r, orb_assoc. by rewrite Herr.
  - intros line Hline.
    assert (line ∈ TaskLog.split_lines logTail) as Hin.
    { eapply sublist_subseteq; [apply parsedLogLines_sublist | exact Hline]. }
    clear Hline shown. revert line Hin.
    induction logTail as [|c s IH]; intros line Hin.
    + apply list_elem_of_singleton in Hin as ->. reflexivity.
    + cbn [TaskLog.split_lines] in Hin.
      destruct (split_lines_cons s) as (first & rest & Hs).
      rewrite Hs in Hin, IH. case_decide as Hc.
      * apply elem_of_cons in Hin as [->|Hin]; [reflexivity | by apply IH].
      * apply elem_of_cons in Hin as [->|Hin].
        -- cbn -[ascii_dec]. unfold TaskLog.startsWith. cbn -[ascii_dec].
           destruct (ascii_dec TaskLog.newline c) as [<-|_]; [done|].
           apply IH. by left.
        -- apply IH. by right.
Qed.

(** X19. With the ffmpeg switch off, a blank search and the errors-only
    switch off, the text that the copy button takes is the log tail as it
    came, the placeholder for an empty log is not shown, not even for an
    empty tail, and splitting the copied text gives the shown lines back. *)
Theorem log_copy_round_trip (toLowerCase : string → string)
    (logTail : string) (f : TaskLog.Filters) :
  TaskLog.hideFfmpeg f = false →
  toLowerCase (TaskLog.trim (TaskLog.searchLog f)) = "" →
  TaskLog.onlyErrors f = false →
  TaskLog.parsedLog toLowerCase logTail f = logTail
  ∧ TaskLog.placeholder_shown toLowerCase logTail f = false
  ∧ TaskLog.split_lines (TaskLog.parsedLog toLowerCase logTail f)
    = TaskLog.parsedLogLines toLowerCase logTail f.
Proof.
  intros Hh Hq He. unfold TaskLog.parsedLog, TaskLog.placeholder_shown.
  rewrite (parsedLogLines_unfiltered toLowerCase logTail f Hh Hq He).
  rewrite join_split. split; [done|]. split; [|done].
  destruct (split_lines_cons logTail) as (line & lines & ->).
  by apply bool_decide_eq_false_2.
Qed.

Lemma log_copy_round_trip_witness :
  TaskLog.parsedLog Fixtures.lower Fixtures.log
    (TaskLog.mkFilters false "  " false)
  = Fixtures.log.
Proof.
  exact (proj1 (log_copy_round_trip Fixtures.lower Fixtures.log
                  (TaskLog.mkFilters false "  " false)
                  eq_refl eq_refl eq_refl)).
Defined.

(** The sample log under the default filters, and under a search for
    nothing with the errors-only switch on. *)
Example log_sample :
  TaskLog.split_lines Fixtures.log
  = ["Input #0, mov"; "frame=  120 fps= 30";
     "  [h264 @ 0x55] concealing errors"; "Conversion FAILED"; "done"]
  ∧ TaskLog.parsedLogLines Fixtures.lower Fixtures.log TaskLog.default_filters
    = ["Input #0, mov"; "Conversion FAILED"; "done"]
  ∧ TaskLog.parsedLogLines Fixtures.lower Fixtures.log
      (TaskLog.mkFilters true "  " true)
    = ["Conversion FAILED"]
  ∧ TaskLog.trim (String "009" (String "032" (String "194" (String "160" "x y  "))))
    = "x y".
Proof. vm_compute. repeat split. Qed.

(** ** The queue page *)

Section QueueFacts.

Variable net : Net QueuePage.Body.

Lemma load_spec (w : World QueuePage.State) :
  let t_call := get (QueuePage.tasks_url (page w)) in
  let p_call := get "/api/projects" in
  let w' := exec (QueuePage.load net) w in
  sent w' = sent w ++ [t_call; p_call]
  ∧ QueuePage.setTasks (QueuePage.tasks (page w))
      (QueuePage.setProjects (QueuePage.projects (page w))
         (QueuePage.setLoading (QueuePage.loading (page w)) (page w')))
    = page w
  ∧ match net (sent w) t_call, net (sent w ++ [t_call]) p_call with
    | Some t, Some p =>
        let tasks' :=
          if resp_ok t then QueuePage.listed <$> resp_json t
          else Some (QueuePage.tasks (page w)) in
        let projects' :=
          if resp_ok p then resp_json p
          else Some (QueuePage.projects (page w)) in
        QueuePage.tasks (page w') = default (QueuePage.tasks (page w)) tasks'
        ∧ QueuePage.projects (page w')
          = match tasks' with
            | Some _ => default (QueuePage.projects (page w)) projects'
            | None => QueuePage.projects (page w)
            end
        ∧ QueuePage.loading (page w')
          = negb (bool_decide (is_Some tasks' ∧ is_Some projects'))
    | _, _ =>
        QueuePage.tasks (page w') = QueuePage.tasks (page w)
        ∧ QueuePage.projects (page w') = QueuePage.projects (page w)
        ∧ QueuePage.loading (page w') = true
    end.
Proof.
  unfold QueuePage.load. destruct w as [[ts ps l f pid pr] log]. act_step.
  change (QueuePage.tasks_url _)
    with (QueuePage.tasks_url (QueuePage.mkState ts ps l f pid pr)).
  set (t_call := get (QueuePage.tasks_url _)).
  rewrite <-app_assoc. cbn [app].
  destruct (net log t_call) as [[[] st tx [[d|items]|]]|];
    destruct (net (log ++ [t_call]) (get "/api/projects"))
      as [[[] st' tx' [[d'|items']|]]|];
    cbn; repeat split.
Qed.

Lemma load_sent (w : World QueuePage.State) :
  sent (exec (QueuePage.load net) w)
  = sent w ++ [get (QueuePage.tasks_url (page w)); get "/api/projects"].
Proof. apply load_spec. Qed.

Lemma handle_sent (ev : QueuePage.Event) (w : World QueuePage.State) :
  ∃ reload,
    sent (exec (QueuePage.handle net ev) w)
    = sent w ++ queue_action ev ++ reload
    ∧ Forall (λ r, req_method r = GET) reload.
Proof.
  assert (∀ w0 pre, sent w0 = sent w ++ pre →
            ∃ reload, sent (exec (QueuePage.load net) w0)
                      = sent w ++ pre ++ reload
                      ∧ Forall (λ r, req_method r = GET) reload) as Hload.
  { intros w0 pre Hw0. eexists. rewrite load_sent, Hw0, <-app_assoc.
    split; [reflexivity|]. by repeat constructor. }
  assert (∃ reload, sent w = sent w ++ [] ++ reload
                    ∧ Forall (λ r, req_method r = GET) reload) as Hnone.
  { exists []. by rewrite !app_nil_r. }
  destruct ev as [| |k|k|i|i|i []]; cbn [QueuePage.handle queue_action].
  - apply Hload. by rewrite app_nil_r.
  - apply Hload. by rewrite app_nil_r.
  - destruct (QueuePage.tabs !! k) as [tab|]; [|exact Hnone].
    rewrite exec_bind. cbn [read fst snd]. rewrite exec_then.
    unfold QueuePage.effect_after. rewrite exec_bind. cbn [read fst snd].
    case_decide; [exact Hnone|]. apply Hload. by rewrite app_nil_r.
  - rewrite exec_bind. cbn [read fst snd].
    destruct (QueuePage.project_options (page w) !! k) as [v|]; [|exact Hnone].
    rewrite exec_then.
    unfold QueuePage.effect_after. rewrite exec_bind. cbn [read fst snd].
    case_decide; [exact Hnone|]. apply Hload. by rewrite app_nil_r.
  - unfold QueuePage.process. rewrite exec_then, exec_bind.
    cbn [fetch fst snd update exec page sent].
    destruct (net _ _); [|exists []; split; [reflexivity | constructor]].
    rewrite exec_then. by apply Hload.
  - unfold QueuePage.approve. rewrite exec_bind.
    cbn [fetch fst snd page sent].
    destruct (net _ _); [|exists []; split; [reflexivity | constructor]].
    by apply Hload.
  - unfold QueuePage.del. cbn [negb]. rewrite exec_bind.
    cbn [fetch fst snd page sent].
    destruct (net _ _); [|exists []; split; [reflexivity | constructor]].
    by apply Hload.
  - exact Hnone.
Qed.

Lemma run_changes (evs : list QueuePage.Event) (w : World QueuePage.State) :
  filter (λ r, req_method r ≠ GET) (sent (exec (QueuePage.run net evs) w))
  = filter (λ r, req_method r ≠ GET) (sent w) ++ (evs ≫= queue_action).
Proof.
  revert w. induction evs as [|ev evs IH]; intros w.
  - cbn. by rewrite app_nil_r.
  - cbn [QueuePage.run]. rewrite exec_then, IH.
    destruct (handle_sent ev w) as (reload & -> & Hget).
    rewrite !filter_app, <-!app_assoc. f_equal.
    assert (filter (λ r, req_method r ≠ GET) reload = []) as ->.
    { clear -Hget. induction Hget as [|r l Hr _ IH]; [done|].
      rewrite filter_cons_False; [done|]. intros Hc. by apply Hc. }
    assert (filter (λ r, req_method r ≠ GET) (queue_action ev) = queue_action ev) as ->.
    { destruct ev as [| |k|k|i|i|i []]; done. }
    by rewrite app_nil_l.
Qed.

End QueueFacts.

(** X20. Whatever the operator does on the queue page, the requests other
    than GETs that the page sends are, in order, one per click: a POST to
    [process-v2] for a process click, a PATCH with the body [{status:
    "done"}] and nothing else for an approve click, a DELETE for a delete
    click that was confirmed, and nothing for a delete click that was
    declined. *)
Theorem queue_changes_follow_clicks (net : Net QueuePage.Body)
    (evs : list QueuePage.Event) :
  let w := exec (QueuePage.run net evs) (mkWorld QueuePage.initial []) in
  filter (λ r, req_method r ≠ GET) (sent w)
  = evs ≫= (λ ev,
      match ev with
      | QueuePage.ClickProcess i =>
          [post ("/api/publish-tasks/" +:+ show_int i +:+ "/process-v2")]
      | QueuePage.ClickApprove i =>
          [send_json PATCH ("/api/publish-tasks/" +:+ show_int i)
             (JObj [("status", JStr "done")])]
      | QueuePage.ClickDelete i true =>
          [QueuePage.delete ("/api/publish-tasks/" +:+ show_int i)]
      | _ => []
      end).
Proof.
  intros w. subst w.
  exact (run_changes net evs (mkWorld QueuePage.initial [])).
Qed.

Section Encoding.

Lemma form_encode_plain (s : string) : plain s → QueuePage.form_encode s = s.
Proof.
  induction s as [|c s IH]; [done|]. intros [Hc Hs]. cbn [QueuePage.form_encode].
  unfold QueuePage.encode_byte. by rewrite Hc, IH.
Qed.

Lemma pretty_N_char_plain (x : N) :
  QueuePage.unreserved (pretty_N_char x) = true.
Proof.
  unfold pretty_N_char. repeat case_match; reflexivity.
Qed.

Lemma pretty_N_go_plain (x : N) (s : string) :
  plain s → plain (pretty_N_go x s).
Proof.
  revert s. induction (N.lt_wf_0 x) as [x _ IH]; intros s Hs.
  assert (x = 0 ∨ 0 < x)%N as [->|Hx] by lia.
  - by rewrite pretty_N_go_0.
  - rewrite pretty_N_go_step by done. apply IH.
    { by apply N.div_lt. }
    split; [apply pretty_N_char_plain | exact Hs].
Qed.

Lemma pretty_N_go_nonempty (x : N) (s : string) :
  s ≠ "" → pretty_N_go x s ≠ "".
Proof.
  revert s. induction (N.lt_wf_0 x) as [x _ IH]; intros s Hs.
  assert (x = 0 ∨ 0 < x)%N as [->|Hx] by lia.
  - by rewrite pretty_N_go_0.
  - rewrite pretty_N_go_step by done. apply IH; [by apply N.div_lt | done].
Qed.

(** A printed integer is digits after at most a minus sign, and never
    empty. *)
Lemma show_int_plain (z : Z) : plain (show_int z) ∧ show_int z ≠ "".
Proof.
  unfold show_int, pretty, pretty_Z.
  destruct z as [|p|p]; [done| |];
    unfold pretty, pretty_positive, pretty, pretty_N;
    rewrite decide_False by done.
  - split; [by apply pretty_N_go_plain|].
    rewrite pretty_N_go_step by lia. by apply pretty_N_go_nonempty.
  - split; [|done]. split; [done|]. by apply pretty_N_go_plain.
Qed.

End Encoding.

Lemma tabs_plain (tab : string) : tab ∈ QueuePage.tabs → plain tab.
Proof.
  unfold QueuePage.tabs. rewrite !elem_of_cons, elem_of_nil.
  intros H. repeat (destruct H as [->|H]; [vm_compute; tauto|]). done.
Qed.

Lemma tasks_url_plain (s : QueuePage.State) :
  queue_filtered s →
  ∃ tab project,
    tab ∈ QueuePage.tabs
    ∧ QueuePage.tasks_url s = "/api/publish-tasks?" +:+ queue_query tab project.
Proof.
  intros [Htab Hpid]. unfold QueuePage.tasks_url, QueuePage.serialize,
    QueuePage.load_params, queue_query.
  exists (QueuePage.filter s).
  assert (QueuePage.form_encode (QueuePage.filter s) = QueuePage.filter s)
    as Hf by by apply form_encode_plain, tabs_plain.
  destruct Hpid as [Hpid|[z Hpid]].
  - exists None. split; [done|]. rewrite Hpid, app_nil_r.
    destruct (decide (QueuePage.filter s = "all")) as [Hall|Hall].
    + by rewrite decide_False by tauto.
    + rewrite decide_True by done. cbn [fmap list_fmap fst snd].
      by rewrite Hf.
  - exists (Some z). split; [done|]. rewrite Hpid.
    destruct (show_int_plain z) as [Hplain Hne].
    rewrite (decide_True (P := show_int z ≠ "")) by done.
    assert (QueuePage.form_encode (show_int z) = show_int z) as Hz
      by by apply form_encode_plain.
    destruct (decide (QueuePage.filter s = "all")) as [Hall|Hall].
    + rewrite decide_False by tauto. cbn [app fmap list_fmap fst snd].
      by rewrite Hz.
    + rewrite decide_True by done. cbn [app fmap list_fmap fst snd].
      by rewrite Hf, Hz.
Qed.

Section QueueRequests.

Variable net : Net QueuePage.Body.

Lemma queue_frame (s s' : QueuePage.State) ts ps l :
  QueuePage.setTasks ts (QueuePage.setProjects ps (QueuePage.setLoading l s'))
  = s →
  QueuePage.filter s' = QueuePage.filter s
  ∧ QueuePage.projectId s' = QueuePage.projectId s
  ∧ QueuePage.processing s' = QueuePage.processing s.
Proof. intros <-. by destruct s'. Qed.

Lemma load_filtered (w : World QueuePage.State) :
  steady queue_filtered queue_request w →
  steady queue_filtered queue_request (exec (QueuePage.load net) w).
Proof.
  intros [Hs Hl]. destruct (load_spec net w) as (Hsent & Hf & _).
  cbn zeta in *. destruct (queue_frame _ _ _ _ _ Hf) as (Hfil & Hpid & _).
  split.
  - unfold queue_filtered. by rewrite Hfil, Hpid.
  - rewrite Hsent. apply Forall_app. split; [exact Hl|].
    constructor; [|constructor; [|constructor]].
    + intros _. right.
      destruct (tasks_url_plain (page w) Hs) as (tab & project & Htab & ->).
      by exists tab, project.
    + intros _. by left.
Qed.

Lemma handle_filtered (ev : QueuePage.Event) (w : World QueuePage.State) :
  steady queue_filtered queue_request w →
  steady queue_filtered queue_request (exec (QueuePage.handle net ev) w).
Proof.
  intros Hw.
  assert (∀ r, req_method r ≠ GET →
               steady queue_filtered queue_request
                 (mkWorld (page w) (sent w ++ [r]))) as Hsend.
  { intros r Hr. destruct Hw as [Hs Hl]. split; [exact Hs|].
    cbn. apply Forall_app. split; [exact Hl|]. constructor; [|constructor].
    intros Hget. by destruct Hr. }
  destruct ev as [| |k|k|i|i|i []]; cbn [QueuePage.handle].
  - by apply load_filtered.
  - by apply load_filtered.
  - destruct (QueuePage.tabs !! k) as [tab|] eqn:Hk; [|exact Hw].
    rewrite exec_bind. cbn [read fst snd]. rewrite exec_then.
    assert (steady queue_filtered queue_request
              (exec (update (QueuePage.setFilter tab)) w)) as Hw1.
    { destruct Hw as [[_ Hpid] Hl]. split; [|exact Hl]. split; [|exact Hpid].
      cbn. by eapply list_elem_of_lookup_2. }
    unfold QueuePage.effect_after. rewrite exec_bind. cbn [read fst snd].
    case_decide; [exact Hw1 | by apply load_filtered].
  - rewrite exec_bind. cbn [read fst snd].
    destruct (QueuePage.project_options (page w) !! k) as [v|] eqn:Hk;
      [|exact Hw].
    rewrite exec_then.
    assert (steady queue_filtered queue_request
              (exec (update (QueuePage.setProjectId v)) w)) as Hw1.
    { destruct Hw as [[Htab _] Hl]. split; [|exact Hl]. split; [exact Htab|].
      cbn. apply list_elem_of_lookup_2 in Hk.
      unfold QueuePage.project_options in Hk.
      destruct (QueuePage.projects (page w)) as [ps|items];
        [|by apply elem_of_nil in Hk].
      apply elem_of_cons in Hk as [->|Hk]; [by left|right].
      apply list_elem_of_fmap in Hk as (p & -> & _). by eexists. }
    unfold QueuePage.effect_after. rewrite exec_bind. cbn [read fst snd].
    case_decide; [exact Hw1 | by apply load_filtered].
  - unfold QueuePage.process. rewrite exec_then, exec_bind.
    cbn [fetch fst snd update exec page sent].
    assert (steady queue_filtered queue_request
              (mkWorld (QueuePage.setProcessing (Some i) (page w))
                 (sent w ++ [post (QueuePage.task_url i +:+ "/process-v2")])))
      as Hw1.
    { destruct (Hsend (post (QueuePage.task_url i +:+ "/process-v2")))
        as [Hs Hl]; [done|]. by split. }
    destruct (net _ _); [|exact Hw1].
    rewrite exec_then. apply load_filtered.
    destruct Hw1 as [Hs Hl]. by split.
  - unfold QueuePage.approve. rewrite exec_bind.
    cbn [fetch fst snd page sent].
    destruct (net _ _); [apply load_filtered|]; by apply Hsend.
  - unfold QueuePage.del. cbn [negb]. rewrite exec_bind.
    cbn [fetch fst snd page sent].
    destruct (net _ _); [apply load_filtered|]; by apply Hsend.
  - exact Hw.
Qed.

Lemma run_filtered (evs : list QueuePage.Event) (w : World QueuePage.State) :
  steady queue_filtered queue_request w →
  steady queue_filtered queue_request (exec (QueuePage.run net evs) w).
Proof.
  revert w. induction evs as [|ev evs IH]; intros w Hw; [exact Hw|].
  cbn [QueuePage.run]. rewrite exec_then. by apply IH, handle_filtered.
Qed.

End QueueRequests.

(** X21. Whatever the operator does on the queue page, every GET is the
    project list or the task list under [/api/publish-tasks?], whose query
    names the tab under [status] unless the tab is "all", and the chosen
    project under [project_id] if one is chosen; the form encoding of the
    query changes neither. *)
Theorem queue_urls_unescaped (net : Net QueuePage.Body)
    (evs : list QueuePage.Event) :
  let w := exec (QueuePage.run net evs) (mkWorld QueuePage.initial []) in
  Forall
    (λ r, req_method r = GET →
          r = get "/api/projects"
          ∨ ∃ tab project,
              tab ∈ QueuePage.tabs
              ∧ r = get ("/api/publish-tasks?"
                         +:+ String.concat "&"
                               ((if decide (tab = "all") then []
                                 else ["status=" +:+ tab])
                                ++ match project with
                                   | Some z => ["project_id=" +:+ show_int z]
                                   | None => []
                                   end)))
    (sent w)
  ∧ QueuePage.filter (page w) ∈ QueuePage.tabs
  ∧ (∀ tab, tab ∈ QueuePage.tabs → QueuePage.form_encode tab = tab)
  ∧ (∀ z, QueuePage.form_encode (show_int z) = show_int z).
Proof.
  intros w.
  destruct (run_filtered net evs (mkWorld QueuePage.initial [])) as [[H1 _] H2].
  { split; [|constructor]. split; [|by left].
    cbn. apply elem_of_cons. by left. }
  split; [exact H2|]. split; [exact H1|]. split.
  - intros tab Htab. by apply form_encode_plain, tabs_plain.
  - intros z. apply form_encode_plain, show_int_plain.
Qed.

(** The encoding at work on a value that the page never sends. *)
Example form_encode_escapes :
  QueuePage.form_encode "ready for review/№1"
  = "ready+for+review%2F%E2%84%961".
Proof. vm_compute. reflexivity. Qed.

